(** * Harvest Hub backend: handlers over an in-memory relational store

    A shallow embedding of the Express route handlers of the repository
    (routes/auth.js, routes/gardens.js, the crops router and the profile
    router) together with small models of the three collaborators they
    call: the query-builder client of the hosted store, the password
    hashing library and the token library. *)

From Stdlib Require Import ZArith Bool Ascii Sorted.
From stdpp Require Import gmap strings list fin_maps.

Set Warnings "-register-all".
Open Scope Z_scope.
Open Scope string_scope.

(** ** JavaScript values

    Request bodies and table rows hold JSON scalars.  Numbers are the
    integers; [undefined] is the [None] of a property read. *)

Inductive value :=
  | VNull
  | VBool (b : bool)
  | VNum (n : Z)
  | VStr (s : string).

#[global] Instance value_eq_dec : EqDecision value.
Proof. solve_decision. Defined.

(** A property read [o.k]: [None] is [undefined]. *)
Abbreviation jsval := (option value).
Abbreviation row := (gmap string value).

(** Truthiness as [!x] and [x || y] see it. *)
Definition truthy (x : jsval) : bool :=
  match x with
  | None => false
  | Some VNull => false
  | Some (VBool b) => b
  | Some (VNum n) => negb (Z.eqb n 0)
  | Some (VStr s) => negb (String.eqb s "")
  end.

(** [x || y] *)
Definition js_or (x y : jsval) : jsval := if truthy x then x else y.

(** [x !== undefined ? x : y] *)
Definition js_def (x y : jsval) : jsval :=
  match x with Some _ => x | None => y end.

Infix "|||" := js_or (at level 50, left associativity).

(** An object literal keeps its keys in order; a key whose value is
    [undefined] is dropped when the object is serialised, which is what
    happens to every object handed to the store or to [res.json]. *)
Definition literal := list (string * jsval).

Fixpoint stringify (o : literal) : row :=
  match o with
  | [] => ∅
  | (k, Some v) :: o' => <[k := v]> (stringify o')
  | (k, None) :: o' => stringify o'
  end.

(** ** JSON response bodies *)

Inductive json :=
  | JVal (v : value)
  | JObj (fields : list (string * json))
  | JArr (items : list json).

Definition row_fields (r : row) : list (string * json) :=
  (λ kv, (kv.1, JVal kv.2)) <$> map_to_list r.

Definition row_json (r : row) : json := JObj (row_fields r).

Definition opt_field (k : string) (x : jsval) : list (string * json) :=
  match x with Some v => [(k, JVal v)] | None => [] end.

(** Does the key [k] occur anywhere in a body? *)
Fixpoint mentions (k : string) (j : json) : bool :=
  match j with
  | JVal _ => false
  | JObj fs => existsb (λ f, String.eqb k f.1 || mentions k f.2) fs
  | JArr js => existsb (mentions k) js
  end.

Record response := mkResponse { status : Z; body : json }.

(** The one-field error body of the auth router and the two-field one
    of the other routers. *)
Definition err_body (msg : string) : json :=
  JObj [("error", JVal (VStr msg))].

Definition fail_body (msg : string) : json :=
  JObj [("success", JVal (VBool false)); ("error", JVal (VStr msg))].

(** ** The store

    Three tables of rows.  The query builder of the hosted store is
    modelled by what its calls do to these lists: [eq] filters on a
    column, [select] projects, [single] demands exactly one row and
    answers with an error otherwise, [update] patches the matching rows
    with the serialised object, [insert] appends the row under a fresh
    identifier, [delete] removes the matching rows.  Identifiers are
    compared as values. *)

Inductive table := Users | Gardens | Crops.

Record db := mkDb { users : list row; gardens : list row; crops : list row }.

Definition rows_of (t : table) (d : db) : list row :=
  match t with
  | Users => users d
  | Gardens => gardens d
  | Crops => crops d
  end.

Definition set_rows (t : table) (rs : list row) (d : db) : db :=
  match t with
  | Users => mkDb rs (gardens d) (crops d)
  | Gardens => mkDb (users d) rs (crops d)
  | Crops => mkDb (users d) (gardens d) rs
  end.

Record error := mkError { err_name : string; err_message : string; err_stack : string }.

Record result (A : Type) := mkResult { data : option A; err : option error }.
Arguments mkResult {A} _ _.
Arguments data {A} _.
Arguments err {A} _.

Definition no_rows : error :=
  mkError "PostgrestError"
    "JSON object requested, multiple (or no) rows returned" "".

Definition duplicate_key : error :=
  mkError "PostgrestError"
    "duplicate key value violates unique constraint" "".

(** [.eq(k, x)]: the row has [x] in column [k]; [.neq(k, x)]: it has
    something else there.  Nothing compares with null or [undefined]. *)
Inductive cond :=
  | Eq (k : string) (x : jsval)
  | Neq (k : string) (x : jsval).

Definition holds (r : row) (f : cond) : bool :=
  match f with
  | Eq k (Some v) => bool_decide (r !! k = Some v)
  | Neq k (Some v) =>
      match r !! k with
      | Some VNull | None => false
      | Some w => negb (bool_decide (w = v))
      end
  | _ => false
  end.

Definition matches (fs : list cond) (r : row) : bool :=
  forallb (holds r) fs.

(** [.select('a, b')] keeps the listed columns, an absent one reads as
    null; [.select('*')] and [.select()] keep the row. *)
Inductive columns := Star | Cols (cs : list string).

Definition project (c : columns) (r : row) : row :=
  match c with
  | Star => r
  | Cols cs => list_to_map ((λ k, (k, default VNull (r !! k))) <$> cs)
  end.

(** [.single()] *)
Definition single (rs : list row) : result row :=
  match rs with
  | [r] => mkResult (Some r) None
  | _ => mkResult None (Some no_rows)
  end.

(** The rows a chain of filters keeps. *)
Definition selected (fs : list cond) (rs : list row) : list row :=
  filter (λ r, matches fs r = true) rs.

Definition query (t : table) (c : columns) (fs : list cond) (d : db)
  : list row :=
  project c <$> selected fs (rows_of t d).

(** [.update(o)]: the serialised object written over the row. *)
Definition patch (o : row) (r : row) : row := o ∪ r.

Definition update_rows (o : row) (fs : list cond) (rs : list row)
  : list row :=
  (λ r, if matches fs r then patch o r else r) <$> rs.

Definition delete_rows (fs : list cond) (rs : list row) : list row :=
  filter (λ r, matches fs r = false) rs.

(** [.order(k, { ascending: false })]: a stable sort, largest first,
    nulls before everything else; [.limit(n)] keeps the first [n]. *)
Definition value_lt (x y : jsval) : bool :=
  match x, y with
  | Some (VBool a), Some (VBool b) => negb a && b
  | Some (VNum a), Some (VNum b) => Z.ltb a b
  | Some (VStr a), Some (VStr b) => String.ltb a b
  | Some (VBool _), Some (VNum _ | VStr _) => true
  | Some (VNum _), Some (VStr _) => true
  | Some (VBool _ | VNum _ | VStr _), (Some VNull | None) => true
  | _, _ => false
  end.

Fixpoint insert_desc (k : string) (x : row) (rs : list row) : list row :=
  match rs with
  | [] => [x]
  | y :: rs' =>
      if value_lt (x !! k) (y !! k) then y :: insert_desc k x rs'
      else x :: rs
  end.

Definition order_desc (k : string) (rs : list row) : list row :=
  foldr (insert_desc k) [] rs.

Definition limit (n : option nat) (rs : list row) : list row :=
  match n with Some n => take n rs | None => rs end.

Definition ordered (k : option string) (rs : list row) : list row :=
  match k with Some k => order_desc k rs | None => rs end.

(** ** Handlers as state-passing computations

    A handler body runs against the store and either goes on with a
    value, answers the request ([return res.status(..).json(..)]) or
    throws; the [catch] clause of the handler turns a thrown error into
    a response. *)

Inductive step (A : Type) :=
  | Next (a : A)
  | Reply (r : response)
  | Raise (e : error).
Arguments Next {A} _.
Arguments Reply {A} _.
Arguments Raise {A} _.

Definition handler (A : Type) := db → step A * db.

Definition ret {A} (a : A) : handler A := λ d, (Next a, d).

Definition bind {A B} (k : A → handler B) (m : handler A) : handler B :=
  λ d, match m d with
       | (Next a, d') => k a d'
       | (Reply r, d') => (Reply r, d')
       | (Raise e, d') => (Raise e, d')
       end.

#[global] Instance handler_ret : MRet handler := @ret.
#[global] Instance handler_bind : MBind handler := @bind.

(** [return res.status(s).json(b)] *)
Definition reply {A} (s : Z) (b : json) : handler A :=
  λ d, (Reply (mkResponse s b), d).

(** [throw e] *)
Definition throw {A} (e : error) : handler A := λ d, (Raise e, d).

(** [if (c) return res.status(s).json(b)] *)
Definition reply_if (c : bool) (s : Z) (b : json) : handler unit :=
  if c then reply s b else ret tt.

(** [if (error) throw error] *)
Definition throw_if (e : option error) : handler unit :=
  match e with Some x => throw x | None => ret tt end.

(** [try { body } catch (error) { recover error }] around a handler. *)
Definition try_catch (m : handler response) (recover : error → response)
  : db → response * db :=
  λ d, match m d with
       | (Next r, d') => (r, d')
       | (Reply r, d') => (r, d')
       | (Raise e, d') => (recover e, d')
       end.

(** *** The query builder *)

(** [.from(t).select(c).eq(..).single()] *)
Definition select_single (t : table) (c : columns) (fs : list cond)
  : handler (result row) :=
  λ d, (Next (single (query t c fs d)), d).

(** [.from(t).select(c).eq(..).order(k, ..).limit(n)], the last two
    optional. *)
Definition select_all (t : table) (c : columns) (fs : list cond)
    (k : option string) (n : option nat) : handler (result (list row)) :=
  λ d, let rs := selected fs (rows_of t d) in
       (Next (mkResult (Some (project c <$> limit n (ordered k rs))) None), d).

(** The unique constraint of the users table on the e-mail column. *)
Definition violates (t : table) (r : row) (d : db) : bool :=
  match t with
  | Users => existsb (λ u, bool_decide (u !! "email" = r !! "email")) (users d)
  | _ => false
  end.

(** [.from(t).insert([o]).select().single()]; the store gives the row
    its identifier. *)
Definition insert_single (fresh : value) (t : table) (o : literal)
  : handler (result row) :=
  λ d, let r := <["id" := fresh]> (stringify o) in
       if violates t r d then (Next (mkResult None (Some duplicate_key)), d)
       else (Next (mkResult (Some r) None), set_rows t (rows_of t d ++ [r]) d).

(** [.from(t).update(o).eq(..).select(c).single()]; a mutation that
    [single] rejects is rolled back. *)
Definition update_single (t : table) (o : literal) (fs : list cond)
    (c : columns) : handler (result row) :=
  λ d, let rs := update_rows (stringify o) fs (rows_of t d) in
       match selected fs (rows_of t d) with
       | [r] => (Next (mkResult (Some (project c (patch (stringify o) r))) None),
                 set_rows t rs d)
       | _ => (Next (mkResult None (Some no_rows)), d)
       end.

(** [.from(t).delete().eq(..)] *)
Definition delete_where (t : table) (fs : list cond)
  : handler (option error) :=
  λ d, (Next None, set_rows t (delete_rows fs (rows_of t d)) d).

(** ** The environment of a request: the clock, what the store and the
    libraries draw at random, and the process configuration. *)

Record env := mkEnv {
  now_iso : string;        (* new Date().toISOString() *)
  now_sec : Z;             (* Math.floor(Date.now() / 1000) *)
  fresh_id : value;        (* the identifier the store gives a new row *)
  gen_salt : string;       (* bcrypt.genSalt(10) *)
  JWT_SECRET : option string;
  NODE_ENV : option string;
  random : list Z          (* the successive Math.floor(Math.random() * n) *)
}.

Record request := mkRequest {
  authorization : option string;  (* req.headers['authorization'] *)
  params : row;                   (* req.params *)
  req_body : row;                 (* req.body *)
  req_user : row;                 (* req.user, set by the middleware *)
  file_path : option string       (* req.file.path, set by the upload *)
}.

Definition jtrue : json := JVal (VBool true).
Definition jstr (s : string) : json := JVal (VStr s).
Definition jcount (rs : list row) : json := JVal (VNum (Z.of_nat (length rs))).
Definition jrows (rs : list row) : json := JArr (row_json <$> rs).

(** A row or [null], as a query hands it to [res.json]. *)
Definition jdata (o : option row) : json :=
  match o with Some r => row_json r | None => JVal VNull end.

Definition str (s : string) : jsval := Some (VStr s).
Definition null : jsval := Some VNull.

(** ** routes/gardens.js *)

Module Gardens.

(** [router.get('/')] *)
Definition list_all (rq : request) : db → response * db :=
  try_catch
    (q ← select_all Gardens Star [Eq "user_id" (req_user rq !! "id")]
           (Some "created_at") None;
     throw_if (err q);;
     let gardens := default [] (data q) in
     mret (mkResponse 200 (JObj [("success", jtrue);
                                 ("count", jcount gardens);
                                 ("gardens", jrows gardens)])))
    (λ _, mkResponse 500 (fail_body "Failed to fetch gardens")).

(** [router.get('/:id')] *)
Definition get_one (rq : request) : db → response * db :=
  try_catch
    (q ← select_single Gardens Star
           [Eq "id" (params rq !! "id"); Eq "user_id" (req_user rq !! "id")];
     throw_if (err q);;
     match data q with
     | None => reply 404 (fail_body "Garden not found")
     | Some garden =>
         mret (mkResponse 200 (JObj [("success", jtrue);
                                     ("garden", row_json garden)]))
     end)
    (λ _, mkResponse 500 (fail_body "Failed to fetch garden")).

(** [router.post('/')] *)
Definition create (e : env) (rq : request) : db → response * db :=
  try_catch
    (let name := req_body rq !! "name" in
     let location := req_body rq !! "location" in
     let type := req_body rq !! "type" in
     let size := req_body rq !! "size" in
     let description := req_body rq !! "description" in
     reply_if (negb (truthy name)) 400 (fail_body "Garden name is required");;
     let gardenData : literal :=
       [("user_id", req_user rq !! "id");
        ("name", name);
        ("location", location ||| null);
        ("type", type ||| str "outdoor");
        ("size", size ||| str "medium");
        ("description", description ||| null);
        ("created_at", str (now_iso e));
        ("updated_at", str (now_iso e))] in
     q ← insert_single (fresh_id e) Gardens gardenData;
     throw_if (err q);;
     mret (mkResponse 201 (JObj [("success", jtrue);
                                 ("message", jstr "Garden created successfully");
                                 ("garden", jdata (data q))])))
    (λ _, mkResponse 500 (fail_body "Failed to create garden")).

(** The object built by [router.put('/:id')]. *)
Definition updateData (e : env) (b existingGarden : row) : literal :=
  [("name", b !! "name" ||| existingGarden !! "name");
   ("location", js_def (b !! "location") (existingGarden !! "location"));
   ("type", b !! "type" ||| existingGarden !! "type");
   ("size", b !! "size" ||| existingGarden !! "size");
   ("description", js_def (b !! "description") (existingGarden !! "description"));
   ("updated_at", str (now_iso e))].

(** [router.put('/:id')] *)
Definition update (e : env) (rq : request) : db → response * db :=
  try_catch
    (q ← select_single Gardens (Cols ["id"])
           [Eq "id" (params rq !! "id"); Eq "user_id" (req_user rq !! "id")];
     match err q, data q with
     | None, Some existingGarden =>
         u ← update_single Gardens (updateData e (req_body rq) existingGarden)
               [Eq "id" (params rq !! "id")] Star;
         throw_if (err u);;
         mret (mkResponse 200 (JObj [("success", jtrue);
                                     ("message", jstr "Garden updated successfully");
                                     ("garden", jdata (data u))]))
     | _, _ => reply 404 (fail_body "Garden not found or access denied")
     end)
    (λ _, mkResponse 500 (fail_body "Failed to update garden")).

(** [router.delete('/:id')] *)
Definition delete (rq : request) : db → response * db :=
  try_catch
    (q ← select_single Gardens (Cols ["id"])
           [Eq "id" (params rq !! "id"); Eq "user_id" (req_user rq !! "id")];
     match err q, data q with
     | None, Some existingGarden =>
         x ← delete_where Gardens [Eq "id" (params rq !! "id")];
         throw_if x;;
         mret (mkResponse 200 (JObj [("success", jtrue);
                                     ("message", jstr "Garden deleted successfully")]))
     | _, _ => reply 404 (fail_body "Garden not found or access denied")
     end)
    (λ _, mkResponse 500 (fail_body "Failed to delete garden")).

End Gardens.

(** ** The crops router *)

Module Crops.

(** [router.get('/')] *)
Definition list_all (rq : request) : db → response * db :=
  try_catch
    (q ← select_all Crops Star [Eq "user_id" (req_user rq !! "id")]
           (Some "created_at") None;
     throw_if (err q);;
     let crops := default [] (data q) in
     mret (mkResponse 200 (JObj [("success", jtrue);
                                 ("count", jcount crops);
                                 ("crops", jrows crops)])))
    (λ _, mkResponse 500 (fail_body "Failed to fetch crops")).

(** [router.get('/garden/:gardenId')] *)
Definition list_by_garden (rq : request) : db → response * db :=
  try_catch
    (g ← select_single Gardens (Cols ["id"])
           [Eq "id" (params rq !! "gardenId"); Eq "user_id" (req_user rq !! "id")];
     match err g, data g with
     | None, Some garden =>
         q ← select_all Crops Star [Eq "garden_id" (params rq !! "gardenId")]
               (Some "created_at") None;
         throw_if (err q);;
         let crops := default [] (data q) in
         mret (mkResponse 200 (JObj [("success", jtrue);
                                     ("count", jcount crops);
                                     ("crops", jrows crops)]))
     | _, _ => reply 404 (fail_body "Garden not found or access denied")
     end)
    (λ _, mkResponse 500 (fail_body "Failed to fetch garden crops")).

(** The embedded resource of [select('*, gardens (name, location)')]:
    the garden the crop points to, or null. *)
Definition embedded_garden (d : db) (crop : row) : json :=
  match filter (λ g, g !! "id" = crop !! "garden_id" ∧ is_Some (g !! "id"))
               (gardens d) with
  | g :: _ => row_json (project (Cols ["name"; "location"]) g)
  | [] => JVal VNull
  end.

Definition select_single_embedded (fs : list cond)
  : handler (result (row * json)) :=
  λ d, let q := single (query Crops Star fs d) in
       (Next (mkResult ((λ c, (c, embedded_garden d c)) <$> data q) (err q)), d).

(** [router.get('/:id')] *)
Definition get_one (rq : request) : db → response * db :=
  try_catch
    (q ← select_single_embedded
           [Eq "id" (params rq !! "id"); Eq "user_id" (req_user rq !! "id")];
     throw_if (err q);;
     match data q with
     | None => reply 404 (fail_body "Crop not found")
     | Some (crop, garden) =>
         mret (mkResponse 200
                 (JObj [("success", jtrue);
                        ("crop", JObj (row_fields crop ++ [("gardens", garden)]))]))
     end)
    (λ _, mkResponse 500 (fail_body "Failed to fetch crop")).

(** The object built by [router.post('/')]. *)
Definition cropData (e : env) (rq : request) : literal :=
  let b := req_body rq in
  [("garden_id", b !! "garden_id");
   ("user_id", req_user rq !! "id");
   ("name", b !! "name");
   ("category", b !! "category" ||| str "vegetable");
   ("variety", b !! "variety" ||| null);
   ("planting_date", b !! "planting_date" ||| null);
   ("expected_harvest", b !! "expected_harvest" ||| null);
   ("status", b !! "status" ||| str "seedling");
   ("progress", b !! "progress" ||| Some (VNum 0));
   ("notes", b !! "notes" ||| null);
   ("image_url", b !! "image_url" ||| null);
   ("is_shared", b !! "is_shared" ||| Some (VBool false));
   ("quantity", b !! "quantity" ||| Some (VNum 1));
   ("quantity_unit", b !! "quantity_unit" ||| null);
   ("created_at", str (now_iso e));
   ("updated_at", str (now_iso e))].

(** [router.post('/')] *)
Definition create (e : env) (rq : request) : db → response * db :=
  try_catch
    (let name := req_body rq !! "name" in
     let garden_id := req_body rq !! "garden_id" in
     reply_if (negb (truthy name) || negb (truthy garden_id)) 400
       (fail_body "Crop name and garden ID are required");;
     g ← select_single Gardens (Cols ["id"])
           [Eq "id" (garden_id); Eq "user_id" (req_user rq !! "id")];
     match err g, data g with
     | None, Some garden =>
         q ← insert_single (fresh_id e) Crops (cropData e rq);
         throw_if (err q);;
         mret (mkResponse 201 (JObj [("success", jtrue);
                                     ("message", jstr "Crop created successfully");
                                     ("crop", jdata (data q))]))
     | _, _ => reply 404 (fail_body "Garden not found or access denied")
     end)
    (λ _, mkResponse 500 (fail_body "Failed to create crop")).

(** The object built by [router.put('/:id')]. *)
Definition updateData (e : env) (b existingCrop : row) : literal :=
  [("name", b !! "name" ||| existingCrop !! "name");
   ("category", b !! "category" ||| existingCrop !! "category");
   ("variety", js_def (b !! "variety") (existingCrop !! "variety"));
   ("planting_date", js_def (b !! "planting_date") (existingCrop !! "planting_date"));
   ("expected_harvest",
     js_def (b !! "expected_harvest") (existingCrop !! "expected_harvest"));
   ("status", b !! "status" ||| existingCrop !! "status");
   ("progress", js_def (b !! "progress") (existingCrop !! "progress"));
   ("notes", js_def (b !! "notes") (existingCrop !! "notes"));
   ("image_url", js_def (b !! "image_url") (existingCrop !! "image_url"));
   ("is_shared", js_def (b !! "is_shared") (existingCrop !! "is_shared"));
   ("quantity", js_def (b !! "quantity") (existingCrop !! "quantity"));
   ("quantity_unit", js_def (b !! "quantity_unit") (existingCrop !! "quantity_unit"));
   ("updated_at", str (now_iso e))].

(** [router.put('/:id')] *)
Definition update (e : env) (rq : request) : db → response * db :=
  try_catch
    (q ← select_single Crops Star
           [Eq "id" (params rq !! "id"); Eq "user_id" (req_user rq !! "id")];
     match err q, data q with
     | None, Some existingCrop =>
         u ← update_single Crops (updateData e (req_body rq) existingCrop)
               [Eq "id" (params rq !! "id")] Star;
         throw_if (err u);;
         mret (mkResponse 200 (JObj [("success", jtrue);
                                     ("message", jstr "Crop updated successfully");
                                     ("crop", jdata (data u))]))
     | _, _ => reply 404 (fail_body "Crop not found or access denied")
     end)
    (λ _, mkResponse 500 (fail_body "Failed to update crop")).

(** [router.delete('/:id')] *)
Definition delete (rq : request) : db → response * db :=
  try_catch
    (q ← select_single Crops (Cols ["id"])
           [Eq "id" (params rq !! "id"); Eq "user_id" (req_user rq !! "id")];
     match err q, data q with
     | None, Some existingCrop =>
         x ← delete_where Crops [Eq "id" (params rq !! "id")];
         throw_if x;;
         mret (mkResponse 200 (JObj [("success", jtrue);
                                     ("message", jstr "Crop deleted successfully")]))
     | _, _ => reply 404 (fail_body "Crop not found or access denied")
     end)
    (λ _, mkResponse 500 (fail_body "Failed to delete crop")).

End Crops.

(** ** The password hashing library

    [bcrypt.hash] and [bcrypt.compare] are taken as they come; both
    reject an argument that is not a string. *)

Class Bcrypt := {
  bcrypt_hash : string → string → string;
  bcrypt_compare : string → string → bool
}.

Definition illegal_arguments : error :=
  mkError "Error" "Illegal arguments" "Error: Illegal arguments".

Definition type_error (msg : string) : error :=
  mkError "TypeError" msg ("TypeError: " ++ msg).

(** [await bcrypt.hash(password, salt)] *)
Definition hash_password `{Bcrypt} (password : jsval) (salt : string) : handler string :=
  match password with
  | Some (VStr p) => mret (bcrypt_hash p salt)
  | _ => throw illegal_arguments
  end.

(** [await bcrypt.compare(password, hash)] *)
Definition compare_password `{Bcrypt} (password h : jsval) : handler bool :=
  match password, h with
  | Some (VStr p), Some (VStr h) => mret (bcrypt_compare p h)
  | _, _ => throw illegal_arguments
  end.

(** ** The token library

    A token is a signed payload.  How the two are written into the
    string that travels in a header, and the keyed digest that signs the
    payload, are left to the library; [jwt_sign] and [jwt_verify] follow
    its steps around them: [sign] stamps the payload with [iat] and,
    for [expiresIn: '7d'], with [exp = iat + 604800]; [verify] parses,
    checks the signature and then the expiry. *)

Record jwt := mkJwt { payload : row; signature : string }.

Class TokenCodec := {
  hmac : string → row → string;
  jwt_encode : jwt → string;
  jwt_decode : string → option jwt
}.

Definition seven_days : Z := 7 * 24 * 60 * 60.

Definition JsonWebTokenError (msg : string) : error :=
  mkError "JsonWebTokenError" msg ("JsonWebTokenError: " ++ msg).

Definition TokenExpiredError : error :=
  mkError "TokenExpiredError" "jwt expired" "TokenExpiredError: jwt expired".

(** [jwt.sign(o, process.env.JWT_SECRET, { expiresIn: '7d' })] *)
Definition jwt_sign `{TokenCodec} (o : literal) (secret : option string)
    (now : Z) : handler string :=
  match secret with
  | None =>
      throw (mkError "Error" "secretOrPrivateKey must have a value"
               "Error: secretOrPrivateKey must have a value")
  | Some k =>
      let p := <["exp" := VNum (now + seven_days)]>
                 (<["iat" := VNum now]> (stringify o)) in
      mret (jwt_encode (mkJwt p (hmac k p)))
  end.

(** [jwt.verify(token, process.env.JWT_SECRET)] *)
Definition jwt_verify `{TokenCodec} (token : string) (secret : option string)
    (now : Z) : handler row :=
  match jwt_decode token with
  | None => throw (JsonWebTokenError "jwt malformed")
  | Some t =>
      match secret with
      | None => throw (JsonWebTokenError "secret or public key must be provided")
      | Some k =>
          if negb (String.eqb (signature t) (hmac k (payload t)))
          then throw (JsonWebTokenError "invalid signature")
          else match payload t !! "exp" with
               | None => mret (payload t)
               | Some (VNum exp) =>
                   if Z.leb exp now then throw TokenExpiredError
                   else mret (payload t)
               | Some _ => throw (JsonWebTokenError "invalid exp value")
               end
      end
  end.

(** [s.split(c)] *)
Fixpoint js_split (c : ascii) (s : string) : list string :=
  match s with
  | EmptyString => [""]
  | String a s' =>
      if Ascii.eqb a c then "" :: js_split c s'
      else match js_split c s' with
           | p :: ps => String a p :: ps
           | [] => [String a ""]
           end
  end.

(** [!s] on a string that may be [undefined]. *)
Definition blank (s : option string) : bool :=
  match s with
  | None => true
  | Some s => String.eqb s ""
  end.

(** ** routes/auth.js *)

Module Auth.
Section Routes.
Context `{Bcrypt} `{TokenCodec}.

(** The claims a token is issued for. *)
Definition claims (user : row) : literal :=
  [("id", user !! "id"); ("email", user !! "email"); ("name", user !! "name")].

(** [const { password_hash, ...userWithoutPassword } = user] *)
Definition userWithoutPassword (user : row) : row := delete "password_hash" user.

(** [user.id] on a row that may be null. *)
Definition non_null (o : option row) : handler row :=
  match o with
  | Some r => mret r
  | None => throw (type_error "Cannot read properties of null")
  end.

(** [router.post('/register')] *)
Definition register (e : env) (rq : request) : db → response * db :=
  try_catch
    (let email := req_body rq !! "email" in
     let password := req_body rq !! "password" in
     let name := req_body rq !! "name" in
     let phone := req_body rq !! "phone" in
     reply_if (negb (truthy email) || negb (truthy password) || negb (truthy name))
       400 (err_body "Email, password, and name are required");;
     x ← select_single Users Star [Eq "email" email];
     reply_if (bool_decide (is_Some (data x))) 400 (err_body "User already exists");;
     hashedPassword ← hash_password password (gen_salt e);
     q ← insert_single (fresh_id e) Users
           [("email", email);
            ("password_hash", str hashedPassword);
            ("name", name);
            ("phone", phone ||| null);
            ("created_at", str (now_iso e));
            ("updated_at", str (now_iso e))];
     reply_if (bool_decide (is_Some (err q))) 500 (err_body "Error creating user");;
     user ← non_null (data q);
     token ← jwt_sign (claims user) (JWT_SECRET e) (now_sec e);
     mret (mkResponse 201 (JObj [("message", jstr "User registered successfully");
                                 ("user", row_json (userWithoutPassword user));
                                 ("token", jstr token)])))
    (λ _, mkResponse 500 (err_body "Internal server error")).

(** [router.post('/login')] *)
Definition login (e : env) (rq : request) : db → response * db :=
  try_catch
    (let email := req_body rq !! "email" in
     let password := req_body rq !! "password" in
     reply_if (negb (truthy email) || negb (truthy password))
       400 (err_body "Email and password are required");;
     q ← select_single Users Star [Eq "email" email];
     match err q, data q with
     | None, Some user =>
         validPassword ← compare_password password (user !! "password_hash");
         reply_if (negb validPassword) 401 (err_body "Invalid credentials");;
         token ← jwt_sign (claims user) (JWT_SECRET e) (now_sec e);
         mret (mkResponse 200 (JObj [("message", jstr "Login successful");
                                     ("user", row_json (userWithoutPassword user));
                                     ("token", jstr token)]))
     | _, _ => reply 401 (err_body "Invalid credentials")
     end)
    (λ _, mkResponse 500 (err_body "Internal server error")).

(** The [catch] clause of [router.get('/me')]. *)
Definition me_catch (e : env) (error : error) : response :=
  if String.eqb (err_name error) "JsonWebTokenError" then
    mkResponse 401 (JObj [("success", JVal (VBool false));
                          ("error", jstr "Invalid token");
                          ("details", jstr (err_message error))])
  else if String.eqb (err_name error) "TokenExpiredError" then
    mkResponse 401 (JObj [("success", JVal (VBool false));
                          ("error", jstr "Token expired");
                          ("details", jstr "Please login again")])
  else
    mkResponse 500
      (JObj ([("success", JVal (VBool false));
              ("error", jstr "Internal server error");
              ("message", jstr (err_message error))]
             ++ opt_field "stack"
                  (if bool_decide (NODE_ENV e = Some "development")
                   then str (err_stack error) else None))).

(** [router.get('/me')] *)
Definition me (e : env) (rq : request) : db → response * db :=
  try_catch
    (let authHeader := authorization rq in
     reply_if (blank authHeader) 401 (fail_body "Authorization header is required");;
     let authHeader := default "" authHeader in
     reply_if (negb (String.prefix "Bearer " authHeader)) 401
       (fail_body "Invalid authorization format. Use: Bearer <token>");;
     let token := js_split " " authHeader !! 1%nat in
     reply_if (blank token) 401 (fail_body "Token is required");;
     decoded ← jwt_verify (default "" token) (JWT_SECRET e) (now_sec e);
     q ← select_single Users
           (Cols ["id"; "email"; "name"; "phone"; "created_at"; "updated_at"])
           [Eq "id" (decoded !! "id")];
     reply_if (bool_decide (is_Some (err q))) 404
       (fail_body "User not found in database");;
     match data q with
     | None => reply 404 (fail_body "User not found")
     | Some user =>
         mret (mkResponse 200 (JObj [("success", jtrue); ("user", row_json user)]))
     end)
    (me_catch e).

(** [router.get('/me')] as the second copy of this router has it
    (unnamed/part_000; its register, login and logout are the ones
    above). *)
Definition me_earlier (e : env) (rq : request) : db → response * db :=
  try_catch
    (let token := authHeader ← authorization rq; js_split " " authHeader !! 1%nat in
     reply_if (blank token) 401 (err_body "Token required");;
     decoded ← jwt_verify (default "" token) (JWT_SECRET e) (now_sec e);
     q ← select_single Users
           (Cols ["id"; "email"; "name"; "phone"; "created_at"; "updated_at"])
           [Eq "id" (decoded !! "id")];
     match err q, data q with
     | None, Some user => mret (mkResponse 200 (JObj [("user", row_json user)]))
     | _, _ => reply 404 (err_body "User not found")
     end)
    (λ _, mkResponse 500 (err_body "Internal server error")).

(** [router.post('/logout')] *)
Definition logout : db → response * db :=
  λ d, (mkResponse 200 (JObj [("message", jstr "Logged out successfully")]), d).

End Routes.
End Auth.

(** ** The profile router *)

Module Profile.

Definition profile_columns : columns :=
  Cols ["id"; "email"; "name"; "phone"; "created_at"; "profile_image_url";
        "bio"; "location"; "garden_name"; "garden_size"].

(** [sum + (crop.progress || 0)] over the rows; progress is a numeric
    column, and a row holding a string there leaves the sum without a
    numeric value. *)
Definition progress_term (crop : row) : option Z :=
  match crop !! "progress" ||| Some (VNum 0) with
  | Some (VNum n) => Some n
  | Some (VBool true) => Some 1
  | _ => None
  end.

Definition progress_sum (crops : list row) : option Z :=
  foldl (λ sum crop, s ← sum; p ← progress_term crop; Some (s + p)) (Some 0) crops.

(** [Math.round(a / b)] for [b > 0]. *)
Definition round_div (a b : Z) : Z := (2 * a + b) `div` (2 * b).

Definition avgProgress (crops : list row) : value :=
  match crops with
  | [] => VNum 0
  | _ => match progress_sum crops with
         | Some s => VNum (round_div s (Z.of_nat (length crops)))
         | None => VNull
         end
  end.

Definition stats (crops : list row) : json :=
  JObj [("totalCrops", jcount crops);
        ("activeCrops",
          jcount (filter (λ crop, crop !! "status" ≠ Some (VStr "harvest")) crops));
        ("sharedCrops",
          jcount (filter (λ crop, truthy (crop !! "is_shared") = true) crops));
        ("avgProgress", JVal (avgProgress crops))].

Definition sharing_history (uid : jsval) : handler (result (list row)) :=
  select_all Crops (Cols ["id"; "name"; "image_url"; "created_at"])
    [Eq "user_id" uid; Eq "is_shared" (Some (VBool true))]
    (Some "created_at") (Some 5%nat).

(** [router.get('/:userId')] *)
Definition get_by_id (rq : request) : db → response * db :=
  try_catch
    (let userId := params rq !! "userId" in
     u ← select_single Users profile_columns [Eq "id" userId];
     match err u, data u with
     | None, Some user =>
         c ← select_all Crops (Cols ["id"; "name"; "status"; "progress"; "is_shared"])
               [Eq "user_id" userId] None None;
         let crops := default [] (data c) in
         h ← sharing_history userId;
         mret (mkResponse 200
                 (JObj [("success", jtrue);
                        ("profile",
                          JObj (row_fields user ++
                                [("stats", stats crops);
                                 ("sharingHistory", jrows (default [] (data h)))]))]))
     | _, _ => reply 404 (fail_body "User not found")
     end)
    (λ _, mkResponse 500 (fail_body "Failed to fetch profile")).

(** [Math.floor(Math.random() * n) + k], the draw taken from the
    environment. *)
Definition mock (e : env) (i : nat) (k : Z) : json :=
  JVal (VNum (default 0 (random e !! i) + k)).

(** [router.get('/')] *)
Definition get_own (e : env) (rq : request) : db → response * db :=
  try_catch
    (u ← select_single Users profile_columns [Eq "id" (req_user rq !! "id")];
     match err u, data u with
     | None, Some user =>
         g ← select_all Gardens (Cols ["id"; "name"; "type"; "size"; "location"])
               [Eq "user_id" (req_user rq !! "id")] (Some "created_at") None;
         c ← select_all Crops
               (Cols ["id"; "name"; "category"; "status"; "progress"; "image_url"])
               [Eq "user_id" (req_user rq !! "id");
                Neq "status" (str "harvest")]
               (Some "created_at") (Some 5%nat);
         h ← sharing_history (req_user rq !! "id");
         mret (mkResponse 200
                 (JObj [("success", jtrue);
                        ("profile",
                          JObj (row_fields user ++
                                [("impact", JObj [("sharedKg", mock e 0 5);
                                                  ("helpedCount", mock e 1 1);
                                                  ("savedCO2", mock e 2 5)]);
                                 ("gardens", jrows (default [] (data g)));
                                 ("activeCrops", jrows (default [] (data c)));
                                 ("sharingHistory", jrows (default [] (data h)))]))]))
     | _, _ => reply 404 (fail_body "User not found")
     end)
    (λ _, mkResponse 500 (fail_body "Failed to fetch profile")).

(** The object built by [router.put('/')]: a key is set only under its
    [if]. *)
Definition updateData (e : env) (b : row) : literal :=
  [("updated_at", str (now_iso e));
   ("name", if truthy (b !! "name") then b !! "name" else None);
   ("bio", b !! "bio");
   ("location", b !! "location");
   ("garden_name", b !! "garden_name");
   ("garden_size", b !! "garden_size")].

(** [router.put('/')] *)
Definition update (e : env) (rq : request) : db → response * db :=
  try_catch
    (q ← update_single Users (updateData e (req_body rq))
           [Eq "id" (req_user rq !! "id")] profile_columns;
     reply_if (bool_decide (is_Some (err q))) 500
       (fail_body "Failed to update profile");;
     mret (mkResponse 200 (JObj [("success", jtrue);
                                 ("message", jstr "Profile updated successfully");
                                 ("user", jdata (data q))])))
    (λ _, mkResponse 500 (fail_body "Failed to update profile")).

(** [router.post('/upload-image')]; the file has reached the media
    store before the handler runs. *)
Definition upload_image (e : env) (rq : request) : db → response * db :=
  try_catch
    (reply_if (bool_decide (file_path rq = None)) 400
       (fail_body "No image file provided");;
     let imageUrl := default "" (file_path rq) in
     q ← update_single Users
           [("profile_image_url", str imageUrl); ("updated_at", str (now_iso e))]
           [Eq "id" (req_user rq !! "id")]
           (Cols ["id"; "email"; "name"; "profile_image_url"]);
     reply_if (bool_decide (is_Some (err q))) 500
       (fail_body "Failed to update profile image");;
     mret (mkResponse 200 (JObj [("success", jtrue);
                                 ("message", jstr "Profile image uploaded successfully");
                                 ("imageUrl", jstr imageUrl);
                                 ("user", jdata (data q))])))
    (λ _, mkResponse 500 (fail_body "Failed to upload image")).

(** [router.delete('/image')]; the call to the media store sits in a
    [try] of its own and leaves the tables alone. *)
Definition delete_image (e : env) (rq : request) : db → response * db :=
  try_catch
    (_ ← select_single Users (Cols ["profile_image_url"])
           [Eq "id" (req_user rq !! "id")];
     q ← update_single Users
           [("profile_image_url", null); ("updated_at", str (now_iso e))]
           [Eq "id" (req_user rq !! "id")]
           (Cols ["id"; "email"; "name"; "profile_image_url"]);
     reply_if (bool_decide (is_Some (err q))) 500
       (fail_body "Failed to remove profile image");;
     mret (mkResponse 200 (JObj [("success", jtrue);
                                 ("message", jstr "Profile image removed successfully");
                                 ("user", jdata (data q))])))
    (λ _, mkResponse 500 (fail_body "Failed to remove image")).

End Profile.

(** ** Notions the properties are stated with *)

#[global] Instance db_eq_dec : EqDecision db.
Proof. solve_decision. Defined.

(** What the rows of a table hold in column [k]. *)
Definition column (k : string) (rs : list row) : list jsval := (.!! k) <$> rs.

(** The values that [!x] and [x || y] take for false: [undefined],
    null, false, 0 and the empty string. *)
Definition falsy (x : jsval) : Prop :=
  x = None ∨ x = Some VNull ∨ x = Some (VBool false)
  ∨ x = Some (VNum 0) ∨ x = Some (VStr "").

#[global] Instance falsy_dec (x : jsval) : Decision (falsy x).
Proof. unfold falsy. apply _. Defined.

(** The two filter chains of the single-resource handlers. *)
Definition by_id (rq : request) : list cond := [Eq "id" (params rq !! "id")].

Definition by_id_and_owner (rq : request) : list cond :=
  [Eq "id" (params rq !! "id"); Eq "user_id" (req_user rq !! "id")].

(** [r] is the row of table [t] the request names, and it belongs to
    the requester. *)
Definition mine (t : table) (rq : request) (d : db) (r : row) : Prop :=
  selected (by_id rq) (rows_of t d) = [r]
  ∧ matches [Eq "user_id" (req_user rq !! "id")] r = true.

(** [r] is the row of table [t] the request names, and it belongs to
    somebody else. *)
Definition not_mine (t : table) (rq : request) (d : db) (r : row) : Prop :=
  selected (by_id rq) (rows_of t d) = [r]
  ∧ matches [Eq "user_id" (req_user rq !! "id")] r = false.

(** The garden named in the body of a crop creation is the requester's. *)
Definition garden_is_mine (rq : request) (d : db) : Prop :=
  ∃ g, selected [Eq "id" (req_body rq !! "garden_id");
                 Eq "user_id" (req_user rq !! "id")] (gardens d) = [g].

(** The optional fields of a new crop and what [cropData] falls back
    to. *)
Definition crop_defaults : list (string * value) :=
  [("category", VStr "vegetable"); ("variety", VNull);
   ("planting_date", VNull); ("expected_harvest", VNull);
   ("status", VStr "seedling"); ("progress", VNum 0); ("notes", VNull);
   ("image_url", VNull); ("is_shared", VBool false); ("quantity", VNum 1);
   ("quantity_unit", VNull)].

(** The rows the two creations store. *)
Definition created_crop (e : env) (rq : request) : row :=
  <["id" := fresh_id e]> (stringify (Crops.cropData e rq)).

Definition created_garden (e : env) (rq : request) : row :=
  <["id" := fresh_id e]>
    (stringify
       [("user_id", req_user rq !! "id");
        ("name", req_body rq !! "name");
        ("location", req_body rq !! "location" ||| null);
        ("type", req_body rq !! "type" ||| str "outdoor");
        ("size", req_body rq !! "size" ||| str "medium");
        ("description", req_body rq !! "description" ||| null);
        ("created_at", str (now_iso e));
        ("updated_at", str (now_iso e))]).

(** The two kinds of resource with single-row handlers. *)
Inductive resource := Garden | Crop.

Definition table_of (x : resource) : table :=
  match x with Garden => Gardens | Crop => Crops end.

Definition get_one (x : resource) : request → db → response * db :=
  match x with Garden => Gardens.get_one | Crop => Crops.get_one end.

Definition put (x : resource) : env → request → db → response * db :=
  match x with Garden => Gardens.update | Crop => Crops.update end.

Definition del (x : resource) : request → db → response * db :=
  match x with Garden => Gardens.delete | Crop => Crops.delete end.

(** The fields an update merges with [||] and with [!== undefined]. *)
Definition or_fields (x : resource) : list string :=
  match x with
  | Garden => ["name"; "type"; "size"]
  | Crop => ["name"; "category"; "status"]
  end.

Definition def_fields (x : resource) : list string :=
  match x with
  | Garden => ["location"; "description"]
  | Crop => ["variety"; "planting_date"; "expected_harvest"; "progress";
             "notes"; "image_url"; "is_shared"; "quantity"; "quantity_unit"]
  end.

(** The object an update hands to the store, given the row it found. *)
Definition update_object (x : resource) (e : env) (rq : request) (r : row) : row :=
  match x with
  | Garden =>
      stringify (Gardens.updateData e (req_body rq) (project (Cols ["id"]) r))
  | Crop => stringify (Crops.updateData e (req_body rq) r)
  end.

(** The progress of a stored crop is an integer from 0 to 100. *)
Definition in_range (x : jsval) : Prop :=
  ∃ n, x = Some (VNum n) ∧ (0 ≤ n ≤ 100)%Z.

Definition progress_in_range (r : row) : Prop := in_range (r !! "progress").

(** The two handlers that write crop rows. *)
Inductive write := Create | Update.

Definition crop_write (w : write) : env → request → db → response * db :=
  match w with Create => Crops.create | Update => Crops.update end.

(** The status of a crop write that went through. *)
Definition written_status (w : write) : Z :=
  match w with Create => 201 | Update => 200 end.

(** A crop points to a garden of its own user. *)
Definition well_owned (d : db) (c : row) : Prop :=
  ∃ g gid uid,
    g ∈ gardens d
    ∧ c !! "garden_id" = Some gid ∧ g !! "id" = Some gid
    ∧ c !! "user_id" = Some uid ∧ g !! "user_id" = Some uid.

Definition crops_match_gardens (d : db) : Prop :=
  ∀ c, c ∈ crops d → well_owned d c.

(** Create and update requests, on gardens and on crops. *)
Inductive op :=
  | CreateGarden (e : env) (rq : request)
  | UpdateGarden (e : env) (rq : request)
  | CreateCrop (e : env) (rq : request)
  | UpdateCrop (e : env) (rq : request).

Definition run_op (o : op) (d : db) : db :=
  match o with
  | CreateGarden e rq => (Gardens.create e rq d).2
  | UpdateGarden e rq => (Gardens.update e rq d).2
  | CreateCrop e rq => (Crops.create e rq d).2
  | UpdateCrop e rq => (Crops.update e rq d).2
  end.

Definition run_ops (os : list op) (d : db) : db :=
  foldl (λ d o, run_op o d) d os.

(** ** Notions for the auth router *)

#[global] Instance jwt_eq_dec : EqDecision jwt.
Proof. solve_decision. Defined.

Section AuthNotions.
Context `{Bcrypt} `{TokenCodec}.

(** Two ways a login fails to authenticate: no user row has the e-mail,
    or one has and [bcrypt.compare] refuses the password, a string,
    against its hash, a string. *)
Inductive login_failure (rq : request) (d : db) : Prop :=
  | Unknown_email :
      truthy (req_body rq !! "email") = true →
      truthy (req_body rq !! "password") = true →
      selected [Eq "email" (req_body rq !! "email")] (users d) = [] →
      login_failure rq d
  | Wrong_password (u : row) (p h : string) :
      truthy (req_body rq !! "email") = true →
      req_body rq !! "password" = Some (VStr p) → p ≠ "" →
      selected [Eq "email" (req_body rq !! "email")] (users d) = [u] →
      u !! "password_hash" = Some (VStr h) →
      bcrypt_compare p h = false →
      login_failure rq d.

(** A login that authenticates [u]. *)
Definition login_success (e : env) (rq : request) (d : db) (u : row)
    (k : string) : Prop :=
  truthy (req_body rq !! "email") = true
  ∧ selected [Eq "email" (req_body rq !! "email")] (users d) = [u]
  ∧ (∃ p h, req_body rq !! "password" = Some (VStr p) ∧ p ≠ ""
            ∧ u !! "password_hash" = Some (VStr h)
            ∧ bcrypt_compare p h = true)
  ∧ JWT_SECRET e = Some k.

(** The token [jwt.sign] makes for [u] at the time of [e]. *)
Definition issued (e : env) (u : row) (k : string) : jwt :=
  let p := <["exp" := VNum (now_sec e + seven_days)]>
             (<["iat" := VNum (now_sec e)]> (stringify (Auth.claims u))) in
  mkJwt p (hmac k p).

(** The request carries [tok] as its bearer token. *)
Definition presents (rq : request) (tok : string) : Prop :=
  ∃ h, authorization rq = Some h
       ∧ String.prefix "Bearer " h = true
       ∧ js_split " " h !! 1%nat = Some tok
       ∧ tok ≠ "".

(** The token of the request parses to [t] and the secret is [k]. *)
Definition parses (e : env) (rq : request) (t : jwt) (k : string) : Prop :=
  ∃ tok, presents rq tok ∧ jwt_decode tok = Some t ∧ JWT_SECRET e = Some k.

(** The signature of [t] is good under [k] and [t] has not expired. *)
Definition verifies (e : env) (t : jwt) (k : string) : Prop :=
  signature t = hmac k (payload t)
  ∧ (payload t !! "exp" = None
     ∨ ∃ exp, payload t !! "exp" = Some (VNum exp) ∧ (now_sec e < exp)%Z).

(** The ways [/me] turns a request down. *)
Inductive me_refusal :=
  | No_header | Bad_scheme | No_token | Bad_signature | Expired | No_user.

Definition me_case (o : me_refusal) (e : env) (rq : request) (d : db) : Prop :=
  match o with
  | No_header => authorization rq = None
  | Bad_scheme =>
      ∃ h, authorization rq = Some h ∧ h ≠ ""
           ∧ String.prefix "Bearer " h = false
  | No_token =>
      ∃ h, authorization rq = Some h
           ∧ String.prefix "Bearer " h = true
           ∧ blank (js_split " " h !! 1%nat) = true
  | Bad_signature =>
      ∃ t k, parses e rq t k ∧ signature t ≠ hmac k (payload t)
  | Expired =>
      ∃ t k exp, parses e rq t k ∧ signature t = hmac k (payload t)
                 ∧ payload t !! "exp" = Some (VNum exp)
                 ∧ (exp ≤ now_sec e)%Z
  | No_user =>
      ∃ t k, parses e rq t k ∧ verifies e t k
             ∧ selected [Eq "id" (payload t !! "id")] (users d) = []
  end.

Definition me_answer (o : me_refusal) : response :=
  match o with
  | No_header => mkResponse 401 (fail_body "Authorization header is required")
  | Bad_scheme =>
      mkResponse 401
        (fail_body "Invalid authorization format. Use: Bearer <token>")
  | No_token => mkResponse 401 (fail_body "Token is required")
  | Bad_signature =>
      mkResponse 401 (JObj [("success", JVal (VBool false));
                            ("error", jstr "Invalid token");
                            ("details", jstr "invalid signature")])
  | Expired =>
      mkResponse 401 (JObj [("success", JVal (VBool false));
                            ("error", jstr "Token expired");
                            ("details", jstr "Please login again")])
  | No_user => mkResponse 404 (fail_body "User not found in database")
  end.

(** What [/me] does once the header has given up its token. *)
Definition me_with_token (e : env) (tok : string) : db → response * db :=
  try_catch
    (decoded ← jwt_verify tok (JWT_SECRET e) (now_sec e);
     q ← select_single Users
           (Cols ["id"; "email"; "name"; "phone"; "created_at"; "updated_at"])
           [Eq "id" (decoded !! "id")];
     reply_if (bool_decide (is_Some (err q))) 404
       (fail_body "User not found in database");;
     match data q with
     | None => reply 404 (fail_body "User not found")
     | Some user =>
         mret (mkResponse 200 (JObj [("success", jtrue); ("user", row_json user)]))
     end)
    (Auth.me_catch e).

End AuthNotions.

(** A string without a blank in it. *)
Fixpoint spaceless (s : string) : bool :=
  match s with
  | EmptyString => true
  | String a s' => negb (Ascii.eqb a " ") && spaceless s'
  end.

(** ** The endpoints that handle user rows *)

Inductive endpoint :=
  | Register | Login | Me | Me_earlier | Logout
  | Profile_by_id | Profile_own | Profile_update | Upload_image | Delete_image.

Definition serve `{Bcrypt} `{TokenCodec} (ep : endpoint) (e : env) (rq : request)
  : db → response * db :=
  match ep with
  | Register => Auth.register e rq
  | Login => Auth.login e rq
  | Me => Auth.me e rq
  | Me_earlier => Auth.me_earlier e rq
  | Logout => Auth.logout
  | Profile_by_id => Profile.get_by_id rq
  | Profile_own => Profile.get_own e rq
  | Profile_update => Profile.update e rq
  | Upload_image => Profile.upload_image e rq
  | Delete_image => Profile.delete_image e rq
  end.

(** Whatever the store holds, a computation answers only with
    responses in [P] and goes on only with values in [Q]. *)
Definition responds {A} (P : response → Prop) (m : handler A) (Q : A → Prop)
  : Prop :=
  ∀ d, match (m d).1 with
       | Next a => Q a
       | Reply r => P r
       | Raise _ => True
       end.

(** The row, if there is one, has no column [k]. *)
Definition lacks (k : string) (o : option row) : Prop :=
  ∀ r, o = Some r → r !! k = None.

Definition all_lack (k : string) (o : option (list row)) : Prop :=
  ∀ rs, o = Some rs → Forall (λ r, r !! k = None) rs.

(** A response that does not carry the password hash. *)
Definition discreet (r : response) : Prop :=
  mentions "password_hash" (body r) = false.

(** ** Stores that differ only in the hashes *)

(** Two rows that differ at most in the [password_hash] column. *)
Definition like (r1 r2 : row) : Prop :=
  Auth.userWithoutPassword r1 = Auth.userWithoutPassword r2.

(** The store with the [password_hash] column taken out of the users:
    two stores with the same [hashless] differ only in the hashes. *)
Definition hashless (d : db) : db :=
  mkDb (Auth.userWithoutPassword <$> users d) (gardens d) (crops d).

(** What [bcrypt.compare] makes of the password of a login against the
    hash of each user the e-mail selects: the one use the login handler
    has for a stored hash. *)
Definition verdict `{Bcrypt} (rq : request) (d : db) : list (step bool) :=
  (λ u, (compare_password (req_body rq !! "password")
           (u !! "password_hash") d).1)
    <$> selected [Eq "email" (req_body rq !! "email")] (users d).

(** The column a filter looks at. *)
Definition cond_key (f : cond) : string :=
  match f with Eq k _ | Neq k _ => k end.

(** A computation that, on two stores that differ only in the hashes,
    ends in the same way and leaves two such stores. *)
Definition steady {A} (m : handler A) : Prop :=
  ∀ d1 d2, hashless d1 = hashless d2 →
    (m d1).1 = (m d2).1 ∧ hashless (m d1).2 = hashless (m d2).2.

(** ** A small store to run the handlers on *)

Module Sample.

Definition stamp : string := "2024-01-01T00:00:00.000Z".

Definition alice : row :=
  list_to_map [("id", VNum 1); ("email", VStr "alice@example.com");
               ("password_hash", VStr "pepper-tomato");
               ("name", VStr "Alice"); ("phone", VNull);
               ("created_at", VStr stamp); ("updated_at", VStr stamp)].

Definition garden_a : row :=
  list_to_map [("id", VNum 10); ("user_id", VNum 1); ("name", VStr "Plot A");
               ("location", VNull); ("type", VStr "outdoor");
               ("size", VStr "medium"); ("description", VNull);
               ("created_at", VStr stamp); ("updated_at", VStr stamp)].

Definition garden_b : row :=
  list_to_map [("id", VNum 20); ("user_id", VNum 2); ("name", VStr "Plot B");
               ("location", VNull); ("type", VStr "indoor");
               ("size", VStr "small"); ("description", VNull);
               ("created_at", VStr stamp); ("updated_at", VStr stamp)].

Definition crop_a : row :=
  list_to_map [("id", VNum 100); ("garden_id", VNum 10); ("user_id", VNum 1);
               ("name", VStr "Tomato"); ("category", VStr "vegetable");
               ("variety", VNull); ("planting_date", VNull);
               ("expected_harvest", VNull); ("status", VStr "growing");
               ("progress", VNum 50); ("notes", VNull); ("image_url", VNull);
               ("is_shared", VBool false); ("quantity", VNum 3);
               ("quantity_unit", VNull);
               ("created_at", VStr stamp); ("updated_at", VStr stamp)].

Definition store : db := mkDb [alice] [garden_a; garden_b] [crop_a].

Definition clock : env :=
  mkEnv "2025-06-01T12:00:00.000Z" 1748779200 (VNum 101) "pepper-"
    (Some "k3y") None [3; 4; 5].

(** Eight days later. *)
Definition later : env :=
  mkEnv "2025-06-09T12:00:00.000Z" (1748779200 + 8 * 86400) (VNum 102) "pepper-"
    (Some "k3y") None [3; 4; 5].

Definition as_user (uid : Z) (ps b : list (string * value)) : request :=
  mkRequest None (list_to_map ps) (list_to_map b)
    (list_to_map [("id", VNum uid)]) None.

(** Bob asks for Alice's garden and for Alice's crop. *)
Definition bob_garden_a : request := as_user 2 [("id", VNum 10)] [].
Definition bob_crop_a : request := as_user 2 [("id", VNum 100)] [].

(** Alice sets the progress of her crop to 0, to 150, and adds a crop
    with a progress of 150 and one with falsy optional fields. *)
Definition alice_progress_0 : request :=
  as_user 1 [("id", VNum 100)] [("progress", VNum 0)].

Definition alice_progress_150 : request :=
  as_user 1 [("id", VNum 100)] [("progress", VNum 150)].

Definition alice_progress_70 : request :=
  as_user 1 [("id", VNum 100)] [("progress", VNum 70)].

Definition alice_new_crop_150 : request :=
  as_user 1 [] [("garden_id", VNum 10); ("name", VStr "Basil");
                ("progress", VNum 150)].

Definition alice_new_crop_falsy : request :=
  as_user 1 [] [("garden_id", VNum 10); ("name", VStr "Basil");
                ("quantity", VNum 0); ("progress", VNum 0);
                ("category", VStr ""); ("status", VStr "");
                ("is_shared", VBool false)].

(** Alice renames her garden. *)
Definition alice_renames_garden : request :=
  as_user 1 [("id", VNum 10)] [("name", VStr "Kitchen plot")].

(** A hashing library that prepends the salt and compares the tail. *)
Definition tail_matches (p h : string) : bool :=
  String.eqb (String.substring (String.length h - String.length p)
                (String.length p) h) p.

Definition bcrypt : Bcrypt :=
  {| bcrypt_hash := λ p salt, String.append salt p;
     bcrypt_compare := tail_matches |}.

(** A token library that knows one token. *)
Definition codec (t0 : jwt) : TokenCodec :=
  {| hmac := λ k _, k;
     jwt_encode := λ t, String.append "h.p." (signature t);
     jwt_decode := λ s, if String.eqb s (String.append "h.p." (signature t0))
                        then Some t0 else None |}.

(** The token Alice gets at [clock]. *)
Definition alice_token : jwt :=
  mkJwt (list_to_map [("id", VNum 1); ("email", VStr "alice@example.com");
                      ("name", VStr "Alice"); ("iat", VNum 1748779200);
                      ("exp", VNum (1748779200 + 604800))])
        "k3y".

Definition alice_codec : TokenCodec := codec alice_token.

Definition login_alice : request :=
  mkRequest None ∅
    (list_to_map [("email", VStr "alice@example.com");
                  ("password", VStr "tomato")]) ∅ None.

Definition login_alice_wrong : request :=
  mkRequest None ∅
    (list_to_map [("email", VStr "alice@example.com");
                  ("password", VStr "potato")]) ∅ None.

Definition login_nobody : request :=
  mkRequest None ∅
    (list_to_map [("email", VStr "carol@example.com");
                  ("password", VStr "potato")]) ∅ None.

Definition me_alice : request :=
  mkRequest (Some "Bearer h.p.k3y") ∅ ∅ ∅ None.

(** Alice and nobody log in with the number 123 for a password. *)
Definition login_alice_123 : request :=
  mkRequest None ∅
    (list_to_map [("email", VStr "alice@example.com");
                  ("password", VNum 123)]) ∅ None.

Definition login_nobody_123 : request :=
  mkRequest None ∅
    (list_to_map [("email", VStr "carol@example.com");
                  ("password", VNum 123)]) ∅ None.

(** The store with Alice's password hashed under another salt. *)
Definition alice_rehashed : row :=
  <["password_hash" := VStr "salt-tomato"]> alice.

Definition store_rehashed : db :=
  mkDb [alice_rehashed] [garden_a; garden_b] [crop_a].

End Sample.

(** ** The account handlers of the profile router *)

Module Account.

(** [url.split('/').pop().split('.')[0]] *)
Definition publicId (url : string) : string :=
  default "" (head (js_split "." (default "" (last (js_split "/" url))))).

(** What the handler asks the media store to destroy, given the row it
    fetched: nothing when the row or its image URL is missing or falsy;
    a URL that is not a string makes [split] throw inside the inner
    [try], which swallows it. *)
Definition destroy_target (user : option row) : option string :=
  match user ≫= (.!! "profile_image_url") with
  | Some (VStr url) =>
      if String.eqb url "" then None
      else Some ("harvest-hub/profiles/" ++ publicId url)
  | _ => None
  end.

(** The media call of [router.delete('/image')] and [router.delete('/')]. *)
Definition media_call (rq : request) (d : db) : option string :=
  destroy_target
    (data (single (query Users (Cols ["profile_image_url"])
                     [Eq "id" (req_user rq !! "id")] d))).

(** [router.delete('/')].  The handler issues one delete, on [users]; the
    removal of the user's gardens and crops that its comment mentions is
    done by the database schema, which is not part of the sources, so the
    other two tables are left as they are here and nothing is stated about
    them after a deletion. *)
Definition delete_account (rq : request) : db → response * db :=
  try_catch
    (_ ← select_single Users (Cols ["profile_image_url"])
           [Eq "id" (req_user rq !! "id")];
     x ← delete_where Users [Eq "id" (req_user rq !! "id")];
     reply_if (bool_decide (is_Some x)) 500 (fail_body "Failed to delete account");;
     mret (mkResponse 200 (JObj [("success", jtrue);
                                 ("message", jstr "Account deleted successfully")])))
    (λ _, mkResponse 500 (fail_body "Failed to delete account")).

End Account.

(** ** Further notions *)

(** The row a registration stores. *)
Definition registered `{Bcrypt} (e : env) (rq : request) (p : string) : row :=
  <["id" := fresh_id e]>
    (stringify
       [("email", req_body rq !! "email");
        ("password_hash", str (bcrypt_hash p (gen_salt e)));
        ("name", req_body rq !! "name");
        ("phone", req_body rq !! "phone" ||| null);
        ("created_at", str (now_iso e));
        ("updated_at", str (now_iso e))]).


(** The optional fields of a new garden and what [gardenData] falls
    back to. *)
Definition garden_defaults : list (string * value) :=
  [("location", VNull); ("type", VStr "outdoor"); ("size", VStr "medium");
   ("description", VNull)].

(** The list handlers of the two resources. *)
Definition list_all (x : resource) : request → db → response * db :=
  match x with Garden => Gardens.list_all | Crop => Crops.list_all end.

(** Neighbours in the list are in descending order of column [k]:
    none is smaller than the next. *)
Definition descending (k : string) (rs : list row) : Prop :=
  Sorted (λ x y, value_lt (x !! k) (y !! k) = false) rs.

(** Rows of a table that share an identifier share their owner. *)
Definition one_owner_per_id (rs : list row) : Prop :=
  ∀ y1 y2, y1 ∈ rs → y2 ∈ rs →
    is_Some (y1 !! "id") → y1 !! "id" = y2 !! "id" →
    y1 !! "user_id" = y2 !! "user_id".

(** The handlers that only read. *)
Inductive reader :=
  | Read_gardens | Read_garden | Read_crops | Read_crops_of_garden | Read_crop
  | Read_login | Read_me | Read_me_earlier | Read_logout
  | Read_profile | Read_own_profile.

Definition read `{Bcrypt} `{TokenCodec} (h : reader) (e : env) (rq : request)
  : db → response * db :=
  match h with
  | Read_gardens => Gardens.list_all rq
  | Read_garden => Gardens.get_one rq
  | Read_crops => Crops.list_all rq
  | Read_crops_of_garden => Crops.list_by_garden rq
  | Read_crop => Crops.get_one rq
  | Read_login => Auth.login e rq
  | Read_me => Auth.me e rq
  | Read_me_earlier => Auth.me_earlier e rq
  | Read_logout => Auth.logout
  | Read_profile => Profile.get_by_id rq
  | Read_own_profile => Profile.get_own e rq
  end.

(** A computation that leaves the store as it found it. *)
Definition idle {A} (m : handler A) : Prop := ∀ d, (m d).2 = d.

(** The columns a profile update may write. *)
Definition profile_fields : list string :=
  ["updated_at"; "name"; "bio"; "location"; "garden_name"; "garden_size"].

(** Progress values the average is taken over: absent, null or an
    integer from 0 to 100. *)
Definition progress_ok (r : row) : Prop :=
  r !! "progress" = None ∨ r !! "progress" = Some VNull
  ∨ in_range (r !! "progress").

(** A string without the character [c]. *)
Fixpoint free_of (c : ascii) (s : string) : bool :=
  match s with
  | EmptyString => true
  | String a s' => negb (Ascii.eqb a c) && free_of c s'
  end.

(** ** More requests on the sample store *)

Module More.

(** A day after [Sample.clock]. *)
Definition soon : env :=
  mkEnv "2025-06-02T12:00:00.000Z" (1748779200 + 86400) (VNum 103) "pepper-"
    (Some "k3y") None [3; 4; 5].

Definition alice_new_garden : request :=
  Sample.as_user 1 [] [("name", VStr "Herbs")].

Definition alice_new_crop : request :=
  Sample.as_user 1 [] [("garden_id", VNum 10); ("name", VStr "Basil")].

Definition alice_fetches_101 : request := Sample.as_user 1 [("id", VNum 101)] [].

Definition alice_lists_garden_a : request :=
  Sample.as_user 1 [("gardenId", VNum 10)] [].

Definition alice_edits_profile : request :=
  Sample.as_user 1 [] [("bio", VStr ""); ("name", VStr "")].

Definition register_alice_again : request :=
  mkRequest None ∅
    (list_to_map [("email", VStr "alice@example.com");
                  ("password", VStr "x"); ("name", VStr "A")]) ∅ None.



Definition me_basic_garbage : request :=
  mkRequest (Some "Basic garbage") ∅ ∅ ∅ None.

Definition image_base : string :=
  "https://res.cloudinary.com/demo/image/upload/v1/harvest-hub/profiles".

Definition alice_uploads : request :=
  mkRequest None ∅ ∅ (list_to_map [("id", VNum 1)])
    (Some (image_base ++ "/abc123.jpg")).

Definition alice_with_image : row :=
  <["profile_image_url" := VStr (image_base ++ "/abc123.jpg")]> Sample.alice.

Definition store_with_image : db := mkDb [alice_with_image] [] [].

(** Alice adds a garden with falsy optional fields, and one with an
    empty name. *)
Definition alice_new_garden_falsy : request :=
  Sample.as_user 1 [] [("name", VStr "Herbs"); ("type", VStr "");
                       ("size", VNull); ("description", VBool false)].

Definition alice_nameless_garden : request :=
  Sample.as_user 1 [] [("name", VStr ""); ("type", VStr "indoor")].

End More.

(** * Properties *)

#[local] Arguments matches : simpl never.
#[local] Arguments selected : simpl never.
#[local] Arguments query : simpl never.
#[local] Arguments project : simpl never.
#[local] Arguments stringify : simpl never.
#[local] Arguments patch : simpl never.
#[local] Arguments update_rows : simpl never.
#[local] Arguments update_object : simpl never.
#[local] Arguments created_crop : simpl never.
#[local] Arguments created_garden : simpl never.

Ltac run_handler :=
  unfold try_catch, mbind, handler_bind, bind, mret, handler_ret, ret,
    select_single, select_all, update_single, insert_single, delete_where,
    reply, reply_if, throw, throw_if, query, rows_of; simpl.

(** ** The store *)

Lemma matches_both (f g : cond) (r : row) :
  matches [f; g] r = true ↔ matches [f] r = true ∧ matches [g] r = true.
Proof.
  unfold matches; simpl. rewrite !andb_true_r. apply andb_true_iff.
Qed.

Lemma selected_both (f g : cond) (rs : list row) :
  selected [f; g] rs = selected [g] (selected [f] rs).
Proof.
  unfold selected. rewrite list_filter_filter. apply list_filter_iff.
  intros r. rewrite matches_both. tauto.
Qed.

Lemma selected_elem (fs : list cond) (rs : list row) (r : row) :
  r ∈ selected fs rs ↔ r ∈ rs ∧ matches fs r = true.
Proof. unfold selected. rewrite list_elem_of_filter. tauto. Qed.

Lemma selected_one (fs : list cond) (r : row) :
  selected fs [r] = if matches fs r then [r] else [].
Proof.
  unfold selected. rewrite filter_cons, filter_nil.
  destruct (matches fs r); by case_decide.
Qed.

Lemma mine_selected (t : table) (rq : request) (d : db) (r : row) :
  mine t rq d r → selected (by_id_and_owner rq) (rows_of t d) = [r].
Proof.
  intros [Hid Hown]. unfold by_id_and_owner. rewrite selected_both.
  unfold by_id in Hid. rewrite Hid, selected_one. by rewrite Hown.
Qed.

Lemma not_mine_selected (t : table) (rq : request) (d : db) (r : row) :
  not_mine t rq d r → selected (by_id_and_owner rq) (rows_of t d) = [].
Proof.
  intros [Hid Hown]. unfold by_id_and_owner. rewrite selected_both.
  unfold by_id in Hid. rewrite Hid, selected_one. by rewrite Hown.
Qed.

Lemma project_star (rs : list row) : project Star <$> rs = rs.
Proof. induction rs as [|r rs IH]; [done |]. rewrite fmap_cons. by rewrite IH. Qed.

(** ** The handlers, one equation each *)

Lemma gardens_get_run (rq : request) (d : db) :
  Gardens.get_one rq d
  = match selected (by_id_and_owner rq) (gardens d) with
    | [r] => (mkResponse 200 (JObj [("success", jtrue); ("garden", row_json r)]), d)
    | _ => (mkResponse 500 (fail_body "Failed to fetch garden"), d)
    end.
Proof.
  unfold Gardens.get_one, by_id_and_owner. run_handler. rewrite project_star.
  by destruct (selected _ (gardens d)) as [|r [|? ?]].
Qed.

Lemma crops_get_run (rq : request) (d : db) :
  Crops.get_one rq d
  = match selected (by_id_and_owner rq) (crops d) with
    | [r] =>
        (mkResponse 200
           (JObj [("success", jtrue);
                  ("crop", JObj (row_fields r
                                 ++ [("gardens", Crops.embedded_garden d r)]))]),
         d)
    | _ => (mkResponse 500 (fail_body "Failed to fetch crop"), d)
    end.
Proof.
  unfold Crops.get_one, Crops.select_single_embedded, by_id_and_owner.
  run_handler. rewrite project_star.
  by destruct (selected _ (crops d)) as [|r [|? ?]].
Qed.

Lemma update_run (x : resource) (e : env) (rq : request) (d : db) :
  put x e rq d
  = match selected (by_id_and_owner rq) (rows_of (table_of x) d) with
    | [r] =>
        let o := update_object x e rq r in
        match selected (by_id rq) (rows_of (table_of x) d) with
        | [y] =>
            (mkResponse 200
               (JObj [("success", jtrue);
                      ("message",
                        jstr match x with
                             | Garden => "Garden updated successfully"
                             | Crop => "Crop updated successfully"
                             end);
                      (match x with Garden => "garden" | Crop => "crop" end,
                        row_json (patch o y))]),
             set_rows (table_of x) (update_rows o (by_id rq) (rows_of (table_of x) d)) d)
        | _ =>
            (mkResponse 500
               (fail_body match x with
                          | Garden => "Failed to update garden"
                          | Crop => "Failed to update crop"
                          end), d)
        end
    | _ =>
        (mkResponse 404
           (fail_body match x with
                      | Garden => "Garden not found or access denied"
                      | Crop => "Crop not found or access denied"
                      end), d)
    end.
Proof.
  destruct x; unfold put, update_object, table_of, by_id, by_id_and_owner.
  - unfold Gardens.update. run_handler.
    destruct (selected _ (gardens d)) as [|r [|? ?]]; simpl; try done.
    destruct (selected _ (gardens d)) as [|y [|? ?]]; simpl; done.
  - unfold Crops.update. run_handler. rewrite project_star.
    destruct (selected _ (crops d)) as [|r [|? ?]]; simpl; try done.
    destruct (selected _ (crops d)) as [|y [|? ?]]; simpl; done.
Qed.

Lemma delete_run (x : resource) (rq : request) (d : db) :
  del x rq d
  = match selected (by_id_and_owner rq) (rows_of (table_of x) d) with
    | [r] =>
        (mkResponse 200
           (JObj [("success", jtrue);
                  ("message",
                    jstr match x with
                         | Garden => "Garden deleted successfully"
                         | Crop => "Crop deleted successfully"
                         end)]),
         set_rows (table_of x) (delete_rows (by_id rq) (rows_of (table_of x) d)) d)
    | _ =>
        (mkResponse 404
           (fail_body match x with
                      | Garden => "Garden not found or access denied"
                      | Crop => "Crop not found or access denied"
                      end), d)
    end.
Proof.
  destruct x; unfold del, table_of, by_id, by_id_and_owner.
  - unfold Gardens.delete. run_handler.
    by destruct (selected _ (gardens d)) as [|r [|? ?]].
  - unfold Crops.delete. run_handler.
    by destruct (selected _ (crops d)) as [|r [|? ?]].
Qed.

Lemma crops_create_run (e : env) (rq : request) (d : db) :
  Crops.create e rq d
  = if negb (truthy (req_body rq !! "name"))
       || negb (truthy (req_body rq !! "garden_id"))
    then (mkResponse 400 (fail_body "Crop name and garden ID are required"), d)
    else match selected [Eq "id" (req_body rq !! "garden_id");
                         Eq "user_id" (req_user rq !! "id")] (gardens d) with
         | [g] =>
             (mkResponse 201 (JObj [("success", jtrue);
                                    ("message", jstr "Crop created successfully");
                                    ("crop", row_json (created_crop e rq))]),
              set_rows Crops (crops d ++ [created_crop e rq]) d)
         | _ => (mkResponse 404 (fail_body "Garden not found or access denied"), d)
         end.
Proof.
  unfold Crops.create. run_handler.
  destruct (negb _ || negb _); simpl; [done |].
  by destruct (selected _ (gardens d)) as [|g [|? ?]].
Qed.

Lemma gardens_create_run (e : env) (rq : request) (d : db) :
  Gardens.create e rq d
  = if negb (truthy (req_body rq !! "name"))
    then (mkResponse 400 (fail_body "Garden name is required"), d)
    else (mkResponse 201 (JObj [("success", jtrue);
                                ("message", jstr "Garden created successfully");
                                ("garden", row_json (created_garden e rq))]),
          set_rows Gardens (gardens d ++ [created_garden e rq]) d).
Proof.
  unfold Gardens.create. run_handler.
  by destruct (negb _).
Qed.

(** ** Object literals and patches *)

Lemma stringify_cons (k : string) (x : jsval) (o : literal) :
  stringify ((k, x) :: o)
  = match x with Some v => <[k := v]> (stringify o) | None => stringify o end.
Proof. reflexivity. Qed.

Lemma stringify_lookup_cons (k' : string) (x : jsval) (o : literal) (k : string) :
  stringify ((k', x) :: o) !! k
  = if decide (k' = k) then js_def x (stringify o !! k) else stringify o !! k.
Proof.
  rewrite stringify_cons. destruct x as [v|]; simpl; case_decide; subst;
    rewrite ?lookup_insert_eq, ?lookup_insert_ne by done; done.
Qed.

Lemma stringify_lookup_nil (k : string) : stringify [] !! k = None.
Proof. apply lookup_empty. Qed.

Lemma js_def_None (x : jsval) : js_def x None = x.
Proof. by destruct x. Qed.

Lemma js_def_idem (x y : jsval) : js_def (js_def x y) y = js_def x y.
Proof. destruct x; [done |]. by destruct y. Qed.

Lemma truthy_Some (x : jsval) : truthy x = true → is_Some x.
Proof. destruct x; [eauto | done]. Qed.

Lemma patch_lookup (o r : row) (k : string) :
  patch o r !! k = js_def (o !! k) (r !! k).
Proof.
  unfold patch. rewrite lookup_union.
  destruct (o !! k), (r !! k); done.
Qed.

(** Reading a key of a literal whose keys are given: peel the entries
    one by one. *)
Ltac literal_lookup :=
  repeat (rewrite stringify_lookup_cons; simpl);
  rewrite ?stringify_lookup_nil, ?js_def_None.

Lemma update_rows_lookup (o : row) (fs : list cond) (rs : list row) (i : nat) (y : row) :
  rs !! i = Some y →
  update_rows o fs rs !! i = Some (if matches fs y then patch o y else y).
Proof. intros Hy. unfold update_rows. by rewrite list_lookup_fmap, Hy. Qed.

Lemma selected_unique (fs : list cond) (rs : list row) (r y : row) :
  selected fs rs = [r] → y ∈ rs → matches fs y = true → y = r.
Proof.
  intros Hsel Hy Hm.
  assert (y ∈ selected fs rs) as Hin by (by apply selected_elem).
  rewrite Hsel in Hin. by apply list_elem_of_singleton in Hin.
Qed.

Lemma selected_self (fs : list cond) (rs : list row) (r : row) :
  selected fs rs = [r] → r ∈ rs ∧ matches fs r = true.
Proof.
  intros Hsel. apply selected_elem. rewrite Hsel. by left.
Qed.

Lemma rows_of_set_rows (t : table) (rs : list row) (d : db) :
  rows_of t (set_rows t rs d) = rs.
Proof. by destruct t. Qed.

(** The table after an update that found its row: that row is
    replaced by the patched one and every other row stays. *)
Lemma update_ok (x : resource) (e : env) (rq : request) (d : db) (r : row) :
  mine (table_of x) rq d r →
  let w := patch (update_object x e rq r) r in
  status (put x e rq d).1 = 200
  ∧ ∀ i y, rows_of (table_of x) d !! i = Some y →
      rows_of (table_of x) (put x e rq d).2 !! i
      = Some (if decide (y = r) then w else y).
Proof.
  intros Hmine w. rewrite update_run.
  rewrite (mine_selected _ _ _ _ Hmine). destruct Hmine as [Hid Hown].
  simpl. rewrite Hid. simpl. split; [done |].
  intros i y Hy. rewrite rows_of_set_rows.
  rewrite (update_rows_lookup _ _ _ _ _ Hy). f_equal.
  destruct (selected_self _ _ _ Hid) as [_ Hr].
  case_decide as Heq.
  - subst y. by rewrite Hr.
  - destruct (matches (by_id rq) y) eqn:Hm; [| done].
    destruct Heq. eapply selected_unique; eauto.
    apply list_elem_of_lookup. eauto.
Qed.

Lemma project_id_lookup (r : row) (k : string) :
  k ≠ "id" → project (Cols ["id"]) r !! k = None.
Proof.
  intros Hk. unfold project. simpl.
  rewrite lookup_insert_ne by done. apply lookup_empty.
Qed.

Lemma merged_or (x : resource) (e : env) (rq : request) (r : row) (k : string) :
  k ∈ or_fields x →
  patch (update_object x e rq r) r !! k = req_body rq !! k ||| r !! k.
Proof.
  intros Hk. rewrite patch_lookup.
  destruct x; unfold or_fields in Hk;
    repeat (apply elem_of_cons in Hk as [-> | Hk]);
    try (by apply elem_of_nil in Hk);
    unfold update_object, Gardens.updateData, Crops.updateData;
    literal_lookup; rewrite ?project_id_lookup by done;
    unfold js_or; destruct (truthy _) eqn:Ht;
    first [ by apply truthy_Some in Ht as [v ->] | by destruct (r !! _) ].
Qed.

Lemma merged_def (x : resource) (e : env) (rq : request) (r : row) (k : string) :
  k ∈ def_fields x →
  patch (update_object x e rq r) r !! k = js_def (req_body rq !! k) (r !! k).
Proof.
  intros Hk. rewrite patch_lookup.
  destruct x; unfold def_fields in Hk;
    repeat (apply elem_of_cons in Hk as [-> | Hk]);
    try (by apply elem_of_nil in Hk);
    unfold update_object, Gardens.updateData, Crops.updateData;
    literal_lookup; rewrite ?project_id_lookup by done;
    by rewrite ?js_def_None, ?js_def_idem.
Qed.

(** C3, as amended.  An update of a garden or crop that belongs to the
    requester answers 200 and replaces that row, and no other, by a row
    [w] merged field by field: a field merged with [||] (name, type and
    size of a garden; name, category and status of a crop) takes the
    supplied value when it is truthy and the stored value otherwise; a
    field merged with [!== undefined] (location and description of a
    garden; the nine other fields of a crop) takes the supplied value
    whenever one is supplied, be it 0, the empty string, false or null,
    and the stored value only when none is. *)
Theorem update_merges_field_by_field
    (x : resource) (e : env) (rq : request) (d : db) (r : row) :
  mine (table_of x) rq d r →
  let out := put x e rq d in
  let w := patch (update_object x e rq r) r in
  status out.1 = 200
  ∧ (∀ i y, rows_of (table_of x) d !! i = Some y →
       rows_of (table_of x) out.2 !! i = Some (if decide (y = r) then w else y))
  ∧ (∀ k, k ∈ or_fields x → w !! k = req_body rq !! k ||| r !! k)
  ∧ (∀ k, k ∈ def_fields x → w !! k = js_def (req_body rq !! k) (r !! k)).
Proof.
  intros Hmine out w.
  destruct (update_ok x e rq d r Hmine) as [Hst Hrows].
  split; [done |]. split; [done |].
  split; intros k Hk; [by apply merged_or | by apply merged_def].
Qed.

Lemma stringify_lookup_notin (o : literal) (k : string) :
  k ∉ o.*1 → stringify o !! k = None.
Proof.
  induction o as [|[k' x] o IH]; intros Hk; [apply stringify_lookup_nil |].
  rewrite fmap_cons in Hk. apply not_elem_of_cons in Hk as [Hne Hk].
  rewrite stringify_lookup_cons. simpl in *.
  case_decide; [congruence | by apply IH].
Qed.

Lemma crop_update_untouched (e : env) (rq : request) (r : row) (k : string) :
  k ≠ "updated_at" → req_body rq !! k = None →
  patch (update_object Crop e rq r) r !! k = r !! k.
Proof.
  intros Hk Hb. rewrite patch_lookup. unfold update_object.
  destruct (decide (k ∈ (Crops.updateData e (req_body rq) r).*1)) as [Hin | Hout].
  - unfold Crops.updateData in Hin. simpl in Hin.
    repeat (apply elem_of_cons in Hin as [-> | Hin]);
      try (by apply elem_of_nil in Hin); try done;
      unfold Crops.updateData; literal_lookup; rewrite Hb;
      unfold js_or; simpl; by destruct (r !! _).
  - by rewrite stringify_lookup_notin.
Qed.

Lemma crop_update_stamp (e : env) (rq : request) (r : row) :
  patch (update_object Crop e rq r) r !! "updated_at" = Some (VStr (now_iso e)).
Proof.
  rewrite patch_lookup. unfold update_object, Crops.updateData.
  by literal_lookup.
Qed.

(** C4, as amended.  A partial update of a crop that belongs to the
    requester answers 200 and leaves every field the request does not
    supply as it was, except [updated_at], which is set to the time of
    the update; the other rows of the table are untouched. *)
Theorem partial_crop_update_keeps_other_fields
    (e : env) (rq : request) (d : db) (r : row) :
  mine Crops rq d r →
  let out := Crops.update e rq d in
  ∃ w, status out.1 = 200
    ∧ (∀ i y, crops d !! i = Some y →
         crops out.2 !! i = Some (if decide (y = r) then w else y))
    ∧ (∀ k, k ≠ "updated_at" → req_body rq !! k = None → w !! k = r !! k)
    ∧ w !! "updated_at" = Some (VStr (now_iso e)).
Proof.
  intros Hmine out. exists (patch (update_object Crop e rq r) r).
  destruct (update_ok Crop e rq d r Hmine) as [Hst Hrows].
  split; [done |]. split; [done |].
  split; [intros k; apply crop_update_untouched | apply crop_update_stamp].
Qed.

(** ** Falsy values *)

Lemma truthy_falsy (x : jsval) : truthy x = false ↔ falsy x.
Proof.
  unfold falsy. split.
  - destruct x as [[|[]|n|s]|]; simpl; intros Hx; try done; auto.
    + apply negb_false_iff, Z.eqb_eq in Hx as ->. auto.
    + apply negb_false_iff, String.eqb_eq in Hx as ->. auto 6.
  - intros [-> | [-> | [-> | [-> | ->]]]]; done.
Qed.

Lemma truthy_not_falsy (x : jsval) : truthy x = true ↔ ¬ falsy x.
Proof.
  rewrite <- truthy_falsy. destruct (truthy x); intuition congruence.
Qed.

Lemma js_or_falsy (x y : jsval) : falsy x → x ||| y = y.
Proof. intros Hx. apply truthy_falsy in Hx. unfold js_or. by rewrite Hx. Qed.

Lemma js_or_not_falsy (x y : jsval) : ¬ falsy x → x ||| y = x.
Proof. intros Hx. apply truthy_not_falsy in Hx. unfold js_or. by rewrite Hx. Qed.

(** ** Progress *)

Lemma created_crop_progress (e : env) (rq : request) :
  created_crop e rq !! "progress" = req_body rq !! "progress" ||| Some (VNum 0).
Proof.
  unfold created_crop. rewrite lookup_insert_ne by done.
  unfold Crops.cropData. by literal_lookup.
Qed.

Lemma crop_update_progress (e : env) (rq : request) (r y : row) :
  patch (update_object Crop e rq r) y !! "progress"
  = js_def (js_def (req_body rq !! "progress") (r !! "progress")) (y !! "progress").
Proof.
  rewrite patch_lookup. unfold update_object, Crops.updateData.
  by literal_lookup.
Qed.

(** The crop create and update handlers keep every stored progress an
    integer from 0 to 100 when the request leaves progress out or
    supplies an integer from 0 to 100. *)
Lemma progress_kept_in_range
    (w : write) (e : env) (rq : request) (d : db) :
  Forall progress_in_range (crops d) →
  req_body rq !! "progress" = None ∨ in_range (req_body rq !! "progress") →
  Forall progress_in_range (crops (crop_write w e rq d).2).
Proof.
  intros Hinv Hsup. destruct w; unfold crop_write.
  - rewrite crops_create_run. destruct (negb _ || negb _); [done |].
    destruct (selected _ (gardens d)) as [|g [|? ?]]; try done.
    simpl. apply Forall_app. split; [done |]. apply Forall_singleton.
    unfold progress_in_range. rewrite created_crop_progress.
    destruct Hsup as [-> | (n & -> & Hn)]; unfold js_or; simpl.
    + exists 0. split; [done | lia].
    + destruct (Z.eqb_spec n 0) as [-> |]; simpl.
      * exists 0. split; [done | lia].
      * by exists n.
  - change Crops.update with (put Crop). rewrite update_run. simpl.
    destruct (selected (by_id_and_owner rq) (crops d)) as [|r [|? ?]] eqn:Hsel;
      try done.
    destruct (selected (by_id rq) (crops d)) as [|y [|? ?]]; try done.
    simpl. unfold update_rows. apply Forall_fmap.
    eapply Forall_impl; [exact Hinv |]. intros z Hz. simpl.
    destruct (matches (by_id rq) z); [| done].
    unfold progress_in_range. rewrite crop_update_progress.
    destruct Hsup as [-> | (n & -> & Hn)]; simpl.
    + apply selected_self in Hsel as [Hr _].
      rewrite Forall_forall in Hinv. destruct (Hinv r Hr) as (n & Hn & Hrange).
      rewrite Hn. simpl. by exists n.
    + by exists n.
Qed.

(** C9, as amended.  The crop create and update handlers do not check
    the range of progress.  They keep every stored progress an integer
    from 0 to 100 when the request leaves progress out or supplies an
    integer from 0 to 100; and when a create or an update that goes
    through (201, 200) supplies an integer outside that range, a row
    with that very progress is in the table afterwards. *)
Theorem progress_is_stored_without_a_range_check
    (w : write) (e : env) (rq : request) (d : db) :
  let out := crop_write w e rq d in
  (Forall progress_in_range (crops d) →
   req_body rq !! "progress" = None ∨ in_range (req_body rq !! "progress") →
   Forall progress_in_range (crops out.2))
  ∧ (∀ n, req_body rq !! "progress" = Some (VNum n) → ¬ (0 ≤ n ≤ 100)%Z →
     status out.1 = written_status w →
     ∃ r, r ∈ crops out.2 ∧ r !! "progress" = Some (VNum n)
          ∧ ¬ progress_in_range r).
Proof.
  intros out. split.
  { apply progress_kept_in_range. }
  intros n Hn Hout Hst. subst out.
  assert (∀ r, r !! "progress" = Some (VNum n) → ¬ progress_in_range r) as Hno.
  { intros r Hr (m & Hm & Hrange). rewrite Hr in Hm. injection Hm as ->. lia. }
  destruct w; unfold crop_write in *; simpl in Hst.
  - rewrite crops_create_run in *. destruct (negb _ || negb _); [done |].
    destruct (selected _ (gardens d)) as [|g [|? ?]]; try done.
    simpl. exists (created_crop e rq).
    assert (created_crop e rq !! "progress" = Some (VNum n)) as Hp.
    { rewrite created_crop_progress, Hn. unfold js_or. simpl.
      destruct (Z.eqb_spec n 0) as [-> |]; [lia | done]. }
    split; [| by auto]. apply elem_of_app. right. by left.
  - change Crops.update with (put Crop) in *. rewrite update_run in *. simpl in *.
    destruct (selected (by_id_and_owner rq) (crops d)) as [|r [|? ?]]; try done.
    destruct (selected (by_id rq) (crops d)) as [|y [|? ?]] eqn:Hy; try done.
    simpl. exists (patch (update_object Crop e rq r) y).
    assert (patch (update_object Crop e rq r) y !! "progress" = Some (VNum n))
      as Hp by (by rewrite crop_update_progress, Hn).
    split; [| by auto]. apply selected_self in Hy as [Hin Hm].
    unfold update_rows. apply list_elem_of_fmap. exists y. split; [| done].
    by rewrite Hm.
Qed.

(** ** Defaults of a new crop *)

Lemma crops_create_ok (e : env) (rq : request) (d : db) :
  truthy (req_body rq !! "name") = true →
  truthy (req_body rq !! "garden_id") = true →
  garden_is_mine rq d →
  Crops.create e rq d
  = (mkResponse 201 (JObj [("success", jtrue);
                           ("message", jstr "Crop created successfully");
                           ("crop", row_json (created_crop e rq))]),
     set_rows Crops (crops d ++ [created_crop e rq]) d).
Proof.
  intros Hname Hgid [g Hg]. by rewrite crops_create_run, Hname, Hgid, Hg.
Qed.

Lemma created_crop_default (e : env) (rq : request) (k : string) (v : value) :
  (k, v) ∈ crop_defaults →
  created_crop e rq !! k = req_body rq !! k ||| Some v.
Proof.
  intros Hin. unfold created_crop, crop_defaults in *.
  repeat (apply elem_of_cons in Hin as [[= -> ->] | Hin]);
    try (by apply elem_of_nil in Hin);
    (rewrite lookup_insert_ne by done);
    unfold Crops.cropData; by literal_lookup.
Qed.

(** C10.  A crop creation that passes its checks appends one row and
    answers 201 with that row.  In the row every optional field that
    the request supplies with a falsy value (or leaves out) holds its
    default, and every optional field supplied with another value holds
    that value: a quantity of 0 is stored as 1, a falsy progress as 0,
    an empty category as 'vegetable', an empty status as 'seedling', a
    falsy is_shared as false. *)
Theorem crop_create_substitutes_defaults (e : env) (rq : request) (d : db) :
  ¬ falsy (req_body rq !! "name") →
  ¬ falsy (req_body rq !! "garden_id") →
  garden_is_mine rq d →
  ∃ stored,
    crops (Crops.create e rq d).2 = (crops d ++ [stored])%list
    ∧ (Crops.create e rq d).1
      = mkResponse 201 (JObj [("success", jtrue);
                              ("message", jstr "Crop created successfully");
                              ("crop", row_json stored)])
    ∧ (∀ k v, (k, v) ∈ crop_defaults →
         (falsy (req_body rq !! k) → stored !! k = Some v)
         ∧ (¬ falsy (req_body rq !! k) → stored !! k = req_body rq !! k))
    ∧ (req_body rq !! "quantity" = Some (VNum 0) →
       stored !! "quantity" = Some (VNum 1))
    ∧ (falsy (req_body rq !! "progress") → stored !! "progress" = Some (VNum 0))
    ∧ (req_body rq !! "category" = Some (VStr "") →
       stored !! "category" = Some (VStr "vegetable"))
    ∧ (req_body rq !! "status" = Some (VStr "") →
       stored !! "status" = Some (VStr "seedling"))
    ∧ (falsy (req_body rq !! "is_shared") →
       stored !! "is_shared" = Some (VBool false)).
Proof.
  intros Hname Hgid Hmine. exists (created_crop e rq).
  apply truthy_not_falsy in Hname, Hgid.
  rewrite crops_create_ok by done. split; [done |]. split; [done |].
  assert (∀ k v, (k, v) ∈ crop_defaults →
            falsy (req_body rq !! k) → created_crop e rq !! k = Some v) as Hsub.
  { intros k v Hin Hk. rewrite (created_crop_default _ _ _ _ Hin).
    by apply js_or_falsy. }
  split.
  { intros k v Hin. split; [by apply Hsub |].
    intros Hk. rewrite (created_crop_default _ _ _ _ Hin).
    by apply js_or_not_falsy. }
  unfold crop_defaults in Hsub.
  repeat split; intros Hk; apply Hsub;
    try (rewrite Hk; unfold falsy; by auto 6); try done;
    repeat first [ by apply list_elem_of_here | apply list_elem_of_further ].
Qed.

(** ** Crops and the gardens they point to *)

Lemma holds_eq (r : row) (k : string) (x : jsval) :
  holds r (Eq k x) = true ↔ ∃ v, x = Some v ∧ r !! k = Some v.
Proof.
  simpl. destruct x as [v|].
  - rewrite bool_decide_eq_true. split; [eauto | by intros (? & [= <-] & ?)].
  - split; [done | by intros (? & ? & _)].
Qed.

Lemma matches_pair (r : row) (k1 k2 : string) (x1 x2 : jsval) :
  matches [Eq k1 x1; Eq k2 x2] r = true →
  ∃ v1 v2, x1 = Some v1 ∧ r !! k1 = Some v1 ∧ x2 = Some v2 ∧ r !! k2 = Some v2.
Proof.
  unfold matches. cbn [forallb]. rewrite andb_true_r.
  intros [H1 H2]%andb_true_iff.
  apply holds_eq in H1 as (v1 & ? & ?). apply holds_eq in H2 as (v2 & ? & ?).
  eauto 10.
Qed.

Lemma garden_update_keeps_keys (e : env) (rq : request) (r g : row) (k : string) :
  k = "id" ∨ k = "user_id" →
  patch (update_object Garden e rq r) g !! k = g !! k.
Proof.
  intros Hk. rewrite patch_lookup. unfold update_object, Gardens.updateData.
  destruct Hk as [-> | ->]; by literal_lookup.
Qed.

Lemma crop_update_keeps_keys (e : env) (rq : request) (r c : row) (k : string) :
  k = "garden_id" ∨ k = "user_id" →
  patch (update_object Crop e rq r) c !! k = c !! k.
Proof.
  intros Hk. rewrite patch_lookup. unfold update_object, Crops.updateData.
  destruct Hk as [-> | ->]; by literal_lookup.
Qed.

Lemma well_owned_gardens (d d' : db) (c : row) :
  (∀ g, g ∈ gardens d →
     ∃ g', g' ∈ gardens d' ∧ g' !! "id" = g !! "id"
           ∧ g' !! "user_id" = g !! "user_id") →
  well_owned d c → well_owned d' c.
Proof.
  intros Hg (g & gid & uid & Hin & Hc1 & Hg1 & Hc2 & Hg2).
  destruct (Hg g Hin) as (g' & Hin' & Hid & Huid).
  exists g', gid, uid. rewrite Hid, Huid. done.
Qed.

Lemma well_owned_crop (d : db) (c c' : row) :
  c' !! "garden_id" = c !! "garden_id" → c' !! "user_id" = c !! "user_id" →
  well_owned d c → well_owned d c'.
Proof.
  intros H1 H2 (g & gid & uid & Hin & Hc1 & Hg1 & Hc2 & Hg2).
  exists g, gid, uid. rewrite H1, H2. done.
Qed.

Lemma created_crop_well_owned (e : env) (rq : request) (d : db) (g : row) :
  selected [Eq "id" (req_body rq !! "garden_id");
            Eq "user_id" (req_user rq !! "id")] (gardens d) = [g] →
  well_owned d (created_crop e rq).
Proof.
  intros Hsel. apply selected_self in Hsel as [Hin Hm].
  apply matches_pair in Hm as (gid & uid & Hgid & Hg1 & Huid & Hg2).
  exists g, gid, uid. split; [done |].
  unfold created_crop. rewrite !lookup_insert_ne by done.
  unfold Crops.cropData. literal_lookup. rewrite Hgid, Huid. done.
Qed.

Lemma run_op_preserves (o : op) (d : db) :
  crops_match_gardens d → crops_match_gardens (run_op o d).
Proof.
  intros Hinv. destruct o as [e rq | e rq | e rq | e rq]; unfold run_op.
  - rewrite gardens_create_run. destruct (negb _); [done |].
    intros c Hc. simpl in *. eapply well_owned_gardens; [| by apply Hinv].
    intros g Hg. exists g. simpl. split; [| done]. apply elem_of_app. by left.
  - change Gardens.update with (put Garden). rewrite update_run. simpl.
    destruct (selected (by_id_and_owner rq) (gardens d)) as [|r [|? ?]]; try done.
    destruct (selected (by_id rq) (gardens d)) as [|y [|? ?]]; try done.
    intros c Hc. simpl in *. eapply well_owned_gardens; [| by apply Hinv].
    intros g Hg. simpl.
    exists (if matches (by_id rq) g
            then patch (update_object Garden e rq r) g else g).
    split.
    + unfold update_rows. apply list_elem_of_fmap. by exists g.
    + destruct (matches (by_id rq) g); [| done].
      rewrite !garden_update_keeps_keys by auto. done.
  - rewrite crops_create_run. destruct (negb _ || negb _); [done |].
    destruct (selected _ (gardens d)) as [|g [|? ?]] eqn:Hsel; try done.
    intros c Hc. simpl in Hc. apply elem_of_app in Hc as [Hc | Hc].
    + by apply Hinv.
    + apply list_elem_of_singleton in Hc as ->.
      by eapply (created_crop_well_owned e rq d g).
  - change Crops.update with (put Crop). rewrite update_run. simpl.
    destruct (selected (by_id_and_owner rq) (crops d)) as [|r [|? ?]]; try done.
    destruct (selected (by_id rq) (crops d)) as [|y [|? ?]]; try done.
    intros c' Hc'. simpl in Hc'. unfold update_rows in Hc'.
    apply list_elem_of_fmap in Hc' as (c & -> & Hc).
    specialize (Hinv c Hc).
    destruct (matches (by_id rq) c); [| done].
    eapply well_owned_crop; [| | exact Hinv];
      by rewrite crop_update_keeps_keys by auto.
Qed.

Lemma run_ops_preserve (os : list op) (d : db) :
  crops_match_gardens d → crops_match_gardens (run_ops os d).
Proof.
  revert d. induction os as [|o os IH]; intros d Hinv; [done |].
  simpl. apply IH. by apply run_op_preserves.
Qed.

Lemma crop_create_refused (e : env) (rq : request) (d : db) :
  ¬ garden_is_mine rq d →
  (Crops.create e rq d).2 = d
  ∧ (truthy (req_body rq !! "name") = true →
     truthy (req_body rq !! "garden_id") = true →
     (Crops.create e rq d).1
     = mkResponse 404 (fail_body "Garden not found or access denied")).
Proof.
  intros Hno. rewrite crops_create_run.
  destruct (selected _ (gardens d)) as [|g [|? ?]] eqn:Hsel;
    try (destruct Hno; by exists g);
    (split; [by destruct (negb _ || negb _) | by intros -> ->]).
Qed.

Lemma crop_update_keeps_owner (e : env) (rq : request) (d : db) (i : nat) (c : row) :
  crops d !! i = Some c →
  ∃ c', crops (Crops.update e rq d).2 !! i = Some c'
    ∧ c' !! "garden_id" = c !! "garden_id" ∧ c' !! "user_id" = c !! "user_id".
Proof.
  intros Hc. change Crops.update with (put Crop). rewrite update_run. simpl.
  destruct (selected (by_id_and_owner rq) (crops d)) as [|r [|? ?]]; eauto.
  destruct (selected (by_id rq) (crops d)) as [|y [|? ?]]; eauto.
  simpl. rewrite (update_rows_lookup _ _ _ _ _ Hc).
  eexists. split; [done |].
  destruct (matches (by_id rq) c); [| done].
  by rewrite !crop_update_keeps_keys by auto.
Qed.

(** C8.  On a store where every crop points to a garden of the crop's
    own user: a crop creation naming a garden that is not the
    requester's inserts nothing and, once name and garden_id are given,
    answers 404; a crop update leaves garden_id and user_id of every
    crop as they were; and after any sequence of garden and crop
    creations and updates every crop still points to a garden of its
    own user. *)
Theorem crop_writes_keep_garden_of_same_user (d : db) :
  crops_match_gardens d →
  (∀ e rq, ¬ garden_is_mine rq d →
     (Crops.create e rq d).2 = d
     ∧ (truthy (req_body rq !! "name") = true →
        truthy (req_body rq !! "garden_id") = true →
        (Crops.create e rq d).1
        = mkResponse 404 (fail_body "Garden not found or access denied")))
  ∧ (∀ e rq i c, crops d !! i = Some c →
       ∃ c', crops (Crops.update e rq d).2 !! i = Some c'
         ∧ c' !! "garden_id" = c !! "garden_id"
         ∧ c' !! "user_id" = c !! "user_id")
  ∧ (∀ os, crops_match_gardens (run_ops os d)).
Proof.
  intros Hinv. split; [intros e rq; apply crop_create_refused |].
  split; [intros e rq i c; apply crop_update_keeps_owner |].
  intros os. by apply run_ops_preserve.
Qed.

(** ** The auth router *)

Section AuthFacts.
Context `{Bcrypt} `{TokenCodec}.

Lemma login_run (e : env) (rq : request) (d : db) :
  Auth.login e rq d
  = if negb (truthy (req_body rq !! "email"))
       || negb (truthy (req_body rq !! "password"))
    then (mkResponse 400 (err_body "Email and password are required"), d)
    else
      match selected [Eq "email" (req_body rq !! "email")] (users d) with
      | [u] =>
          match req_body rq !! "password", u !! "password_hash" with
          | Some (VStr p), Some (VStr h) =>
              if bcrypt_compare p h then
                match JWT_SECRET e with
                | Some k =>
                    (mkResponse 200
                       (JObj [("message", jstr "Login successful");
                              ("user", row_json (Auth.userWithoutPassword u));
                              ("token", jstr (jwt_encode (issued e u k)))]), d)
                | None => (mkResponse 500 (err_body "Internal server error"), d)
                end
              else (mkResponse 401 (err_body "Invalid credentials"), d)
          | _, _ => (mkResponse 500 (err_body "Internal server error"), d)
          end
      | _ => (mkResponse 401 (err_body "Invalid credentials"), d)
      end.
Proof.
  unfold Auth.login. run_handler.
  destruct (negb _ || negb _); simpl; [done |]. rewrite project_star.
  destruct (selected _ (users d)) as [|u [|? ?]]; simpl; try done.
  unfold compare_password.
  destruct (req_body rq !! "password") as [[| | |p]|]; simpl; try done;
    destruct (u !! "password_hash") as [[| | |h]|]; simpl; try done.
  destruct (bcrypt_compare p h); simpl; [| done].
  unfold jwt_sign. by destruct (JWT_SECRET e).
Qed.

Lemma truthy_str (p : string) : p ≠ "" → truthy (Some (VStr p)) = true.
Proof. intros Hp. simpl. by destruct (String.eqb_spec p ""). Qed.

Lemma login_refused (e : env) (rq : request) (d : db) :
  login_failure rq d →
  Auth.login e rq d = (mkResponse 401 (err_body "Invalid credentials"), d).
Proof.
  intros [He Hp Hsel | u p h He Hp Hne Hsel Hh Hcmp]; rewrite login_run.
  - by rewrite He, Hp, Hsel.
  - rewrite He, Hp, Hsel, Hh, Hcmp. by rewrite truthy_str.
Qed.

(** What the claim C7 has right: when the password is a string, a login
    that fails because no user row has the e-mail, and one that fails
    because the password does not match the stored hash, get the same
    answer: status 401 with the body [{error: 'Invalid credentials'}]. *)
Lemma login_failures_look_alike
    (e1 e2 : env) (rq1 rq2 : request) (d1 d2 : db) :
  login_failure rq1 d1 → login_failure rq2 d2 →
  (Auth.login e1 rq1 d1).1 = mkResponse 401 (err_body "Invalid credentials")
  ∧ (Auth.login e2 rq2 d2).1 = (Auth.login e1 rq1 d1).1.
Proof.
  intros H1 H2. by rewrite !login_refused.
Qed.

(** C7, where the code departs from it.  Two logins fail with the same
    password, which is truthy but not a string (the number 123, say):
    the e-mail of the first is that of a stored user, the e-mail of the
    second is nobody's.  [bcrypt.compare] throws on the first, which is
    answered 500; the second is answered 401.  The response tells an
    e-mail that exists from one that does not. *)
Theorem non_string_password_tells_the_failures_apart
    (e : env) (rq1 rq2 : request) (d : db) (u : row) :
  ¬ falsy (req_body rq1 !! "email") →
  ¬ falsy (req_body rq2 !! "email") →
  ¬ falsy (req_body rq1 !! "password") →
  (∀ p, req_body rq1 !! "password" ≠ Some (VStr p)) →
  req_body rq2 !! "password" = req_body rq1 !! "password" →
  selected [Eq "email" (req_body rq1 !! "email")] (users d) = [u] →
  selected [Eq "email" (req_body rq2 !! "email")] (users d) = [] →
  Auth.login e rq1 d = (mkResponse 500 (err_body "Internal server error"), d)
  ∧ Auth.login e rq2 d = (mkResponse 401 (err_body "Invalid credentials"), d)
  ∧ (Auth.login e rq1 d).1 ≠ (Auth.login e rq2 d).1.
Proof.
  intros He1 He2 Hp Hnot Hsame Hu Hno.
  apply truthy_not_falsy in He1, He2, Hp.
  assert (Auth.login e rq1 d
          = (mkResponse 500 (err_body "Internal server error"), d)) as H1.
  { rewrite login_run, He1, Hp, Hu. simpl.
    destruct (req_body rq1 !! "password") as [[| | |p]|]; try done.
    by destruct (Hnot p). }
  assert (Auth.login e rq2 d
          = (mkResponse 401 (err_body "Invalid credentials"), d)) as H2.
  { by rewrite login_run, He2, Hsame, Hp, Hno. }
  rewrite H1, H2. done.
Qed.

End AuthFacts.

Section MeFacts.
Context `{Bcrypt} `{TokenCodec}.

Lemma blank_false (tok : string) : tok ≠ "" → blank (Some tok) = false.
Proof. intros Hne. simpl. by destruct (String.eqb_spec tok ""). Qed.

Lemma me_presents (e : env) (rq : request) (d : db) (tok : string) :
  presents rq tok → Auth.me e rq d = me_with_token e tok d.
Proof.
  intros (h & Hh & Hpre & Htok & Hne).
  unfold Auth.me, me_with_token. run_handler. rewrite Hh. simpl.
  assert (h ≠ "") as Hh' by (intros ->; done).
  destruct (String.eqb_spec h ""); [done |]. simpl.
  rewrite Hpre. simpl. rewrite Htok. simpl.
  destruct (String.eqb_spec tok ""); [done |]. done.
Qed.

Lemma me_refused (o : me_refusal) (e : env) (rq : request) (d : db) :
  me_case o e rq d → Auth.me e rq d = (me_answer o, d).
Proof.
  destruct o; simpl.
  - intros Hh. unfold Auth.me. run_handler. by rewrite Hh.
  - intros (h & Hh & Hne & Hpre). unfold Auth.me. run_handler.
    rewrite Hh. simpl. destruct (String.eqb_spec h ""); [done |]. simpl.
    by rewrite Hpre.
  - intros (h & Hh & Hpre & Hblank). unfold Auth.me. run_handler.
    rewrite Hh. simpl. destruct (String.eqb_spec h "") as [-> |]; [done |].
    simpl. rewrite Hpre. simpl. unfold blank in Hblank.
    destruct (js_split " " h !! 1%nat) as [tok|]; [| done].
    simpl. by rewrite Hblank.
  - intros (t & k & (tok & Htok & Hdec & Hk) & Hsig).
    rewrite (me_presents _ _ _ _ Htok). unfold me_with_token, jwt_verify.
    run_handler. rewrite Hdec, Hk.
    destruct (String.eqb_spec (signature t) (hmac k (payload t))); done.
  - intros (t & k & exp & (tok & Htok & Hdec & Hk) & Hsig & Hexp & Hle).
    rewrite (me_presents _ _ _ _ Htok). unfold me_with_token, jwt_verify.
    run_handler. rewrite Hdec, Hk, Hsig, String.eqb_refl, Hexp. simpl.
    destruct (Z.leb_spec exp (now_sec e)); [done | lia].
  - intros (t & k & (tok & Htok & Hdec & Hk) & [Hsig Hexp] & Hsel).
    rewrite (me_presents _ _ _ _ Htok). unfold me_with_token, jwt_verify.
    run_handler. rewrite Hdec, Hk, Hsig, String.eqb_refl.
    destruct Hexp as [-> | (exp & -> & Hlt)]; simpl.
    + by rewrite Hsel.
    + destruct (Z.leb_spec exp (now_sec e)); [lia |]. simpl.
      by rewrite Hsel.
Qed.

(** C5.  [/me] answers a request without Authorization header, with a
    header that does not start with 'Bearer ', without a token after
    the scheme, with a token of bad signature and with an expired token
    by 401, and a token that verifies but names no user row by 404; the
    bodies of these answers differ from one another. *)
Theorem me_refusals_are_told_apart
    (o : me_refusal) (e : env) (rq : request) (d : db) :
  me_case o e rq d →
  Auth.me e rq d = (me_answer o, d)
  ∧ status (me_answer o) = match o with No_user => 404 | _ => 401 end
  ∧ ∀ o', o' ≠ o → body (me_answer o') ≠ body (me_answer o).
Proof.
  intros Hcase. split; [by apply me_refused |].
  split; [by destruct o |].
  intros o' Hne. destruct o, o'; done.
Qed.

Lemma split_spaceless (s : string) : spaceless s = true → js_split " " s = [s].
Proof.
  induction s as [|a s IH]; [done |]. simpl.
  intros [Ha Hs]%andb_true_iff. apply negb_true_iff in Ha.
  rewrite Ha, IH by done. done.
Qed.

Lemma bearer_chars (tok : string) :
  "Bearer " ++ tok
  = String "B" (String "e" (String "a" (String "r" (String "e"
      (String "r" (String " " tok)))))).
Proof. reflexivity. Qed.

Lemma bearer_presents (rq : request) (tok : string) :
  authorization rq = Some ("Bearer " ++ tok) →
  spaceless tok = true → tok ≠ "" → presents rq tok.
Proof.
  intros Hh Hsp Hne. exists ("Bearer " ++ tok). split; [done |].
  rewrite bearer_chars. split; [by destruct tok |]. split; [| done].
  simpl. by rewrite split_spaceless.
Qed.

Lemma issued_claims (e : env) (u : row) (k : string) (f : string) :
  f ∈ ["id"; "email"; "name"] → payload (issued e u k) !! f = u !! f.
Proof.
  intros Hf. unfold issued. simpl.
  repeat (apply elem_of_cons in Hf as [-> | Hf]);
    try (by apply elem_of_nil in Hf);
    rewrite !lookup_insert_ne by done; unfold Auth.claims; by literal_lookup.
Qed.

Lemma issued_exp (e : env) (u : row) (k : string) :
  payload (issued e u k) !! "exp" = Some (VNum (now_sec e + seven_days)).
Proof. unfold issued. simpl. by rewrite lookup_insert_eq. Qed.

Lemma login_accepted (e : env) (rq : request) (d : db) (u : row) (k : string) :
  login_success e rq d u k →
  Auth.login e rq d
  = (mkResponse 200
       (JObj [("message", jstr "Login successful");
              ("user", row_json (Auth.userWithoutPassword u));
              ("token", jstr (jwt_encode (issued e u k)))]), d).
Proof.
  intros (He & Hsel & (p & h & Hp & Hne & Hh & Hcmp) & Hk).
  rewrite login_run, He, Hp, Hsel, Hh, Hcmp, Hk. by rewrite truthy_str.
Qed.

(** C6.  When a login succeeds for user [u], the token in the answer
    verifies, before seven days have passed, to a payload with the id,
    e-mail and name of [u]; from seven days after issuance on,
    verification throws TokenExpiredError, and [/me] answers the token
    with 401 'Token expired'.  The token is assumed to survive its trip
    through the library's text format and to be one word. *)
Theorem login_token_round_trip_and_expiry
    (e : env) (rq : request) (d : db) (u : row) (k : string) :
  login_success e rq d u k →
  let tok := jwt_encode (issued e u k) in
  jwt_decode tok = Some (issued e u k) →
  spaceless tok = true → tok ≠ "" →
  (Auth.login e rq d).1
  = mkResponse 200 (JObj [("message", jstr "Login successful");
                          ("user", row_json (Auth.userWithoutPassword u));
                          ("token", jstr tok)])
  ∧ (∀ now d', (now < now_sec e + seven_days)%Z →
       ∃ decoded, jwt_verify tok (Some k) now d' = (Next decoded, d')
         ∧ decoded !! "id" = u !! "id"
         ∧ decoded !! "email" = u !! "email"
         ∧ decoded !! "name" = u !! "name")
  ∧ (∀ now d', (now_sec e + seven_days ≤ now)%Z →
       jwt_verify tok (Some k) now d' = (Raise TokenExpiredError, d'))
  ∧ (∀ e' rq' d',
       JWT_SECRET e' = Some k →
       authorization rq' = Some ("Bearer " ++ tok) →
       (now_sec e + seven_days ≤ now_sec e')%Z →
       Auth.me e' rq' d' = (me_answer Expired, d')).
Proof.
  intros Hlogin tok Hdec Hsp Hne.
  split; [by rewrite (login_accepted _ _ _ _ _ Hlogin) |].
  split; [| split].
  - intros now d' Hnow. exists (payload (issued e u k)).
    split; [| by rewrite !issued_claims by set_solver].
    unfold jwt_verify. rewrite Hdec. simpl. rewrite String.eqb_refl. simpl.
    rewrite lookup_insert_eq.
    destruct (Z.leb_spec (now_sec e + seven_days) now); [lia | done].
  - intros now d' Hnow.
    unfold jwt_verify. rewrite Hdec. simpl. rewrite String.eqb_refl. simpl.
    rewrite lookup_insert_eq.
    destruct (Z.leb_spec (now_sec e + seven_days) now); [done | lia].
  - intros e' rq' d' Hk Hh Hnow. apply me_refused. simpl.
    exists (issued e u k), k, (now_sec e + seven_days)%Z.
    split; [| by rewrite issued_exp].
    exists tok. split; [by apply bearer_presents | done].
Qed.

End MeFacts.

(** ** What a response body mentions *)

Lemma mentions_fields (k : string) (r : row) :
  r !! k = None →
  existsb (λ f, String.eqb k f.1 || mentions k f.2) (row_fields r) = false.
Proof.
  intros Hk. apply not_true_is_false. intros Hex.
  apply existsb_exists in Hex as ([k' j] & Hin & Hf).
  unfold row_fields in Hin. apply list_elem_of_In, list_elem_of_fmap in Hin.
  destruct Hin as ([k'' v] & [= -> ->] & Hin). simpl in Hf.
  apply elem_of_map_to_list in Hin. rewrite orb_false_r in Hf.
  apply String.eqb_eq in Hf as <-. congruence.
Qed.

Lemma mentions_row (k : string) (r : row) :
  r !! k = None → mentions k (row_json r) = false.
Proof. intros Hk. simpl. by apply mentions_fields. Qed.

Lemma mentions_data (k : string) (o : option row) :
  lacks k o → mentions k (jdata o) = false.
Proof.
  intros Hk. destruct o as [r|]; [| done]. apply mentions_row. by apply Hk.
Qed.

Lemma mentions_rows (k : string) (rs : list row) :
  Forall (λ r, r !! k = None) rs → mentions k (jrows rs) = false.
Proof.
  intros Hall.
  change (mentions k (jrows rs)) with (existsb (mentions k) (row_json <$> rs)).
  induction Hall as [|r rs Hr _ IH]; [done |].
  rewrite fmap_cons. cbn [existsb]. by rewrite (mentions_row _ _ Hr), IH.
Qed.

Lemma project_lacks (k : string) (cs : list string) (r : row) :
  k ∉ cs → project (Cols cs) r !! k = None.
Proof.
  intros Hk. unfold project. apply not_elem_of_list_to_map_1.
  rewrite <- list_fmap_compose. intros Hin.
  apply list_elem_of_fmap in Hin as (c & -> & Hc). done.
Qed.

(** ** Rules for [responds] *)

Section Rules.
Context {A B : Type} (P : response → Prop).

Lemma responds_ret (a : A) (Q : A → Prop) : Q a → responds P (mret a) Q.
Proof. intros Ha d. exact Ha. Qed.

Lemma responds_bind (m : handler A) (k : A → handler B)
    (Q : A → Prop) (R : B → Prop) :
  responds P m Q → (∀ a, Q a → responds P (k a) R) → responds P (m ≫= k) R.
Proof.
  intros Hm Hk d. specialize (Hm d).
  unfold mbind, handler_bind, bind.
  destruct (m d) as [[a | r | x] d']; simpl in *; [| done..].
  by apply Hk.
Qed.

Lemma responds_reply (s : Z) (b : json) (Q : A → Prop) :
  P (mkResponse s b) → responds P (reply s b) Q.
Proof. intros Hr d. exact Hr. Qed.

Lemma responds_throw (x : error) (Q : A → Prop) : responds P (throw x) Q.
Proof. intros d. exact I. Qed.

Lemma responds_weaken (m : handler A) (Q Q' : A → Prop) :
  responds P m Q → (∀ a, Q a → Q' a) → responds P m Q'.
Proof.
  intros Hm HQ d. specialize (Hm d). destruct (m d).1; auto.
Qed.

End Rules.

Lemma responds_reply_if (P : response → Prop) (c : bool) (s : Z) (b : json) :
  P (mkResponse s b) → responds P (reply_if c s b) (λ _, c = false).
Proof. intros Hr d. by destruct c. Qed.

Lemma responds_throw_if (P : response → Prop) (x : option error) :
  responds P (throw_if x) (λ _, True).
Proof. intros d. by destruct x. Qed.

Lemma responds_try_catch (P : response → Prop) (m : handler response)
    (recover : error → response) (d : db) :
  responds P m P → (∀ x, P (recover x)) → P (try_catch m recover d).1.
Proof.
  intros Hm Hrec. specialize (Hm d). unfold try_catch.
  destruct (m d) as [[r | r | x] d']; simpl in *; auto.
Qed.

(** *** The query builder under [responds] *)

Lemma single_lacks (k : string) (rs : list row) :
  Forall (λ r, r !! k = None) rs → lacks k (data (single rs)).
Proof.
  intros Hall r. destruct rs as [|r' [|? ?]]; simpl; try done.
  intros [= <-]. by apply Forall_inv in Hall.
Qed.

Lemma projected_lack (k : string) (cs : list string) (rs : list row) :
  k ∉ cs → Forall (λ r, r !! k = None) (project (Cols cs) <$> rs).
Proof.
  intros Hk. apply Forall_fmap, Forall_forall. intros r _.
  by apply project_lacks.
Qed.

Lemma responds_select_single (P : response → Prop) (k : string) (t : table)
    (cs : list string) (fs : list cond) :
  k ∉ cs → responds P (select_single t (Cols cs) fs) (λ q, lacks k (data q)).
Proof.
  intros Hk d. simpl. unfold query. by apply single_lacks, projected_lack.
Qed.

Lemma responds_select_all (P : response → Prop) (k : string) (t : table)
    (cs : list string) (fs : list cond) (o : option string) (n : option nat) :
  k ∉ cs →
  responds P (select_all t (Cols cs) fs o n) (λ q, all_lack k (data q)).
Proof.
  intros Hk d. simpl. intros rs [= <-]. by apply projected_lack.
Qed.

Lemma responds_update_single (P : response → Prop) (k : string) (t : table)
    (o : literal) (fs : list cond) (cs : list string) :
  k ∉ cs →
  responds P (update_single t o fs (Cols cs)) (λ q, lacks k (data q)).
Proof.
  intros Hk d. unfold update_single.
  destruct (selected fs (rows_of t d)) as [|r [|? ?]]; simpl; try done.
  intros r' [= <-]. by apply project_lacks.
Qed.

Lemma responds_any {A} (P : response → Prop) (m : handler A) :
  (∀ d, match (m d).1 with Reply _ => False | _ => True end) →
  responds P m (λ _, True).
Proof.
  intros Hm d. specialize (Hm d). by destruct (m d).1.
Qed.

(** ** No handler of user rows shows the password hash *)

Ltac not_listed :=
  repeat (apply not_elem_of_cons; split; [done |]); apply not_elem_of_nil.

Ltac quiet :=
  apply responds_any; intros ?;
  unfold hash_password, compare_password, jwt_sign, jwt_verify, Auth.non_null,
    insert_single, select_single, select_all, update_single, mret, handler_ret,
    ret, throw;
  simpl; repeat case_match; done.

(** One step of a handler body. *)
Ltac respond_step :=
  lazymatch goal with
  | |- responds _ (_ ≫= _) _ =>
      eapply responds_bind;
      [ first [ apply responds_reply_if; reflexivity
              | apply responds_throw_if
              | apply (responds_select_single _ "password_hash"); not_listed
              | apply (responds_select_all _ "password_hash"); not_listed
              | apply (responds_update_single _ "password_hash"); not_listed
              | quiet ]
      | intros ? ? ]
  | |- responds _ (reply _ _) _ => apply responds_reply
  | |- responds _ (throw _) _ => apply responds_throw
  | |- responds _ (mret _) _ => apply responds_ret
  | |- responds _ (match ?x with _ => _ end) _ => destruct x eqn:?
  end.

Ltac body_safe :=
  unfold discreet; cbn [body mentions existsb fst snd];
  rewrite ?existsb_app; cbn [existsb fst snd];
  rewrite ?mentions_fields, ?mentions_row, ?mentions_data, ?mentions_rows;
  try reflexivity; try done.

Lemma all_lack_default (k : string) (o : option (list row)) :
  all_lack k o → Forall (λ r, r !! k = None) (default [] o).
Proof. intros Hall. destruct o as [rs|]; [by apply Hall | constructor]. Qed.

Ltac rows_safe :=
  simpl in *;
  first [ by apply all_lack_default
        | by match goal with Hl : lacks _ _ |- _ => apply Hl end
        | apply lookup_delete_eq ].

Section Discretion.
Context `{Bcrypt} `{TokenCodec}.

Lemma register_discreet (e : env) (rq : request) (d : db) :
  discreet (Auth.register e rq d).1.
Proof.
  unfold Auth.register. apply (responds_try_catch discreet); [| reflexivity].
  repeat respond_step.
  body_safe; rows_safe.
Qed.

Lemma login_discreet (e : env) (rq : request) (d : db) :
  discreet (Auth.login e rq d).1.
Proof.
  unfold Auth.login. apply (responds_try_catch discreet); [| reflexivity].
  repeat respond_step; try reflexivity.
  body_safe; rows_safe.
Qed.

Lemma me_catch_discreet (e : env) (x : error) : discreet (Auth.me_catch e x).
Proof.
  unfold Auth.me_catch, discreet. repeat case_match; reflexivity.
Qed.

Lemma me_discreet (e : env) (rq : request) (d : db) :
  discreet (Auth.me e rq d).1.
Proof.
  unfold Auth.me.
  apply (responds_try_catch discreet); [| apply me_catch_discreet].
  repeat respond_step; try reflexivity.
  body_safe; rows_safe.
Qed.

Lemma me_earlier_discreet (e : env) (rq : request) (d : db) :
  discreet (Auth.me_earlier e rq d).1.
Proof.
  unfold Auth.me_earlier.
  apply (responds_try_catch discreet); [| reflexivity].
  repeat respond_step; try reflexivity.
  body_safe; rows_safe.
Qed.

Lemma profile_by_id_discreet (rq : request) (d : db) :
  discreet (Profile.get_by_id rq d).1.
Proof.
  unfold Profile.get_by_id, Profile.sharing_history, Profile.profile_columns.
  apply (responds_try_catch discreet); [| reflexivity].
  repeat respond_step; try reflexivity.
  body_safe; rows_safe.
Qed.

Lemma profile_own_discreet (e : env) (rq : request) (d : db) :
  discreet (Profile.get_own e rq d).1.
Proof.
  unfold Profile.get_own, Profile.sharing_history, Profile.profile_columns.
  apply (responds_try_catch discreet); [| reflexivity].
  repeat respond_step; try reflexivity.
  body_safe; rows_safe.
Qed.

Lemma profile_update_discreet (e : env) (rq : request) (d : db) :
  discreet (Profile.update e rq d).1.
Proof.
  unfold Profile.update, Profile.profile_columns.
  apply (responds_try_catch discreet); [| reflexivity].
  repeat respond_step; try reflexivity.
  body_safe; rows_safe.
Qed.

Lemma upload_image_discreet (e : env) (rq : request) (d : db) :
  discreet (Profile.upload_image e rq d).1.
Proof.
  unfold Profile.upload_image.
  apply (responds_try_catch discreet); [| reflexivity].
  repeat respond_step; try reflexivity.
  body_safe; rows_safe.
Qed.

Lemma delete_image_discreet (e : env) (rq : request) (d : db) :
  discreet (Profile.delete_image e rq d).1.
Proof.
  unfold Profile.delete_image.
  apply (responds_try_catch discreet); [| reflexivity].
  repeat respond_step; try reflexivity.
  body_safe; rows_safe.
Qed.

(** Whatever the request, the store and the environment, no answer of
    register, login, /me (both copies), logout, the two profile reads,
    the profile update, the image upload or the image removal has a key
    [password_hash] anywhere in its body. *)
Lemma no_password_hash_key
    (ep : endpoint) (e : env) (rq : request) (d : db) :
  mentions "password_hash" (body (serve ep e rq d).1) = false.
Proof.
  destruct ep; simpl.
  - apply register_discreet.
  - apply login_discreet.
  - apply me_discreet.
  - apply me_earlier_discreet.
  - reflexivity.
  - apply profile_by_id_discreet.
  - apply profile_own_discreet.
  - apply profile_update_discreet.
  - apply upload_image_discreet.
  - apply delete_image_discreet.
Qed.

End Discretion.

(** * Further properties of the handlers *)

(** ** Creation *)

Lemma selected_app (fs : list cond) (l1 l2 : list row) :
  selected fs (l1 ++ l2) = (selected fs l1 ++ selected fs l2)%list.
Proof. unfold selected. apply filter_app. Qed.

Lemma selected_none (fs : list cond) (rs : list row) :
  (∀ r, r ∈ rs → matches fs r = false) → selected fs rs = [].
Proof.
  intros Hno. induction rs as [|r rs IH]; [done |].
  unfold selected in *. rewrite filter_cons.
  destruct (decide (matches fs r = true)) as [Hm | _].
  - rewrite Hno in Hm; [done | left].
  - apply IH. intros y Hy. apply Hno. by right.
Qed.

Lemma matches_one (r : row) (k : string) (x : jsval) :
  matches [Eq k x] r = true ↔ ∃ v, x = Some v ∧ r !! k = Some v.
Proof.
  unfold matches. cbn [forallb]. rewrite andb_true_r. apply holds_eq.
Qed.

Lemma created_garden_fields (e : env) (rq : request) :
  created_garden e rq !! "id" = Some (fresh_id e)
  ∧ created_garden e rq !! "user_id" = req_user rq !! "id"
  ∧ created_garden e rq !! "name" = req_body rq !! "name"
  ∧ created_garden e rq !! "created_at" = Some (VStr (now_iso e))
  ∧ created_garden e rq !! "updated_at" = Some (VStr (now_iso e)).
Proof.
  unfold created_garden. rewrite lookup_insert_eq.
  rewrite !lookup_insert_ne by done. by literal_lookup.
Qed.

Lemma created_crop_fields (e : env) (rq : request) :
  created_crop e rq !! "id" = Some (fresh_id e)
  ∧ created_crop e rq !! "user_id" = req_user rq !! "id"
  ∧ created_crop e rq !! "garden_id" = req_body rq !! "garden_id"
  ∧ created_crop e rq !! "name" = req_body rq !! "name"
  ∧ created_crop e rq !! "created_at" = Some (VStr (now_iso e))
  ∧ created_crop e rq !! "updated_at" = Some (VStr (now_iso e)).
Proof.
  unfold created_crop. rewrite lookup_insert_eq.
  rewrite !lookup_insert_ne by done. unfold Crops.cropData. by literal_lookup.
Qed.

(** X1.  A row is added to the gardens or to the crops only by the
    creation of that router, one row at most, and the added row has the
    requester as [user_id], the identifier drawn by the store as [id]
    and the time of the request as both stamps, whatever the body
    carries under those keys.  A creation leaves the other tables
    alone. *)
Theorem creations_stamp_owner_id_and_time (e : env) (rq : request) (d : db) :
  let stamped (r : row) :=
    r !! "id" = Some (fresh_id e) ∧ r !! "user_id" = req_user rq !! "id"
    ∧ r !! "created_at" = Some (VStr (now_iso e))
    ∧ r !! "updated_at" = Some (VStr (now_iso e)) in
  let dg := (Gardens.create e rq d).2 in
  let dc := (Crops.create e rq d).2 in
  (dg = d ∨ ∃ g, stamped g ∧ dg = set_rows Gardens (gardens d ++ [g]) d)
  ∧ (dc = d ∨ ∃ c, stamped c ∧ dc = set_rows Crops (crops d ++ [c]) d).
Proof.
  intros stamped dg dc. subst dg dc. split.
  - rewrite gardens_create_run. destruct (negb _); [by left | right].
    exists (created_garden e rq). split; [| done].
    destruct (created_garden_fields e rq) as (? & ? & ? & ? & ?). by repeat split.
  - rewrite crops_create_run. destruct (negb _ || negb _); [by left |].
    destruct (selected _ (gardens d)) as [|g [|? ?]]; try (by left). right.
    exists (created_crop e rq). split; [| done].
    destruct (created_crop_fields e rq) as (? & ? & ? & ? & ? & ?).
    by repeat split.
Qed.

Lemma selected_fresh (rq : request) (rs : list row) (v : value) (r : row) :
  params rq !! "id" = Some v →
  (∀ y, y ∈ rs → y !! "id" ≠ Some v) →
  matches (by_id_and_owner rq) r = true →
  selected (by_id_and_owner rq) (rs ++ [r]) = [r].
Proof.
  intros Hid Hfresh Hm. rewrite selected_app, selected_one, Hm.
  rewrite selected_none; [done |].
  intros y Hy. apply not_true_is_false. intros Hy'.
  unfold by_id_and_owner in Hy'. apply matches_pair in Hy'.
  destruct Hy' as (v1 & v2 & Hv1 & Hy1 & _). rewrite Hid in Hv1.
  injection Hv1 as <-. by apply (Hfresh y).
Qed.

Lemma matches_id_and_owner (rq : request) (r : row) (v u : value) :
  params rq !! "id" = Some v → req_user rq !! "id" = Some u →
  r !! "id" = Some v → r !! "user_id" = Some u →
  matches (by_id_and_owner rq) r = true.
Proof.
  intros Hv Hu Hr1 Hr2. unfold by_id_and_owner.
  apply matches_both. rewrite !matches_one. split; eauto.
Qed.

(** X2.  A garden that has just been created under an identifier no
    stored garden has can be fetched by its creator: the fetch answers
    200 with the row the creation stored. *)
Theorem created_garden_can_be_fetched
    (e : env) (rq rq' : request) (d : db) (u : value) :
  truthy (req_body rq !! "name") = true →
  req_user rq !! "id" = Some u →
  (∀ g, g ∈ gardens d → g !! "id" ≠ Some (fresh_id e)) →
  params rq' !! "id" = Some (fresh_id e) →
  req_user rq' !! "id" = Some u →
  let d' := (Gardens.create e rq d).2 in
  Gardens.get_one rq' d'
  = (mkResponse 200 (JObj [("success", jtrue);
                           ("garden", row_json (created_garden e rq))]), d').
Proof.
  intros Hname Hu Hfresh Hid Hu' d'. subst d'.
  rewrite gardens_create_run, Hname. simpl.
  rewrite gardens_get_run. simpl.
  destruct (created_garden_fields e rq) as (Hgid & Hguid & _).
  rewrite (selected_fresh rq' _ (fresh_id e)); [done | done | done |].
  apply (matches_id_and_owner _ _ (fresh_id e) u); congruence.
Qed.

(** X3.  A crop that has just been created in a garden of the requester,
    under an identifier no stored crop has, can be fetched by its
    creator: the fetch answers 200 with the fields of the stored row
    and the embedded garden. *)
Theorem created_crop_can_be_fetched
    (e : env) (rq rq' : request) (d : db) (u : value) :
  truthy (req_body rq !! "name") = true →
  truthy (req_body rq !! "garden_id") = true →
  garden_is_mine rq d →
  req_user rq !! "id" = Some u →
  (∀ c, c ∈ crops d → c !! "id" ≠ Some (fresh_id e)) →
  params rq' !! "id" = Some (fresh_id e) →
  req_user rq' !! "id" = Some u →
  let d' := (Crops.create e rq d).2 in
  Crops.get_one rq' d'
  = (mkResponse 200
       (JObj [("success", jtrue);
              ("crop", JObj (row_fields (created_crop e rq)
                             ++ [("gardens",
                                   Crops.embedded_garden d' (created_crop e rq))])%list)]),
     d').
Proof.
  intros Hname Hgid Hmine Hu Hfresh Hid Hu' d'. subst d'.
  rewrite crops_create_ok by done. simpl.
  rewrite crops_get_run. simpl.
  destruct (created_crop_fields e rq) as (Hcid & Hcuid & _).
  rewrite (selected_fresh rq' _ (fresh_id e)); [done | done | done |].
  apply (matches_id_and_owner _ _ (fresh_id e) u); congruence.
Qed.

(** ** Deletion, and updates seen again *)

Lemma filter_agree (P Q : row → Prop) `{!∀ x, Decision (P x), !∀ x, Decision (Q x)}
    (rs : list row) :
  (∀ y, y ∈ rs → P y ↔ Q y) → filter P rs = filter Q rs.
Proof.
  intros Hiff. induction rs as [|y rs IH]; [done |].
  rewrite !filter_cons.
  rewrite IH by (intros z Hz; apply Hiff; by right).
  apply decide_ext, Hiff. by left.
Qed.

Lemma delete_rows_one (fs : list cond) (rs : list row) (r : row) :
  selected fs rs = [r] → delete_rows fs rs = filter (λ y, y ≠ r) rs.
Proof.
  intros Hsel. unfold delete_rows. apply filter_agree. intros y Hy.
  destruct (selected_self _ _ _ Hsel) as [_ Hr]. split.
  - intros Hm ->. congruence.
  - intros Hne. apply not_true_is_false. intros Hm.
    apply Hne. by eapply selected_unique.
Qed.

Lemma selected_without (fs : list cond) (rs : list row) (r : row) :
  selected fs rs = [r] → selected fs (filter (λ y, y ≠ r) rs) = [].
Proof.
  intros Hsel. apply selected_none. intros y [Hne Hy]%list_elem_of_filter.
  apply not_true_is_false. intros Hm. apply Hne. by eapply selected_unique.
Qed.

(** X4.  Deleting a garden or crop that belongs to the requester
    answers 200 and removes that row and no other from its table; the
    same request sent again is answered 404 and changes nothing. *)
Theorem deletion_removes_the_row_once
    (x : resource) (rq : request) (d : db) (r : row) :
  mine (table_of x) rq d r →
  let out := del x rq d in
  status out.1 = 200
  ∧ rows_of (table_of x) out.2 = filter (λ y, y ≠ r) (rows_of (table_of x) d)
  ∧ status (del x rq out.2).1 = 404
  ∧ (del x rq out.2).2 = out.2.
Proof.
  intros Hmine out. subst out.
  pose proof (mine_selected _ _ _ _ Hmine) as Hsel. destruct Hmine as [Hid _].
  rewrite (delete_run x rq d), Hsel. simpl.
  rewrite rows_of_set_rows, (delete_rows_one _ _ _ Hid).
  split; [done |]. split; [done |].
  rewrite delete_run, rows_of_set_rows.
  rewrite (selected_without _ _ _ Hsel). done.
Qed.

Lemma selected_cons (fs : list cond) (y : row) (rs : list row) :
  selected fs (y :: rs)
  = if matches fs y then y :: selected fs rs else selected fs rs.
Proof.
  unfold selected. rewrite filter_cons.
  destruct (matches fs y); by case_decide.
Qed.

Lemma update_rows_none (o : row) (fs : list cond) (rs : list row) :
  selected fs rs = [] → update_rows o fs rs = rs.
Proof.
  intros Hsel. induction rs as [|y rs IH]; [done |].
  change (update_rows o fs (y :: rs))
    with ((if matches fs y then patch o y else y) :: update_rows o fs rs).
  rewrite selected_cons in Hsel.
  destruct (matches fs y); [done |]. by rewrite IH.
Qed.

Lemma selected_update_rows (o : row) (fs gs : list cond) (rs : list row) (r : row) :
  selected fs rs = [r] →
  (∀ y, matches gs y = true → matches fs y = true) →
  matches gs (patch o r) = true →
  selected gs (update_rows o fs rs) = [patch o r].
Proof.
  intros Hsel Hsub Hw. induction rs as [|y rs IH]; [done |].
  rewrite selected_cons in Hsel.
  change (update_rows o fs (y :: rs))
    with ((if matches fs y then patch o y else y) :: update_rows o fs rs).
  rewrite selected_cons.
  destruct (matches fs y) eqn:Hm.
  - injection Hsel as -> Hrest. rewrite Hw. f_equal.
    rewrite (update_rows_none _ _ _ Hrest).
    apply selected_none. intros z Hz. apply not_true_is_false. intros Hz'.
    assert (z ∈ selected fs rs) as Hin by (apply selected_elem; auto).
    rewrite Hrest in Hin. by apply elem_of_nil in Hin.
  - destruct (matches gs y) eqn:Hg; [| by apply IH].
    apply Hsub in Hg. congruence.
Qed.

Lemma id_and_owner_by_id (rq : request) (y : row) :
  matches (by_id_and_owner rq) y = true → matches (by_id rq) y = true.
Proof. unfold by_id_and_owner, by_id. by intros [? _]%matches_both. Qed.

Lemma update_object_keeps (x : resource) (e : env) (rq : request) (r y : row)
    (k : string) :
  k = "id" ∨ k = "user_id" →
  patch (update_object x e rq r) y !! k = y !! k.
Proof.
  intros Hk. rewrite patch_lookup.
  destruct x; unfold update_object, Gardens.updateData, Crops.updateData;
    destruct Hk as [-> | ->]; by literal_lookup.
Qed.

Lemma matches_same_keys (rq : request) (y w : row) :
  w !! "id" = y !! "id" → w !! "user_id" = y !! "user_id" →
  matches (by_id_and_owner rq) w = matches (by_id_and_owner rq) y
  ∧ matches (by_id rq) w = matches (by_id rq) y.
Proof.
  intros H1 H2. unfold by_id_and_owner, by_id, matches. cbn [forallb holds].
  destruct (params rq !! "id"), (req_user rq !! "id"); by rewrite ?H1, ?H2.
Qed.

Lemma written_row_is_mine (x : resource) (e : env) (rq : request) (d : db) (r : row) :
  mine (table_of x) rq d r →
  let w := patch (update_object x e rq r) r in
  selected (by_id_and_owner rq) (rows_of (table_of x) (put x e rq d).2) = [w]
  ∧ selected (by_id rq) (rows_of (table_of x) (put x e rq d).2) = [w].
Proof.
  intros Hmine w. pose proof (mine_selected _ _ _ _ Hmine) as Hsel.
  destruct Hmine as [Hid Hown].
  rewrite update_run, Hsel. simpl. rewrite Hid. simpl.
  rewrite rows_of_set_rows.
  destruct (matches_same_keys rq r w) as [Hboth Hone];
    [by apply update_object_keeps; auto.. |].
  destruct (selected_self _ _ _ Hsel) as [_ Hr].
  destruct (selected_self _ _ _ Hid) as [_ Hr'].
  split; apply selected_update_rows; try done.
  - apply id_and_owner_by_id.
  - subst w. by rewrite Hboth.
  - subst w. by rewrite Hone.
Qed.

(** X5.  After an update of a garden or crop of the requester, a fetch
    of the same row by the same requester answers 200 with the row the
    update wrote. *)
Theorem updated_row_can_be_fetched
    (x : resource) (e : env) (rq : request) (d : db) (r : row) :
  mine (table_of x) rq d r →
  let d' := (put x e rq d).2 in
  let w := patch (update_object x e rq r) r in
  get_one x rq d'
  = (mkResponse 200
       (JObj [("success", jtrue);
              match x with
              | Garden => ("garden", row_json w)
              | Crop =>
                  ("crop", JObj (row_fields w
                                 ++ [("gardens", Crops.embedded_garden d' w)])%list)
              end]), d').
Proof.
  intros Hmine d' w.
  destruct (written_row_is_mine x e rq d r Hmine) as [Hsel _].
  subst d'. destruct x; unfold get_one; simpl in *.
  - by rewrite gardens_get_run, Hsel.
  - by rewrite crops_get_run, Hsel.
Qed.

(** ** Updates repeated, and rows of other users *)

Lemma update_object_fixed (x : resource) (e : env) (rq : request) (r w : row) :
  (∀ k, k ∈ or_fields x → w !! k = req_body rq !! k ||| r !! k) →
  (∀ k, k ∈ def_fields x → w !! k = js_def (req_body rq !! k) (r !! k)) →
  w !! "updated_at" = Some (VStr (now_iso e)) →
  patch (update_object x e rq w) w = w.
Proof.
  intros Hor Hdef Hst. apply map_eq. intros k. rewrite patch_lookup.
  destruct (decide (k ∈ "updated_at" :: or_fields x ++ def_fields x)) as [Hin | Hout].
  - destruct x; simpl in Hin;
      repeat (apply elem_of_cons in Hin as [-> | Hin]);
      try (by apply elem_of_nil in Hin);
      unfold update_object, Gardens.updateData, Crops.updateData;
      literal_lookup; rewrite ?project_id_lookup by done;
      lazymatch goal with
      | |- _ = w !! ?k =>
          first [ by rewrite Hst
                | rewrite !(Hor k) by (by repeat constructor);
                  unfold js_or, js_def; repeat case_match; congruence
                | rewrite !(Hdef k) by (by repeat constructor);
                  unfold js_def; repeat case_match; congruence ]
      end.
  - destruct x; unfold update_object, Gardens.updateData, Crops.updateData;
      (rewrite stringify_lookup_notin; [by destruct (w !! k) |]);
      simpl in *; rewrite !not_elem_of_cons in Hout; rewrite !not_elem_of_cons;
      intuition auto using not_elem_of_nil.
Qed.

Lemma written_stamp (x : resource) (e : env) (rq : request) (r : row) :
  patch (update_object x e rq r) r !! "updated_at" = Some (VStr (now_iso e)).
Proof.
  rewrite patch_lookup.
  destruct x; unfold update_object, Gardens.updateData, Crops.updateData;
    by literal_lookup.
Qed.

Lemma update_rows_fixed (o : row) (fs : list cond) (rs : list row) (w : row) :
  selected fs rs = [w] → patch o w = w → update_rows o fs rs = rs.
Proof.
  intros Hsel Hw. induction rs as [|y rs IH]; [done |].
  rewrite selected_cons in Hsel.
  change (update_rows o fs (y :: rs))
    with ((if matches fs y then patch o y else y) :: update_rows o fs rs).
  destruct (matches fs y).
  - injection Hsel as -> Hrest. by rewrite Hw, (update_rows_none _ _ _ Hrest).
  - by rewrite IH.
Qed.

Lemma set_rows_twice (t : table) (rs rs' : list row) (d : db) :
  set_rows t rs (set_rows t rs' d) = set_rows t rs d.
Proof. by destruct t. Qed.

(** X6.  An update of a garden or crop of the requester is idempotent:
    sent a second time at the same instant it gives the same answer
    and leaves the store as the first one left it. *)
Theorem update_twice_is_update_once
    (x : resource) (e : env) (rq : request) (d : db) (r : row) :
  mine (table_of x) rq d r →
  put x e rq (put x e rq d).2 = put x e rq d.
Proof.
  intros Hmine.
  destruct (written_row_is_mine x e rq d r Hmine) as [Hboth Hone].
  set (w := patch (update_object x e rq r) r) in *.
  assert (patch (update_object x e rq w) w = w) as Hfix.
  { apply (update_object_fixed x e rq r).
    - intros k Hk. by apply merged_or.
    - intros k Hk. by apply merged_def.
    - apply written_stamp. }
  rewrite (update_run x e rq (put x e rq d).2), Hboth. simpl.
  rewrite Hone. simpl. rewrite Hfix, (update_rows_fixed _ _ _ _ Hone Hfix).
  pose proof (mine_selected _ _ _ _ Hmine) as Hsel. destruct Hmine as [Hid _].
  rewrite (update_run x e rq d), Hsel. simpl. rewrite Hid. simpl.
  rewrite rows_of_set_rows, set_rows_twice. done.
Qed.

Lemma owner_of_selected (rq : request) (rs : list row) (r : row) :
  selected (by_id_and_owner rq) rs = [r] →
  r ∈ rs ∧ matches (by_id rq) r = true ∧ is_Some (r !! "id")
  ∧ r !! "user_id" = req_user rq !! "id".
Proof.
  intros Hsel. apply selected_self in Hsel as [Hin Hm].
  split; [done |]. split; [by apply id_and_owner_by_id |].
  unfold by_id_and_owner in Hm. apply matches_pair in Hm.
  destruct Hm as (v1 & v2 & _ & Hid & Hu & Huid). split; [eauto | congruence].
Qed.

(** X7.  A row of another user is out of reach of the write handlers of
    gardens and crops: an update request leaves every row whose
    [user_id] is not the requester's where and as it was, and so does a
    deletion request when rows that share an identifier share their
    owner. *)
Theorem writes_leave_rows_of_others
    (x : resource) (e : env) (rq : request) (d : db) (i : nat) (y : row) :
  rows_of (table_of x) d !! i = Some y →
  y !! "user_id" ≠ req_user rq !! "id" →
  rows_of (table_of x) (put x e rq d).2 !! i = Some y
  ∧ (one_owner_per_id (rows_of (table_of x) d) →
     y ∈ rows_of (table_of x) (del x rq d).2).
Proof.
  intros Hy Hother.
  assert (y ∈ rows_of (table_of x) d) as Hin
    by (apply list_elem_of_lookup; eauto).
  split.
  - rewrite update_run.
    destruct (selected (by_id_and_owner rq) _) as [|r [|? ?]] eqn:Hsel; try done.
    destruct (selected (by_id rq) _) as [|y0 [|? ?]] eqn:Hid; try done.
    simpl. rewrite rows_of_set_rows, (update_rows_lookup _ _ _ _ _ Hy).
    destruct (matches (by_id rq) y) eqn:Hm; [| done].
    destruct (owner_of_selected _ _ _ Hsel) as (Hr & Hrm & _ & Hru).
    rewrite (selected_unique _ _ _ _ Hid Hin Hm) in Hother.
    rewrite <- (selected_unique _ _ _ _ Hid Hr Hrm) in Hother. done.
  - intros Huniq. rewrite delete_run.
    destruct (selected (by_id_and_owner rq) _) as [|r [|? ?]] eqn:Hsel; try done.
    simpl. rewrite rows_of_set_rows. unfold delete_rows.
    apply list_elem_of_filter. split; [| done].
    apply not_true_is_false. intros Hm.
    destruct (owner_of_selected _ _ _ Hsel) as (Hr & Hrm & Hsome & Hru).
    apply Hother. rewrite <- Hru. symmetry. apply Huniq; try done.
    unfold by_id in *. apply matches_one in Hm as (v & Hv & Hyv).
    apply matches_one in Hrm as (v' & Hv' & Hrv). congruence.
Qed.

(** ** Listings *)

Lemma value_lt_asym (x y : jsval) : value_lt x y = true → value_lt y x = false.
Proof.
  destruct x as [[|a|a|a]|], y as [[|b|b|b]|]; simpl; try done.
  - by destruct a, b.
  - intros Hlt. apply Z.ltb_lt in Hlt. apply Z.ltb_ge. lia.
  - unfold String.ltb. rewrite (String.compare_antisym a b).
    by destruct (String.compare b a).
Qed.

Lemma insert_desc_perm (k : string) (x : row) (rs : list row) :
  insert_desc k x rs ≡ₚ x :: rs.
Proof.
  induction rs as [|y rs IH]; [done |]. simpl.
  destruct (value_lt _ _); [| done].
  rewrite IH. apply perm_swap.
Qed.

Lemma order_desc_perm (k : string) (rs : list row) : order_desc k rs ≡ₚ rs.
Proof.
  induction rs as [|x rs IH]; [done |].
  unfold order_desc in *. simpl. by rewrite insert_desc_perm, IH.
Qed.

Lemma insert_desc_sorted (k : string) (x : row) (rs : list row) :
  descending k rs → descending k (insert_desc k x rs).
Proof.
  unfold descending. induction rs as [|y rs IH]; intros Hs.
  - repeat constructor.
  - simpl. destruct (value_lt (x !! k) (y !! k)) eqn:Hlt.
    + apply Sorted_inv in Hs as [Hs Hhd]. constructor; [by apply IH |].
      destruct rs as [|z rs]; simpl.
      * constructor. by apply value_lt_asym.
      * apply HdRel_inv in Hhd.
        destruct (value_lt (x !! k) (z !! k));
          constructor; [done | by apply value_lt_asym].
    + constructor; [done | by constructor].
Qed.

Lemma order_desc_sorted (k : string) (rs : list row) :
  descending k (order_desc k rs).
Proof.
  induction rs as [|x rs IH]; [constructor |].
  unfold order_desc in *. simpl. by apply insert_desc_sorted.
Qed.

(** X8.  The listing of gardens or crops answers 200 with the rows of
    the requester and only those, each once, newest first by
    [created_at], with their number as count; the store is left as it
    was. *)
Theorem listing_is_the_requesters_rows_newest_first
    (x : resource) (rq : request) (d : db) :
  ∃ rs,
    list_all x rq d
    = (mkResponse 200
         (JObj [("success", jtrue); ("count", jcount rs);
                (match x with Garden => "gardens" | Crop => "crops" end,
                  jrows rs)]), d)
    ∧ rs ≡ₚ selected [Eq "user_id" (req_user rq !! "id")] (rows_of (table_of x) d)
    ∧ descending "created_at" rs.
Proof.
  exists (order_desc "created_at"
            (selected [Eq "user_id" (req_user rq !! "id")] (rows_of (table_of x) d))).
  split; [| split; [apply order_desc_perm | apply order_desc_sorted]].
  destruct x; unfold list_all, Gardens.list_all, Crops.list_all;
    run_handler; by rewrite project_star.
Qed.

(** X9.  On a store where every crop points to a garden of its own
    user and gardens that share an identifier share their owner, the
    listing of the crops of a garden leaves the store as it was and
    either answers 404 or answers 200 with crops that all point to the
    garden asked for and all belong to the requester. *)
Theorem crops_of_a_garden_are_the_requesters (rq : request) (d : db) :
  crops_match_gardens d →
  one_owner_per_id (gardens d) →
  let out := Crops.list_by_garden rq d in
  out.2 = d
  ∧ (out.1 = mkResponse 404 (fail_body "Garden not found or access denied")
     ∨ ∃ rs,
         out.1 = mkResponse 200 (JObj [("success", jtrue); ("count", jcount rs);
                                       ("crops", jrows rs)])
         ∧ ∀ c, c ∈ rs →
             c !! "garden_id" = params rq !! "gardenId"
             ∧ c !! "user_id" = req_user rq !! "id").
Proof.
  intros Hinv Huniq out. subst out. unfold Crops.list_by_garden. run_handler.
  destruct (selected _ (gardens d)) as [|g [|? ?]] eqn:Hsel; simpl;
    try (split; [done | by left]).
  split; [done | right]. rewrite project_star. eexists. split; [done |].
  intros c Hc. rewrite order_desc_perm in Hc.
  apply selected_elem in Hc as [Hc Hm].
  apply matches_one in Hm as (v & Hv & Hcg). split; [congruence |].
  apply selected_self in Hsel as [Hg Hgm].
  apply matches_pair in Hgm as (v' & u & Hv' & Hgid & Hu & Hguid).
  destruct (Hinv c Hc) as (g' & gid & uid & Hg' & Hc1 & Hg1 & Hc2 & Hg2).
  rewrite Hc2, Hu, <- Hguid, <- Hg2.
  apply (Huniq g' g Hg' Hg); [eauto | congruence].
Qed.

(** ** Handlers that only read *)

Lemma idle_bind {A B} (m : handler A) (k : A → handler B) :
  idle m → (∀ a, idle (k a)) → idle (m ≫= k).
Proof.
  intros Hm Hk d. specialize (Hm d). unfold mbind, handler_bind, bind.
  destruct (m d) as [[a | r | x] d']; simpl in *; subst; [apply Hk | done..].
Qed.

Lemma idle_try_catch (m : handler response) (recover : error → response) (d : db) :
  idle m → (try_catch m recover d).2 = d.
Proof.
  intros Hm. specialize (Hm d). unfold try_catch.
  by destruct (m d) as [[r | r | x] d'].
Qed.

Ltac idle_leaf :=
  intros ?;
  unfold hash_password, compare_password, jwt_sign, jwt_verify, Auth.non_null,
    select_single, select_all, Crops.select_single_embedded, reply_if, throw_if,
    reply, throw, mret, handler_ret, ret;
  simpl; repeat case_match; done.

Ltac idle_step :=
  lazymatch goal with
  | |- idle (_ ≫= _) => apply idle_bind; [| intros ?]
  | |- idle (match ?x with _ => _ end) => destruct x
  | |- idle _ => idle_leaf
  end.

Section Readers.
Context `{Bcrypt} `{TokenCodec}.

(** X10.  The listings, the fetches, login, [/me] in both copies,
    logout and the two profile reads never write: whatever they answer,
    the store is as it was. *)
Theorem readers_never_write (h : reader) (e : env) (rq : request) (d : db) :
  (read h e rq d).2 = d.
Proof.
  destruct h; simpl; try reflexivity;
    unfold Gardens.list_all, Gardens.get_one, Crops.list_all,
      Crops.list_by_garden, Crops.get_one, Auth.login, Auth.me, Auth.me_earlier,
      Profile.get_by_id, Profile.get_own, Profile.sharing_history;
    apply idle_try_catch; repeat idle_step.
Qed.

End Readers.

(** ** Registration, and what follows it *)

Section Registration.
Context `{Bcrypt} `{TokenCodec}.

Lemma register_run (e : env) (rq : request) (d : db) :
  Auth.register e rq d
  = if negb (truthy (req_body rq !! "email"))
       || negb (truthy (req_body rq !! "password"))
       || negb (truthy (req_body rq !! "name"))
    then (mkResponse 400 (err_body "Email, password, and name are required"), d)
    else
      match selected [Eq "email" (req_body rq !! "email")] (users d) with
      | [u] => (mkResponse 400 (err_body "User already exists"), d)
      | _ =>
          match req_body rq !! "password" with
          | Some (VStr p) =>
              let r := registered e rq p in
              if violates Users r d
              then (mkResponse 500 (err_body "Error creating user"), d)
              else
                let d' := set_rows Users (users d ++ [r]) d in
                match JWT_SECRET e with
                | Some k =>
                    (mkResponse 201
                       (JObj [("message", jstr "User registered successfully");
                              ("user", row_json (Auth.userWithoutPassword r));
                              ("token", jstr (jwt_encode (issued e r k)))]), d')
                | None => (mkResponse 500 (err_body "Internal server error"), d')
                end
          | _ => (mkResponse 500 (err_body "Internal server error"), d)
          end
      end.
Proof.
  unfold Auth.register. run_handler.
  destruct (negb _ || negb _ || negb _); simpl; [done |]. rewrite project_star.
  destruct (selected _ (users d)) as [|u [|? ?]]; simpl; try done;
    unfold hash_password;
    destruct (req_body rq !! "password") as [[| | |p]|]; simpl; try done.
  all: unfold violates, registered; cbv zeta;
    destruct (existsb _ (users d)); simpl; try done;
    unfold jwt_sign; by destruct (JWT_SECRET e).
Qed.

(** X11.  A registration that lacks e-mail, password or name, or whose
    e-mail is that of a stored user, is answered 400 and stores
    nothing. *)
Theorem registration_refused (e : env) (rq : request) (d : db) :
  let missing := negb (truthy (req_body rq !! "email"))
                 || negb (truthy (req_body rq !! "password"))
                 || negb (truthy (req_body rq !! "name")) in
  missing = true
  ∨ (∃ u, selected [Eq "email" (req_body rq !! "email")] (users d) = [u]) →
  Auth.register e rq d
  = (mkResponse 400
       (err_body (if missing then "Email, password, and name are required"
                  else "User already exists")), d).
Proof.
  intros missing Hcase. rewrite register_run. fold missing.
  destruct missing; [done |]. destruct Hcase as [? | [u Hu]]; [done |].
  by rewrite Hu.
Qed.






(** X14.  The token of a successful login, sent as 'Bearer <token>'
    before seven days have passed and under the same secret, makes
    [/me] answer 200 with the six public columns of the user it was
    issued for, as long as that user is the one stored row with its
    identifier.  The token is assumed to survive its trip through the
    library's text format and to be one word. *)
Theorem login_token_opens_me
    (e e' : env) (rq rq' : request) (d : db) (u : row) (k : string) :
  login_success e rq d u k →
  let tok := jwt_encode (issued e u k) in
  jwt_decode tok = Some (issued e u k) →
  spaceless tok = true → tok ≠ "" →
  selected [Eq "id" (u !! "id")] (users d) = [u] →
  JWT_SECRET e' = Some k →
  (now_sec e' < now_sec e + seven_days)%Z →
  authorization rq' = Some ("Bearer " ++ tok) →
  Auth.me e' rq' d
  = (mkResponse 200
       (JObj [("success", jtrue);
              ("user",
                row_json (project (Cols ["id"; "email"; "name"; "phone";
                                         "created_at"; "updated_at"]) u))]), d).
Proof.
  intros _ tok Hdec Hsp Hne Hsel Hk Hnow Hh.
  rewrite (me_presents e' rq' d tok) by by apply bearer_presents.
  unfold me_with_token, jwt_verify. run_handler.
  rewrite Hdec, Hk. simpl. rewrite String.eqb_refl. simpl.
  rewrite lookup_insert_eq.
  destruct (Z.leb_spec (now_sec e + seven_days) (now_sec e')); [lia |]. simpl.
  rewrite lookup_insert_ne, lookup_insert_ne by done.
  assert (stringify (Auth.claims u) !! "id" = u !! "id") as ->.
  { unfold Auth.claims. by literal_lookup. }
  by rewrite Hsel.
Qed.

(** X15.  The earlier copy of [/me] takes the second word of any
    Authorization header as the token, whatever the scheme, and answers
    500, not 401, whenever the verification of that token throws. *)
Theorem earlier_me_answers_500_to_a_bad_token
    (e : env) (rq : request) (d : db) (h tok : string) (x : error) :
  authorization rq = Some h →
  js_split " " h !! 1%nat = Some tok → tok ≠ "" →
  (jwt_verify tok (JWT_SECRET e) (now_sec e) d).1 = Raise x →
  Auth.me_earlier e rq d
  = (mkResponse 500 (err_body "Internal server error"), d).
Proof.
  intros Hh Htok Hne Hthrow. unfold Auth.me_earlier. run_handler.
  rewrite Hh. simpl. rewrite Htok. simpl.
  destruct (String.eqb_spec tok ""); [done |]. simpl.
  unfold jwt_verify in *.
  destruct (jwt_decode tok) as [t|]; [| done].
  destruct (JWT_SECRET e) as [k|]; [| done].
  destruct (negb _); [done |].
  destruct (payload t !! "exp") as [[| | exp |]|]; try done.
  by destruct (Z.leb exp (now_sec e)).
Qed.

(** X16.  The deletion of the account of user [v] answers 200 and
    leaves no user row with that identifier in the store, the other
    rows staying; a token that still verifies for [v] then gets 404
    from [/me]. *)
Theorem deleted_account_is_gone
    (rq rq' : request) (d : db) (e' : env) (t : jwt) (k : string) (v : value) :
  req_user rq !! "id" = Some v →
  payload t !! "id" = Some v →
  parses e' rq' t k → verifies e' t k →
  let out := Account.delete_account rq d in
  status out.1 = 200
  ∧ users out.2 = filter (λ u, u !! "id" ≠ Some v) (users d)
  ∧ Auth.me e' rq' out.2 = (me_answer No_user, out.2).
Proof.
  intros Hv Hid Hparse Hver out. subst out.
  unfold Account.delete_account. run_handler. rewrite Hv.
  split; [done |].
  assert (delete_rows [Eq "id" (Some v)] (users d)
          = filter (λ u, u !! "id" ≠ Some v) (users d)) as Hdel.
  { unfold delete_rows. apply filter_agree. intros u _.
    rewrite <- not_true_iff_false, matches_one. split.
    - intros Hno Hu. apply Hno. eauto.
    - intros Hu (w & [= <-] & Hw). done. }
  rewrite Hdel. split; [done |].
  apply (me_refused No_user). simpl. exists t, k. split; [done |].
  split; [done |]. simpl. rewrite Hid. apply selected_none.
  intros u [Hu _]%list_elem_of_filter. apply not_true_is_false.
  intros (w & [= <-] & Hw)%matches_one. done.
Qed.

End Registration.

(** ** The answers do not depend on the hashes *)

Lemma like_fmap (l1 l2 : list row) :
  Forall2 like l1 l2
  ↔ Auth.userWithoutPassword <$> l1 = Auth.userWithoutPassword <$> l2.
Proof. rewrite list_eq_Forall2, Forall2_fmap. done. Qed.

Lemma alike_users (d1 d2 : db) :
  hashless d1 = hashless d2 → Forall2 like (users d1) (users d2).
Proof. intros [= Hu _ _]. by apply like_fmap. Qed.

Lemma alike_others (d1 d2 : db) :
  hashless d1 = hashless d2 → gardens d1 = gardens d2 ∧ crops d1 = crops d2.
Proof. by intros [= _ Hg Hc]. Qed.

Lemma alike_set_users (d1 d2 : db) (rs1 rs2 : list row) :
  hashless d1 = hashless d2 → Forall2 like rs1 rs2 →
  hashless (set_rows Users rs1 d1) = hashless (set_rows Users rs2 d2).
Proof.
  intros [= _ Hg Hc] Hrs. apply like_fmap in Hrs.
  unfold hashless. simpl. by rewrite Hrs, Hg, Hc.
Qed.

Lemma like_lookup (r1 r2 : row) (k : string) :
  like r1 r2 → k ≠ "password_hash" → r1 !! k = r2 !! k.
Proof.
  intros Hlike Hk. unfold like, Auth.userWithoutPassword in Hlike.
  rewrite <- (lookup_delete_ne r1 "password_hash" k) by done.
  rewrite <- (lookup_delete_ne r2 "password_hash" k) by done.
  by rewrite Hlike.
Qed.

Lemma holds_like (r1 r2 : row) (f : cond) :
  like r1 r2 → cond_key f ≠ "password_hash" → holds r1 f = holds r2 f.
Proof.
  intros Hlike Hk. destruct f as [k [v|] | k [v|]]; simpl in *; try done;
    by rewrite (like_lookup r1 r2 k).
Qed.

Lemma matches_like (fs : list cond) (r1 r2 : row) :
  Forall (λ f, cond_key f ≠ "password_hash") fs → like r1 r2 →
  matches fs r1 = matches fs r2.
Proof.
  intros Hfs Hlike. unfold matches.
  induction Hfs as [|f fs Hf _ IH]; [done |].
  simpl. by rewrite (holds_like r1 r2 f), IH.
Qed.

Lemma selected_like (fs : list cond) (rs1 rs2 : list row) :
  Forall (λ f, cond_key f ≠ "password_hash") fs →
  Forall2 like rs1 rs2 → Forall2 like (selected fs rs1) (selected fs rs2).
Proof.
  intros Hfs Hrs. induction Hrs as [|r1 r2 rs1 rs2 Hr _ IH]; [constructor |].
  rewrite !selected_cons, (matches_like fs r1 r2) by done.
  destruct (matches fs r2); [by constructor | done].
Qed.

Lemma project_like (cs : list string) (r1 r2 : row) :
  "password_hash" ∉ cs → like r1 r2 →
  project (Cols cs) r1 = project (Cols cs) r2.
Proof.
  intros Hcs Hlike. unfold project. f_equal.
  apply list_fmap_ext. intros i k Hk.
  rewrite (like_lookup r1 r2 k); [done | done |].
  intros ->. apply Hcs. by eapply list_elem_of_lookup_2.
Qed.

Lemma query_like (t : table) (cs : list string) (fs : list cond) (d1 d2 : db) :
  "password_hash" ∉ cs →
  Forall (λ f, cond_key f ≠ "password_hash") fs →
  hashless d1 = hashless d2 →
  query t (Cols cs) fs d1 = query t (Cols cs) fs d2.
Proof.
  intros Hcs Hfs Hd. unfold query.
  destruct (alike_others _ _ Hd) as [Hg Hc].
  destruct t; simpl; rewrite ?Hg, ?Hc; try done.
  apply list_eq_Forall2, Forall2_fmap.
  eapply Forall2_impl; [apply selected_like; [done | by apply alike_users] |].
  intros r1 r2 Hr. by apply project_like.
Qed.

Lemma like_patch (o r1 r2 : row) : like r1 r2 → like (patch o r1) (patch o r2).
Proof.
  unfold like, Auth.userWithoutPassword, patch. intros Hr.
  by rewrite !delete_union, Hr.
Qed.

Lemma like_shape (l1 l2 : list row) :
  Forall2 like l1 l2 →
  (l1 = [] ∧ l2 = [])
  ∨ (∃ u1 u2, l1 = [u1] ∧ l2 = [u2] ∧ like u1 u2)
  ∨ (∃ a1 b1 m1 a2 b2 m2, l1 = a1 :: b1 :: m1 ∧ l2 = a2 :: b2 :: m2).
Proof.
  intros Hl. destruct Hl as [|u1 u2 l1 l2 Hu Hl]; [by left |].
  destruct Hl as [|b1 b2 l1 l2 Hb Hl]; right; [left | right]; eauto 10.
Qed.

(** *** Rules for [steady] *)

Lemma steady_pure {A} (m : handler A) :
  (∀ d1 d2, (m d1).1 = (m d2).1) → (∀ d, (m d).2 = d) → steady m.
Proof. intros Hval Hst d1 d2 Hd. by rewrite !Hst. Qed.

Lemma steady_bind {A B} (m : handler A) (k : A → handler B) :
  steady m → (∀ a, steady (k a)) → steady (m ≫= k).
Proof.
  intros Hm Hk d1 d2 Hd. destruct (Hm d1 d2 Hd) as [Hval Hst].
  unfold mbind, handler_bind, bind.
  destruct (m d1) as [[a | r | x] d1'], (m d2) as [[b | r' | y] d2'];
    simpl in *; try discriminate Hval.
  - injection Hval as ->. by apply Hk.
  - injection Hval as ->. done.
  - injection Hval as ->. done.
Qed.

Lemma steady_try_catch (m : handler response) (recover : error → response)
    (d1 d2 : db) :
  steady m → hashless d1 = hashless d2 →
  (try_catch m recover d1).1 = (try_catch m recover d2).1
  ∧ hashless (try_catch m recover d1).2 = hashless (try_catch m recover d2).2.
Proof.
  intros Hm Hd. destruct (Hm d1 d2 Hd) as [Hval Hst]. unfold try_catch.
  destruct (m d1) as [[a | r | x] d1'], (m d2) as [[b | r' | y] d2'];
    simpl in *; try discriminate Hval; injection Hval as ->; done.
Qed.

Lemma steady_select_single (t : table) (cs : list string) (fs : list cond) :
  "password_hash" ∉ cs →
  Forall (λ f, cond_key f ≠ "password_hash") fs →
  steady (select_single t (Cols cs) fs).
Proof.
  intros Hcs Hfs d1 d2 Hd. unfold select_single. simpl.
  by rewrite (query_like t cs fs d1 d2).
Qed.

Lemma steady_select_all (t : table) (c : columns) (fs : list cond)
    (k : option string) (n : option nat) :
  t ≠ Users → steady (select_all t c fs k n).
Proof.
  intros Ht d1 d2 Hd. unfold select_all. simpl.
  destruct (alike_others _ _ Hd) as [Hg Hc].
  destruct t; simpl; by rewrite ?Hg, ?Hc.
Qed.

Lemma steady_update_single (o : literal) (cs : list string) (fs : list cond) :
  "password_hash" ∉ cs →
  Forall (λ f, cond_key f ≠ "password_hash") fs →
  steady (update_single Users o fs (Cols cs)).
Proof.
  intros Hcs Hfs d1 d2 Hd. unfold update_single. simpl.
  pose proof (alike_users _ _ Hd) as Hu.
  destruct (like_shape _ _ (selected_like fs _ _ Hfs Hu))
    as [[-> ->] | [(u1 & u2 & -> & -> & Hlike)
                  | (a1 & b1 & m1 & a2 & b2 & m2 & -> & ->)]];
    simpl; [done | | done].
  split.
  - by rewrite (project_like cs _ _ Hcs (like_patch (stringify o) _ _ Hlike)).
  - apply alike_set_users; [done |]. unfold update_rows.
    apply Forall2_fmap. eapply Forall2_impl; [exact Hu |].
    intros r1 r2 Hr. simpl. rewrite (matches_like fs r1 r2) by done.
    destruct (matches fs r2); [by apply like_patch | done].
Qed.

Ltac keys_ok := repeat (apply Forall_cons_2; [done |]); apply Forall_nil_2.

(** A step that does not look at the store. *)
Ltac still :=
  apply steady_pure; intros;
  unfold jwt_verify, jwt_sign, reply_if, throw_if, reply, throw, mret,
    handler_ret, ret;
  repeat case_match; done.

Ltac steady_step :=
  lazymatch goal with
  | |- steady (_ ≫= _) =>
      apply steady_bind;
      [ first [ apply steady_select_single; [not_listed | keys_ok]
              | apply steady_select_all; done
              | apply steady_update_single; [not_listed | keys_ok]
              | still ]
      | intros ? ]
  | |- steady (match ?x with _ => _ end) => destruct x eqn:?
  | |- steady _ => still
  end.

Section Steady.
Context `{TokenCodec}.

Lemma me_steady (e : env) (rq : request) : 
  ∀ d1 d2, hashless d1 = hashless d2 →
  (Auth.me e rq d1).1 = (Auth.me e rq d2).1
  ∧ hashless (Auth.me e rq d1).2 = hashless (Auth.me e rq d2).2.
Proof.
  intros d1 d2 Hd. unfold Auth.me. apply steady_try_catch; [| done].
  repeat steady_step.
Qed.

Lemma me_earlier_steady (e : env) (rq : request) :
  ∀ d1 d2, hashless d1 = hashless d2 →
  (Auth.me_earlier e rq d1).1 = (Auth.me_earlier e rq d2).1
  ∧ hashless (Auth.me_earlier e rq d1).2 = hashless (Auth.me_earlier e rq d2).2.
Proof.
  intros d1 d2 Hd. unfold Auth.me_earlier. apply steady_try_catch; [| done].
  repeat steady_step.
Qed.

End Steady.

Lemma profile_by_id_steady (rq : request) :
  ∀ d1 d2, hashless d1 = hashless d2 →
  (Profile.get_by_id rq d1).1 = (Profile.get_by_id rq d2).1
  ∧ hashless (Profile.get_by_id rq d1).2 = hashless (Profile.get_by_id rq d2).2.
Proof.
  intros d1 d2 Hd.
  unfold Profile.get_by_id, Profile.sharing_history, Profile.profile_columns.
  apply steady_try_catch; [| done].
  repeat steady_step.
Qed.

Lemma profile_own_steady (e : env) (rq : request) :
  ∀ d1 d2, hashless d1 = hashless d2 →
  (Profile.get_own e rq d1).1 = (Profile.get_own e rq d2).1
  ∧ hashless (Profile.get_own e rq d1).2 = hashless (Profile.get_own e rq d2).2.
Proof.
  intros d1 d2 Hd.
  unfold Profile.get_own, Profile.sharing_history, Profile.profile_columns.
  apply steady_try_catch; [| done].
  repeat steady_step.
Qed.

Lemma profile_update_steady (e : env) (rq : request) :
  ∀ d1 d2, hashless d1 = hashless d2 →
  (Profile.update e rq d1).1 = (Profile.update e rq d2).1
  ∧ hashless (Profile.update e rq d1).2 = hashless (Profile.update e rq d2).2.
Proof.
  intros d1 d2 Hd. unfold Profile.update, Profile.profile_columns.
  apply steady_try_catch; [| done].
  repeat steady_step.
Qed.

Lemma upload_image_steady (e : env) (rq : request) :
  ∀ d1 d2, hashless d1 = hashless d2 →
  (Profile.upload_image e rq d1).1 = (Profile.upload_image e rq d2).1
  ∧ hashless (Profile.upload_image e rq d1).2
    = hashless (Profile.upload_image e rq d2).2.
Proof.
  intros d1 d2 Hd. unfold Profile.upload_image.
  apply steady_try_catch; [| done].
  repeat steady_step.
Qed.

Lemma delete_image_steady (e : env) (rq : request) :
  ∀ d1 d2, hashless d1 = hashless d2 →
  (Profile.delete_image e rq d1).1 = (Profile.delete_image e rq d2).1
  ∧ hashless (Profile.delete_image e rq d1).2
    = hashless (Profile.delete_image e rq d2).2.
Proof.
  intros d1 d2 Hd. unfold Profile.delete_image.
  apply steady_try_catch; [| done].
  repeat steady_step.
Qed.

(** *** Register and login, under two hashing libraries *)

Lemma registered_like (B1 B2 : Bcrypt) (e : env) (rq : request) (p : string) :
  like (@registered B1 e rq p) (@registered B2 e rq p).
Proof.
  unfold like, Auth.userWithoutPassword. apply map_eq. intros k.
  destruct (decide (k = "password_hash")) as [-> | Hk].
  { by rewrite !lookup_delete_eq. }
  rewrite !lookup_delete_ne by done. unfold registered.
  destruct (decide (k = "id")) as [-> | Hid].
  { by rewrite !lookup_insert_eq. }
  rewrite !lookup_insert_ne by done. literal_lookup.
  repeat case_decide; congruence.
Qed.

Lemma claims_like (u1 u2 : row) : like u1 u2 → Auth.claims u1 = Auth.claims u2.
Proof.
  intros Hu. unfold Auth.claims.
  by rewrite !(like_lookup u1 u2) by done.
Qed.

Lemma issued_like `{TokenCodec} (e : env) (u1 u2 : row) (k : string) :
  like u1 u2 → issued e u1 k = issued e u2 k.
Proof. intros Hu. unfold issued. by rewrite (claims_like u1 u2). Qed.

Lemma existsb_like (f1 f2 : row → bool) (l1 l2 : list row) :
  Forall2 like l1 l2 → (∀ u1 u2, like u1 u2 → f1 u1 = f2 u2) →
  existsb f1 l1 = existsb f2 l2.
Proof.
  intros Hl Hf. induction Hl as [|u1 u2 l1 l2 Hu _ IH]; [done |].
  simpl. by rewrite (Hf u1 u2), IH.
Qed.

Lemma violates_like (d1 d2 : db) (r1 r2 : row) :
  hashless d1 = hashless d2 → like r1 r2 →
  violates Users r1 d1 = violates Users r2 d2.
Proof.
  intros Hd Hr. simpl. apply existsb_like; [by apply alike_users |].
  intros u1 u2 Hu.
  by rewrite (like_lookup u1 u2), (like_lookup r1 r2).
Qed.

Lemma register_steady (B1 B2 : Bcrypt) (T : TokenCodec)
    (e : env) (rq : request) (d1 d2 : db) :
  hashless d1 = hashless d2 →
  (@Auth.register B1 T e rq d1).1 = (@Auth.register B2 T e rq d2).1
  ∧ hashless (@Auth.register B1 T e rq d1).2
    = hashless (@Auth.register B2 T e rq d2).2.
Proof.
  intros Hd. rewrite (@register_run B1 T), (@register_run B2 T).
  destruct (negb _ || negb _ || negb _); [done |].
  pose proof (alike_users _ _ Hd) as Hu.
  destruct (like_shape _ _
              (selected_like [Eq "email" (req_body rq !! "email")] _ _
                 ltac:(keys_ok) Hu))
    as [[-> ->] | [(u1 & u2 & -> & -> & Hlike)
                  | (a1 & b1 & m1 & a2 & b2 & m2 & -> & ->)]];
    [| done |];
    (destruct (req_body rq !! "password") as [[| | |p]|]; try done);
    pose proof (registered_like B1 B2 e rq p) as Hr; cbv zeta;
    rewrite (violates_like d1 d2 _ _ Hd Hr);
    (destruct (violates Users _ d2); [done |]);
    (assert (hashless (set_rows Users (users d1 ++ [@registered B1 e rq p]) d1)
             = hashless (set_rows Users (users d2 ++ [@registered B2 e rq p]) d2))
       as Hpost
       by (apply alike_set_users; [done |];
           apply Forall2_app; [done | by constructor]));
    (destruct (JWT_SECRET e) as [k|]; simpl; [| done]);
    rewrite (issued_like e _ _ k Hr); by rewrite Hr.
Qed.

Lemma login_steady (B1 B2 : Bcrypt) (T : TokenCodec)
    (e : env) (rq : request) (d1 d2 : db) :
  hashless d1 = hashless d2 →
  @verdict B1 rq d1 = @verdict B2 rq d2 →
  (@Auth.login B1 T e rq d1).1 = (@Auth.login B2 T e rq d2).1
  ∧ hashless (@Auth.login B1 T e rq d1).2
    = hashless (@Auth.login B2 T e rq d2).2.
Proof.
  intros Hd Hv. rewrite (@login_run B1 T), (@login_run B2 T).
  destruct (negb _ || negb _); [done |].
  pose proof (alike_users _ _ Hd) as Hu. unfold verdict in Hv.
  destruct (like_shape _ _
              (selected_like [Eq "email" (req_body rq !! "email")] _ _
                 ltac:(keys_ok) Hu))
    as [[H1 H2] | [(u1 & u2 & H1 & H2 & Hlike)
                  | (a1 & b1 & m1 & a2 & b2 & m2 & H1 & H2)]];
    rewrite H1, H2 in *; [done | | done].
  injection Hv as Hv. unfold compare_password in Hv.
  destruct (req_body rq !! "password") as [[| | |p]|]; try done;
    destruct (u1 !! "password_hash") as [[| | |h1]|];
    destruct (u2 !! "password_hash") as [[| | |h2]|]; try done.
  injection Hv as ->.
  destruct (bcrypt_compare p h2); [| done].
  destruct (JWT_SECRET e) as [k|]; simpl; [| done].
  rewrite (issued_like e _ _ k Hlike). by rewrite Hlike.
Qed.

(** C1.  No response of register, login, /me (both copies), logout, the
    two profile reads, the profile update, the image upload or the image
    removal carries a stored password hash.  First, no body has a key
    [password_hash] at any depth.  Second, no body depends on a stored
    hash: on two stores that differ only in the password hashes of their
    users, and under two hashing libraries (so that a registration
    stores two different hashes), the same request gets the same
    response, and the two stores differ only in the hashes afterwards.
    The one thing a response may depend on is the verdict of
    [bcrypt.compare] at login, accepted or refused, which is taken to be
    the same on both sides. *)
Theorem password_hash_never_sent
    (B1 B2 : Bcrypt) (T : TokenCodec)
    (ep : endpoint) (e : env) (rq : request) (d1 d2 : db) :
  let out1 := @serve B1 T ep e rq d1 in
  let out2 := @serve B2 T ep e rq d2 in
  mentions "password_hash" (body out1.1) = false
  ∧ (hashless d1 = hashless d2 →
     (ep = Login → @verdict B1 rq d1 = @verdict B2 rq d2) →
     out1.1 = out2.1 ∧ hashless out1.2 = hashless out2.2).
Proof.
  intros out1 out2. split; [apply no_password_hash_key |].
  intros Hd Hv. subst out1 out2. destruct ep; simpl.
  - by apply register_steady.
  - by apply login_steady; [| apply Hv].
  - by apply me_steady.
  - by apply me_earlier_steady.
  - done.
  - by apply profile_by_id_steady.
  - by apply profile_own_steady.
  - by apply profile_update_steady.
  - by apply upload_image_steady.
  - by apply delete_image_steady.
Qed.

(** ** The profile *)

Lemma profile_update_object_lacks (e : env) (b : row) (k : string) :
  k ∉ profile_fields → stringify (Profile.updateData e b) !! k = None.
Proof. intros Hk. by apply stringify_lookup_notin. Qed.

(** X17.  A profile update writes nothing but the columns updated_at,
    name, bio, location, garden_name and garden_size, and nothing in
    the row of any other user: e-mail, password hash, identifier, phone
    and image URL of every stored user are as they were before. *)
Theorem profile_update_writes_only_profile_fields
    (e : env) (rq : request) (d : db) (i : nat) (u : row) :
  users d !! i = Some u →
  ∃ u', users (Profile.update e rq d).2 !! i = Some u'
    ∧ (∀ k, k ∉ profile_fields → u' !! k = u !! k)
    ∧ (u !! "id" ≠ req_user rq !! "id" → u' = u).
Proof.
  intros Hu. unfold Profile.update. run_handler.
  destruct (selected _ (users d)) as [|r [|? ?]]; simpl; eauto.
  rewrite (update_rows_lookup _ _ _ _ _ Hu). eexists. split; [done |].
  destruct (matches _ u) eqn:Hm; [| done]. split.
  - intros k Hk. by rewrite patch_lookup, profile_update_object_lacks.
  - intros Hne. apply matches_one in Hm as (v & Hv & Huv). congruence.
Qed.

Lemma image_object_keeps (o : literal) (u : row) (k : string) :
  k ∉ o.*1 → patch (stringify o) u !! k = u !! k.
Proof. intros Hk. by rewrite patch_lookup, stringify_lookup_notin. Qed.

Lemma image_update (t : columns) (o : literal) (rq : request) (d : db) (u : row) :
  "id" ∉ o.*1 →
  selected [Eq "id" (req_user rq !! "id")] (users d) = [u] →
  update_single Users o [Eq "id" (req_user rq !! "id")] t d
  = (Next (mkResult (Some (project t (patch (stringify o) u))) None),
     set_rows Users (update_rows (stringify o) [Eq "id" (req_user rq !! "id")]
                       (users d)) d)
  ∧ selected [Eq "id" (req_user rq !! "id")]
      (update_rows (stringify o) [Eq "id" (req_user rq !! "id")] (users d))
    = [patch (stringify o) u].
Proof.
  intros Hid Hsel. split.
  - unfold update_single. simpl. by rewrite Hsel.
  - apply selected_update_rows; [done | done |].
    destruct (selected_self _ _ _ Hsel) as [_ Hm].
    apply matches_one in Hm as (v & Hv & Hu). apply matches_one.
    exists v. split; [done |]. by rewrite image_object_keeps.
Qed.

(** X18.  With a file, the upload handler of a user with exactly one
    stored row answers 200 with the file's URL and sets that row's
    profile_image_url to it; the removal handler run afterwards for the
    same user answers 200 and sets it to null.  Apart from
    profile_image_url and updated_at the row ends as it began. *)
Theorem image_upload_then_removal
    (e e' : env) (rq rq' : request) (d : db) (u : row) (path : string) :
  file_path rq = Some path →
  req_user rq' !! "id" = req_user rq !! "id" →
  selected [Eq "id" (req_user rq !! "id")] (users d) = [u] →
  let up := Profile.upload_image e rq d in
  let rm := Profile.delete_image e' rq' up.2 in
  ∃ u1 u2,
    selected [Eq "id" (req_user rq !! "id")] (users up.2) = [u1]
    ∧ u1 !! "profile_image_url" = Some (VStr path)
    ∧ up.1 = mkResponse 200
               (JObj [("success", jtrue);
                      ("message", jstr "Profile image uploaded successfully");
                      ("imageUrl", jstr path);
                      ("user", row_json (project (Cols ["id"; "email"; "name";
                                                        "profile_image_url"]) u1))])
    ∧ selected [Eq "id" (req_user rq !! "id")] (users rm.2) = [u2]
    ∧ u2 !! "profile_image_url" = Some VNull
    ∧ status rm.1 = 200
    ∧ ∀ k, k ≠ "profile_image_url" → k ≠ "updated_at" → u2 !! k = u !! k.
Proof.
  intros Hfile Hsame Hsel up rm.
  set (o1 := [("profile_image_url", str path); ("updated_at", str (now_iso e))]).
  set (o2 := [("profile_image_url", null); ("updated_at", str (now_iso e'))]).
  assert ("id" ∉ fst <$> o1) as Hid1 by (unfold o1; simpl; not_listed).
  assert ("id" ∉ fst <$> o2) as Hid2 by (unfold o2; simpl; not_listed).
  destruct (image_update (Cols ["id"; "email"; "name"; "profile_image_url"])
              o1 rq d u Hid1 Hsel) as [Hrun1 Hsel1].
  assert (up = (mkResponse 200
                  (JObj [("success", jtrue);
                         ("message", jstr "Profile image uploaded successfully");
                         ("imageUrl", jstr path);
                         ("user", row_json (project
                            (Cols ["id"; "email"; "name"; "profile_image_url"])
                            (patch (stringify o1) u)))]),
                set_rows Users (update_rows (stringify o1)
                                  [Eq "id" (req_user rq !! "id")] (users d)) d))
    as Hup.
  { subst up. unfold Profile.upload_image, try_catch, mbind, handler_bind, bind.
    rewrite Hfile. cbn [reply_if bool_decide decide_rel]. simpl.
    fold o1. by rewrite Hrun1. }
  assert (users up.2 = update_rows (stringify o1)
                         [Eq "id" (req_user rq !! "id")] (users d)) as Hu1
    by by rewrite Hup.
  rewrite <- Hu1 in Hsel1.
  destruct (image_update (Cols ["id"; "email"; "name"; "profile_image_url"])
              o2 rq up.2 _ Hid2 Hsel1) as [Hrun2 Hsel2].
  assert (rm.2 = set_rows Users (update_rows (stringify o2)
                                   [Eq "id" (req_user rq !! "id")] (users up.2))
                   up.2 ∧ status rm.1 = 200) as [Hrm Hst].
  { subst rm. unfold Profile.delete_image, try_catch, mbind, handler_bind, bind.
    rewrite Hsame. simpl. fold o2. by rewrite Hrun2. }
  exists (patch (stringify o1) u), (patch (stringify o2) (patch (stringify o1) u)).
  split; [done |]. split; [by rewrite patch_lookup |].
  split; [by rewrite Hup |].
  split; [by rewrite Hrm |]. split; [by rewrite patch_lookup |].
  split; [done |]. intros k Hk1 Hk2.
  rewrite !image_object_keeps; [done | |]; unfold o1, o2; simpl; not_listed.
Qed.

(** ** The average progress of a profile *)

Lemma progress_term_ok (r : row) :
  progress_ok r → ∃ t, Profile.progress_term r = Some t ∧ (0 ≤ t ≤ 100)%Z.
Proof.
  unfold Profile.progress_term, js_or.
  intros [-> | [-> | (n & -> & Hn)]]; simpl; try (exists 0; split; [done | lia]).
  destruct (Z.eqb_spec n 0) as [-> |]; simpl; [exists 0 | exists n];
    (split; [done | lia]).
Qed.

Lemma progress_sum_ok (rs : list row) (acc : Z) :
  Forall progress_ok rs →
  ∃ s, foldl (λ sum crop, s ← sum; p ← Profile.progress_term crop; Some (s + p))
         (Some acc) rs = Some s
     ∧ (acc ≤ s ≤ acc + 100 * Z.of_nat (length rs))%Z.
Proof.
  intros Hall. revert acc. induction Hall as [|r rs Hr _ IH]; intros acc.
  - exists acc. split; [done | simpl; lia].
  - destruct (progress_term_ok r Hr) as (t & Ht & Hrange).
    cbn [foldl]. rewrite Ht. simpl.
    destruct (IH (acc + t)%Z) as (s & Hs & Hbound).
    exists s. split; [done |]. cbn [length]. lia.
Qed.

Lemma round_div_range (s n : Z) :
  (0 < n)%Z → (0 ≤ s ≤ 100 * n)%Z → (0 ≤ Profile.round_div s n ≤ 100)%Z.
Proof.
  intros Hn Hs. unfold Profile.round_div. split.
  - apply Z.div_pos; lia.
  - assert ((2 * s + n) `div` (2 * n) < 101)%Z; [| lia].
    apply Z.div_lt_upper_bound; lia.
Qed.

Lemma projected_progress_ok (cs : list string) (r : row) :
  "progress" ∈ cs → progress_ok r → progress_ok (project (Cols cs) r).
Proof.
  intros Hin Hr. unfold progress_ok, project.
  assert (∀ o, (list_to_map ((λ k, (k, default VNull (r !! k))) <$> cs)
                : row) !! "progress" = Some o → o = default VNull (r !! "progress"))
    as Hval.
  { intros o Ho. apply elem_of_list_to_map_2 in Ho.
    apply list_elem_of_fmap in Ho as (k & [= <- ->] & _). done. }
  destruct (list_to_map _ !! "progress") as [o|] eqn:Ho.
  - rewrite (Hval o eq_refl).
    destruct Hr as [-> | [-> | (n & -> & Hn)]]; simpl; [auto | auto |].
    right. right. by exists n.
  - by left.
Qed.

Lemma average_ok (crops : list row) :
  Forall progress_ok crops →
  ∃ a, Profile.avgProgress crops = VNum a ∧ (0 ≤ a ≤ 100)%Z.
Proof.
  intros Hok. destruct crops as [|c crops]; [exists 0; split; [done | lia] |].
  destruct (progress_sum_ok (c :: crops) 0 Hok) as (s & Hs & Hbound).
  unfold Profile.avgProgress, Profile.progress_sum. rewrite Hs.
  eexists. split; [done |]. apply round_div_range; cbn [length] in *; lia.
Qed.

(** X19.  When every crop of the profiled user has no progress, a null
    progress or an integer progress from 0 to 100, the average progress
    the profile reports is an integer from 0 to 100; with no crops at
    all it is 0, not a division by zero. *)
Theorem average_progress_in_range (rs : list row) :
  Forall progress_ok rs →
  let crops := project (Cols ["id"; "name"; "status"; "progress"; "is_shared"])
               <$> rs in
  (∃ a, Profile.avgProgress crops = VNum a ∧ (0 ≤ a ≤ 100)%Z)
  ∧ (rs = [] → Profile.avgProgress crops = VNum 0).
Proof.
  intros Hall crops. split; [| by intros ->].
  apply average_ok. subst crops. apply Forall_fmap.
  eapply Forall_impl; [exact Hall |].
  intros r Hr. apply projected_progress_ok; [| done]. by repeat constructor.
Qed.

(** ** The public identifier of a stored image *)

Lemma append_cons (a : ascii) (s t : string) :
  String a s ++ t = String a (s ++ t).
Proof. reflexivity. Qed.

Lemma append_nil (t : string) : "" ++ t = t.
Proof. reflexivity. Qed.

Lemma split_not_nil (c : ascii) (s : string) : ∃ p ps, js_split c s = p :: ps.
Proof.
  induction s as [|a s (p & ps & IH)]; simpl; [eauto |].
  destruct (Ascii.eqb a c); [eauto |]. rewrite IH. eauto.
Qed.

Lemma split_free (c : ascii) (s : string) :
  free_of c s = true → js_split c s = [s].
Proof.
  induction s as [|a s IH]; [done |]. simpl.
  intros [Ha Hs]%andb_true_iff. apply negb_true_iff in Ha.
  by rewrite Ha, IH.
Qed.

Lemma split_append (c : ascii) (s t : string) :
  js_split c (s ++ String c t) = (js_split c s ++ js_split c t)%list.
Proof.
  induction s as [|a s IH].
  - rewrite append_nil. simpl. by rewrite Ascii.eqb_refl.
  - rewrite append_cons. simpl. rewrite IH.
    destruct (Ascii.eqb a c); [done |].
    by destruct (split_not_nil c s) as (p & ps & ->).
Qed.

(** X20.  From a stored image URL of the form
    [<base>/<name>.<rest>], where [name] has neither '/' nor '.' in it
    and [rest] no '/', the image removal and the account deletion derive
    the public identifier [name], and what they ask the media store to
    destroy for the requester is 'harvest-hub/profiles/<name>'. *)
Theorem public_id_of_an_image_url
    (base name rest : string) (rq : request) (d : db) (u : row) :
  free_of "/" name = true → free_of "." name = true → free_of "/" rest = true →
  let url := base ++ "/" ++ name ++ "." ++ rest in
  selected [Eq "id" (req_user rq !! "id")] (users d) = [u] →
  u !! "profile_image_url" = Some (VStr url) →
  Account.publicId url = name
  ∧ Account.media_call rq d = Some ("harvest-hub/profiles/" ++ name).
Proof.
  intros Hn1 Hn2 Hr url Hsel Hurl.
  assert (free_of "/" (name ++ "." ++ rest) = true) as Htail.
  { clear -Hn1 Hr. induction name as [|a name IH]; [done |].
    rewrite append_cons. simpl in *. apply andb_true_iff in Hn1 as [-> Hn1].
    by apply IH. }
  assert (Account.publicId url = name) as Hid.
  { unfold Account.publicId, url.
    change ("/" ++ name ++ "." ++ rest) with (String "/" (name ++ "." ++ rest)).
    rewrite split_append, (split_free "/" _ Htail), last_snoc. simpl.
    change ("." ++ rest) with (String "." rest).
    by rewrite split_append, (split_free "." _ Hn2). }
  split; [done |]. unfold Account.media_call, query, rows_of. rewrite Hsel. simpl.
  unfold Account.destroy_target, project. simpl.
  rewrite lookup_insert_eq, Hurl. simpl. rewrite Hid.
  destruct (String.eqb_spec url "") as [Hempty |]; [| done].
  unfold url in Hempty. by destruct base.
Qed.

(** ** Defaults of a new garden, and the fields of a profile *)

Lemma created_garden_default (e : env) (rq : request) (k : string) (v : value) :
  (k, v) ∈ garden_defaults →
  created_garden e rq !! k = req_body rq !! k ||| Some v.
Proof.
  intros Hin. unfold created_garden, garden_defaults in *.
  repeat (apply elem_of_cons in Hin as [[= -> ->] | Hin]);
    try (by apply elem_of_nil in Hin);
    (rewrite lookup_insert_ne by done); by literal_lookup.
Qed.

(** X21.  A garden creation whose name is falsy (left out, null, false,
    0 or the empty string) answers 400 and stores nothing.  Any other
    creation appends one row to the gardens and answers 201 with it; in
    that row location and description are null, type is 'outdoor' and
    size is 'medium' where the request supplies a falsy value or none,
    and each of the four holds the supplied value otherwise. *)
Theorem garden_create_substitutes_defaults (e : env) (rq : request) (d : db) :
  (falsy (req_body rq !! "name") →
   Gardens.create e rq d
   = (mkResponse 400 (fail_body "Garden name is required"), d))
  ∧ (¬ falsy (req_body rq !! "name") →
     ∃ stored,
       (Gardens.create e rq d).2 = mkDb (users d) (gardens d ++ [stored]) (crops d)
       ∧ (Gardens.create e rq d).1
         = mkResponse 201 (JObj [("success", jtrue);
                                 ("message", jstr "Garden created successfully");
                                 ("garden", row_json stored)])
       ∧ ∀ k v, (k, v) ∈ garden_defaults →
           (falsy (req_body rq !! k) → stored !! k = Some v)
           ∧ (¬ falsy (req_body rq !! k) → stored !! k = req_body rq !! k)).
Proof.
  rewrite gardens_create_run. split; intros Hname.
  - apply truthy_falsy in Hname. by rewrite Hname.
  - apply truthy_not_falsy in Hname. rewrite Hname. simpl.
    exists (created_garden e rq). split; [done |]. split; [done |].
    intros k v Hin. rewrite (created_garden_default _ _ _ _ Hin).
    split; intros Hk; [by apply js_or_falsy | by apply js_or_not_falsy].
Qed.

(** X22.  A profile update for a user with exactly one stored row
    answers 200 with the public columns of the written row.  In that
    row the name is the supplied one when truthy and the stored one
    otherwise, so a name cannot be emptied; bio, location, garden_name
    and garden_size take whatever is supplied, null and the empty
    string included, and stay when nothing is; updated_at is the time
    of the request. *)
Theorem profile_update_merges
    (e : env) (rq : request) (d : db) (u : row) :
  selected [Eq "id" (req_user rq !! "id")] (users d) = [u] →
  ∃ w,
    Profile.update e rq d
    = (mkResponse 200 (JObj [("success", jtrue);
                             ("message", jstr "Profile updated successfully");
                             ("user", row_json (project Profile.profile_columns w))]),
       set_rows Users
         (update_rows (stringify (Profile.updateData e (req_body rq)))
            [Eq "id" (req_user rq !! "id")] (users d)) d)
    ∧ selected [Eq "id" (req_user rq !! "id")]
        (users (Profile.update e rq d).2) = [w]
    ∧ w !! "name" = req_body rq !! "name" ||| u !! "name"
    ∧ (∀ k, k ∈ ["bio"; "location"; "garden_name"; "garden_size"] →
         w !! k = js_def (req_body rq !! k) (u !! k))
    ∧ w !! "updated_at" = Some (VStr (now_iso e)).
Proof.
  intros Hsel.
  assert ("id" ∉ fst <$> Profile.updateData e (req_body rq)) as Hid
    by (simpl; not_listed).
  destruct (image_update Profile.profile_columns _ rq d u Hid Hsel)
    as [Hrun Hsel'].
  assert (Profile.update e rq d
          = (mkResponse 200
               (JObj [("success", jtrue);
                      ("message", jstr "Profile updated successfully");
                      ("user", row_json (project Profile.profile_columns
                         (patch (stringify (Profile.updateData e (req_body rq))) u)))]),
             set_rows Users
               (update_rows (stringify (Profile.updateData e (req_body rq)))
                  [Eq "id" (req_user rq !! "id")] (users d)) d)) as Hup.
  { unfold Profile.update, try_catch, mbind, handler_bind, bind.
    by rewrite Hrun. }
  eexists. split; [exact Hup |]. rewrite Hup. split; [exact Hsel' |].
  rewrite !patch_lookup. unfold Profile.updateData.
  split; [| split].
  - literal_lookup. unfold js_or. destruct (truthy _) eqn:Ht; [| done].
    by apply truthy_Some in Ht as [v ->].
  - intros k Hk. rewrite patch_lookup.
    repeat (apply elem_of_cons in Hk as [-> | Hk]);
      try (by apply elem_of_nil in Hk); by literal_lookup.
  - by literal_lookup.
Qed.

Lemma matches_neq (r : row) (fs : list cond) (k : string) (v : value) :
  matches (fs ++ [Neq k (Some v)]) r = true → r !! k ≠ Some v.
Proof.
  unfold matches. rewrite forallb_app. intros [_ Hn]%andb_true_iff.
  cbn [forallb holds] in Hn. rewrite andb_true_r in Hn.
  destruct (r !! k) as [[| | |]|]; try done;
    apply negb_true_iff, bool_decide_eq_false in Hn; congruence.
Qed.

Lemma matches_head (r : row) (f : cond) (fs : list cond) :
  matches (f :: fs) r = true → matches [f] r = true.
Proof.
  unfold matches. cbn [forallb]. intros [-> _]%andb_true_iff. done.
Qed.

Lemma newest_of (k : string) (n : nat) (fs : list cond) (rs : list row) (c : row) :
  c ∈ take n (order_desc k (selected fs rs)) → c ∈ rs ∧ matches fs c = true.
Proof.
  intros Hc. apply selected_elem. rewrite <- (order_desc_perm k).
  apply elem_of_take in Hc as (i & Hi & _). by eapply list_elem_of_lookup_2.
Qed.

(** X23.  The own-profile read of a user with exactly one stored row
    answers 200; the active crops it shows are at most five, taken from
    the requester's crops, none of them with status 'harvest', and the
    sharing history it shows is at most five of the requester's crops
    marked shared. *)
Theorem own_profile_shows_own_rows (e : env) (rq : request) (d : db) (u : row) :
  selected [Eq "id" (req_user rq !! "id")] (users d) = [u] →
  ∃ gs cs hs,
    Profile.get_own e rq d
    = (mkResponse 200
         (JObj [("success", jtrue);
                ("profile",
                  JObj (row_fields (project Profile.profile_columns u) ++
                        [("impact", JObj [("sharedKg", Profile.mock e 0 5);
                                          ("helpedCount", Profile.mock e 1 1);
                                          ("savedCO2", Profile.mock e 2 5)]);
                         ("gardens",
                           jrows (project (Cols ["id"; "name"; "type"; "size";
                                                 "location"]) <$> gs));
                         ("activeCrops",
                           jrows (project (Cols ["id"; "name"; "category";
                                                 "status"; "progress";
                                                 "image_url"]) <$> cs));
                         ("sharingHistory",
                           jrows (project (Cols ["id"; "name"; "image_url";
                                                 "created_at"]) <$> hs))])%list)]),
       d)
    ∧ gs ≡ₚ selected [Eq "user_id" (req_user rq !! "id")] (gardens d)
    ∧ (length cs ≤ 5)%nat ∧ (length hs ≤ 5)%nat
    ∧ (∀ c, c ∈ cs → c ∈ crops d ∧ c !! "user_id" = req_user rq !! "id"
                     ∧ c !! "status" ≠ Some (VStr "harvest"))
    ∧ (∀ c, c ∈ hs → c ∈ crops d ∧ c !! "user_id" = req_user rq !! "id"
                     ∧ c !! "is_shared" = Some (VBool true)).
Proof.
  intros Hsel.
  eexists (order_desc "created_at" (selected _ (gardens d))),
          (take 5 (order_desc "created_at" (selected _ (crops d)))),
          (take 5 (order_desc "created_at" (selected _ (crops d)))).
  split; [| split; [apply order_desc_perm |]].
  - unfold Profile.get_own, Profile.sharing_history. run_handler.
    by rewrite Hsel.
  - split; [rewrite length_take; lia |]. split; [rewrite length_take; lia |].
    split; intros c [Hc Hm]%newest_of; (split; [done |]).
    + split.
      * apply matches_head, matches_one in Hm as (v & Hv & Hcv). congruence.
      * by apply (matches_neq c [Eq "user_id" (req_user rq !! "id")]).
    + apply matches_pair in Hm as (v1 & v2 & Hv1 & Hc1 & [= <-] & Hc2).
      split; congruence.
Qed.

(** ** The handlers on the sample store *)

Import Sample.

(** C2, where the code departs from it.  Bob fetches Alice's garden,
    then her crop: the row exists and belongs to somebody else, and the
    answer is 500, not 404, because [single] reports the empty result
    as an error and the handler throws it before it looks at the row. *)
Theorem fetching_a_foreign_row_answers_500 :
  not_mine Gardens bob_garden_a store garden_a
  ∧ (Gardens.get_one bob_garden_a store).1
    = mkResponse 500 (fail_body "Failed to fetch garden")
  ∧ not_mine Crops bob_crop_a store crop_a
  ∧ (Crops.get_one bob_crop_a store).1
    = mkResponse 500 (fail_body "Failed to fetch crop").
Proof.
  split; [unfold not_mine; compute_done |].
  split; [vm_compute; reflexivity |].
  split; [unfold not_mine; compute_done |].
  vm_compute; reflexivity.
Qed.

(** What the claim C2 has right: updates and deletions of a foreign row. *)
Lemma foreign_row_is_not_written
    (x : resource) (e : env) (rq : request) (d : db) (r : row) :
  not_mine (table_of x) rq d r →
  (put x e rq d).2 = d ∧ status (put x e rq d).1 = 404
  ∧ (del x rq d).2 = d ∧ status (del x rq d).1 = 404
  ∧ (get_one x rq d).2 = d ∧ status (get_one x rq d).1 = 500.
Proof.
  intros Hno. apply not_mine_selected in Hno.
  rewrite update_run, delete_run, Hno.
  destruct x; unfold get_one.
  - rewrite gardens_get_run. simpl in *. by rewrite Hno.
  - rewrite crops_get_run. simpl in *. by rewrite Hno.
Qed.

(** C3, as stated, fails: Alice updates her crop with a progress of 0,
    a falsy value; the row is written with 0 and the stored 50 is
    gone. *)
Lemma falsy_progress_is_written :
  mine Crops alice_progress_0 store crop_a
  ∧ truthy (req_body alice_progress_0 !! "progress") = false
  ∧ column "progress" (crops store) = [Some (VNum 50)]
  ∧ column "progress" (crops (Crops.update clock alice_progress_0 store).2)
    = [Some (VNum 0)]
  ∧ column "progress" (crops (Crops.update clock alice_progress_0 store).2)
    ≠ column "progress" (crops store).
Proof. unfold mine. compute_done. Qed.

(** C4, as stated, fails: Alice updates her crop with a progress of 70
    only; [updated_at], which the request does not supply, changes. *)
Lemma partial_update_changes_updated_at :
  mine Crops alice_progress_70 store crop_a
  ∧ req_body alice_progress_70 !! "updated_at" = None
  ∧ column "updated_at" (crops store) = [Some (VStr "2024-01-01T00:00:00.000Z")]
  ∧ column "updated_at" (crops (Crops.update clock alice_progress_70 store).2)
    = [Some (VStr "2025-06-01T12:00:00.000Z")]
  ∧ column "updated_at" (crops (Crops.update clock alice_progress_70 store).2)
    ≠ column "updated_at" (crops store).
Proof. unfold mine. compute_done. Qed.

(** C9, as stated, fails: on a store whose progress values are in
    range, Alice creates a crop with a progress of 150 and updates one
    to 150; both values are stored. *)
Lemma progress_150_is_stored :
  Forall progress_in_range (crops store)
  ∧ column "progress" (crops (Crops.create clock alice_new_crop_150 store).2)
    = [Some (VNum 50); Some (VNum 150)]
  ∧ column "progress" (crops (Crops.update clock alice_progress_150 store).2)
    = [Some (VNum 150)]
  ∧ ¬ in_range (Some (VNum 150)).
Proof.
  split.
  { apply Forall_singleton. exists 50. split; [compute_done | lia]. }
  split; [compute_done |]. split; [compute_done |].
  intros (n & [= <-] & Hn). lia.
Qed.

(** A stored user row does carry the hash; the row that register and
    login send does not. *)
Lemma stored_user_row_has_the_hash :
  mentions "password_hash" (row_json alice) = true
  ∧ mentions "password_hash" (row_json (Auth.userWithoutPassword alice)) = false.
Proof. split; vm_compute; reflexivity. Qed.

(** ** The theorems at work on the sample store *)

#[local] Existing Instance bcrypt.
#[local] Existing Instance alice_codec.

Lemma alice_owns_crop_a_0 : mine Crops alice_progress_0 store crop_a.
Proof. unfold mine. compute_done. Defined.

Lemma alice_owns_crop_a_70 : mine Crops alice_progress_70 store crop_a.
Proof. unfold mine. compute_done. Defined.

Lemma alice_owns_garden_a : mine Gardens alice_renames_garden store garden_a.
Proof. unfold mine. compute_done. Defined.

Lemma update_merges_witness :
  status (put Crop clock alice_progress_0 store).1 = 200
  ∧ status (put Garden clock alice_renames_garden store).1 = 200.
Proof.
  pose proof (update_merges_field_by_field Crop clock alice_progress_0 store
                crop_a alice_owns_crop_a_0) as [Hcrop _].
  pose proof (update_merges_field_by_field Garden clock alice_renames_garden
                store garden_a alice_owns_garden_a) as [Hgarden _].
  split; [exact Hcrop | exact Hgarden].
Defined.

Lemma partial_crop_update_witness :
  ∃ w : row, status (Crops.update clock alice_progress_70 store).1 = 200
    ∧ w !! "updated_at" = Some (VStr (now_iso clock)).
Proof.
  destruct (partial_crop_update_keeps_other_fields clock alice_progress_70 store
              crop_a alice_owns_crop_a_70) as (w & Hst & _ & _ & Hstamp).
  exists w. split; [exact Hst | exact Hstamp].
Defined.

Lemma progress_in_range_witness :
  Forall progress_in_range (crops (crop_write Update clock alice_progress_70 store).2)
  ∧ (∃ r, r ∈ crops (crop_write Update clock alice_progress_150 store).2
          ∧ r !! "progress" = Some (VNum 150))
  ∧ (∃ r, r ∈ crops (crop_write Create clock alice_new_crop_150 store).2
          ∧ r !! "progress" = Some (VNum 150)).
Proof.
  pose proof (progress_is_stored_without_a_range_check Update clock
                alice_progress_70 store) as [Hin _].
  pose proof (progress_is_stored_without_a_range_check Update clock
                alice_progress_150 store) as [_ Hupdate].
  pose proof (progress_is_stored_without_a_range_check Create clock
                alice_new_crop_150 store) as [_ Hcreate].
  cbv zeta in *. split; [| split].
  - apply Hin.
    + apply Forall_singleton. exists 50. split; [compute_done | lia].
    + right. exists 70. split; [compute_done | lia].
  - destruct (Hupdate 150) as (r & Hr & Hp & _);
      [compute_done | lia | compute_done |].
    exists r. split; [exact Hr | exact Hp].
  - destruct (Hcreate 150) as (r & Hr & Hp & _);
      [compute_done | lia | compute_done |].
    exists r. split; [exact Hr | exact Hp].
Defined.

Lemma sample_store_matches : crops_match_gardens store.
Proof.
  intros c Hc. apply list_elem_of_singleton in Hc as ->.
  exists garden_a, (VNum 10), (VNum 1).
  split; [by left |]. compute_done.
Defined.

Lemma crop_writes_witness :
  crops_match_gardens
    (run_ops [CreateCrop clock alice_new_crop_150;
              UpdateCrop clock alice_progress_70;
              UpdateGarden clock alice_renames_garden;
              CreateGarden later alice_renames_garden] store).
Proof.
  pose proof (crop_writes_keep_garden_of_same_user store sample_store_matches)
    as (_ & _ & Hops).
  apply Hops.
Defined.

Lemma alice_garden_is_hers : garden_is_mine alice_new_crop_falsy store.
Proof. exists garden_a. compute_done. Defined.

Lemma crop_create_defaults_witness :
  ∃ stored,
    crops (Crops.create clock alice_new_crop_falsy store).2 = [crop_a; stored]
    ∧ stored !! "quantity" = Some (VNum 1)
    ∧ stored !! "progress" = Some (VNum 0)
    ∧ stored !! "category" = Some (VStr "vegetable")
    ∧ stored !! "status" = Some (VStr "seedling")
    ∧ stored !! "is_shared" = Some (VBool false).
Proof.
  destruct (crop_create_substitutes_defaults clock alice_new_crop_falsy store)
    as (stored & Hrows & _ & _ & Hq & Hp & Hc & Hs & Hi).
  - compute_done.
  - compute_done.
  - exact alice_garden_is_hers.
  - exists stored. split; [exact Hrows |].
    split; [apply Hq; compute_done |]. split; [apply Hp; compute_done |].
    split; [apply Hc; compute_done |]. split; [apply Hs; compute_done |].
    apply Hi; compute_done.
Defined.

Lemma nobody_fails : login_failure login_nobody store.
Proof. apply Unknown_email; compute_done. Defined.

Lemma alice_wrong_fails : login_failure login_alice_wrong store.
Proof.
  apply (Wrong_password login_alice_wrong store alice "potato" "pepper-tomato");
    compute_done.
Defined.

Lemma login_failures_witness :
  (Auth.login later login_alice_wrong store).1
  = (Auth.login clock login_nobody store).1.
Proof.
  apply (login_failures_look_alike clock later login_nobody login_alice_wrong store store
           nobody_fails alice_wrong_fails).
Defined.

Lemma non_string_password_witness :
  (Auth.login clock login_alice_123 store).1
  = mkResponse 500 (err_body "Internal server error")
  ∧ (Auth.login clock login_nobody_123 store).1
    = mkResponse 401 (err_body "Invalid credentials").
Proof.
  assert (req_body login_alice_123 !! "password" = Some (VNum 123)) as Hp
    by compute_done.
  destruct (non_string_password_tells_the_failures_apart clock
              login_alice_123 login_nobody_123 store alice)
    as (H1 & H2 & _).
  - compute_done.
  - compute_done.
  - compute_done.
  - intros p. rewrite Hp. discriminate.
  - compute_done.
  - compute_done.
  - compute_done.
  - rewrite H1, H2. split; reflexivity.
Defined.

Lemma me_alice_parses :
  parses later me_alice alice_token "k3y".
Proof.
  exists "h.p.k3y". split; [| compute_done].
  exists "Bearer h.p.k3y". compute_done.
Defined.

Lemma me_alice_expired : me_case Expired later me_alice store.
Proof.
  exists alice_token, "k3y", (1748779200 + 604800).
  split; [exact me_alice_parses | compute_done].
Defined.

Lemma me_refusals_witness :
  Auth.me later me_alice store
  = (me_answer Expired, store).
Proof.
  apply (me_refusals_are_told_apart Expired later
           me_alice store me_alice_expired).
Defined.

Lemma alice_logs_in :
  login_success clock login_alice store alice "k3y".
Proof.
  split; [compute_done |]. split; [compute_done |]. split; [| compute_done].
  exists "tomato", "pepper-tomato". compute_done.
Defined.

Lemma login_token_witness :
  Auth.me later me_alice store
  = (me_answer Expired, store).
Proof.
  destruct (login_token_round_trip_and_expiry clock login_alice store alice "k3y" alice_logs_in)
    as (_ & _ & _ & Hme).
  - compute_done.
  - compute_done.
  - compute_done.
  - apply Hme; compute_done.
Defined.

Lemma password_hash_witness :
  column "password_hash" (users store)
  ≠ column "password_hash" (users store_rehashed)
  ∧ (Auth.login clock login_alice store).1
    = (Auth.login clock login_alice store_rehashed).1
  ∧ status (Auth.login clock login_alice store).1 = 200
  ∧ mentions "password_hash" (body (Auth.login clock login_alice store).1) = false.
Proof.
  pose proof (password_hash_never_sent bcrypt bcrypt alice_codec Login clock
                login_alice store store_rehashed) as [Hkey Hsame].
  cbv zeta in *.
  split; [compute_done |].
  split; [apply Hsame; [compute_done | intros _; vm_compute; reflexivity] |].
  split; [compute_done | exact Hkey].
Defined.

(** ** The further properties at work on the sample store *)

Import More.

Lemma none_has_id (rs : list row) (v : value) :
  Forall (λ r, r !! "id" ≠ Some v) rs → ∀ r, r ∈ rs → r !! "id" ≠ Some v.
Proof. intros Hall. by apply Forall_forall. Defined.

Lemma created_garden_witness :
  status (Gardens.get_one alice_fetches_101
            (Gardens.create clock alice_new_garden store).2).1 = 200.
Proof.
  pose proof (created_garden_can_be_fetched clock alice_new_garden
                alice_fetches_101 store (VNum 1)) as Hfetch.
  rewrite Hfetch; [reflexivity | compute_done | compute_done | | compute_done
                  | compute_done].
  apply none_has_id. compute_done.
Defined.

Lemma alice_garden_for_new_crop : garden_is_mine alice_new_crop store.
Proof. exists garden_a. compute_done. Defined.

Lemma created_crop_witness :
  status (Crops.get_one alice_fetches_101
            (Crops.create clock alice_new_crop store).2).1 = 200.
Proof.
  pose proof (created_crop_can_be_fetched clock alice_new_crop
                alice_fetches_101 store (VNum 1)) as Hfetch.
  rewrite Hfetch; [reflexivity | compute_done | compute_done
                  | exact alice_garden_for_new_crop | compute_done |
                  | compute_done | compute_done].
  apply none_has_id. compute_done.
Defined.

Lemma crop_a_is_alices : mine (table_of Crop) alice_progress_70 store crop_a.
Proof. unfold mine. compute_done. Defined.

Lemma garden_a_is_alices : mine (table_of Garden) alice_renames_garden store garden_a.
Proof. unfold mine. compute_done. Defined.

Lemma deletion_witness : status (del Crop alice_progress_70 store).1 = 200.
Proof.
  pose proof (deletion_removes_the_row_once Crop alice_progress_70 store crop_a
                crop_a_is_alices) as [Hst _].
  exact Hst.
Defined.

Lemma updated_row_witness :
  status (get_one Garden alice_renames_garden
            (put Garden clock alice_renames_garden store).2).1 = 200.
Proof.
  pose proof (updated_row_can_be_fetched Garden clock alice_renames_garden store
                garden_a garden_a_is_alices) as Hfetch.
  cbv zeta in Hfetch. rewrite Hfetch. reflexivity.
Defined.

Lemma update_twice_witness :
  put Crop clock alice_progress_70 (put Crop clock alice_progress_70 store).2
  = put Crop clock alice_progress_70 store.
Proof.
  exact (update_twice_is_update_once Crop clock alice_progress_70 store crop_a
           crop_a_is_alices).
Defined.

Lemma writes_leave_witness :
  rows_of (table_of Garden) (put Garden clock alice_renames_garden store).2 !! 1%nat
  = Some garden_b.
Proof.
  pose proof (writes_leave_rows_of_others Garden clock alice_renames_garden store
                1 garden_b) as Hleave.
  destruct Hleave as [Hput _]; [compute_done | compute_done | exact Hput].
Defined.

Lemma store_crops_match : crops_match_gardens store.
Proof.
  intros c Hc. apply list_elem_of_singleton in Hc as ->.
  exists garden_a, (VNum 10), (VNum 1).
  split; [by left |]. compute_done.
Defined.

Lemma store_gardens_one_owner : one_owner_per_id (gardens store).
Proof.
  assert (Forall (λ y1, Forall (λ y2 : row,
            is_Some (y1 !! "id") → y1 !! "id" = y2 !! "id" →
            y1 !! "user_id" = y2 !! "user_id") (gardens store)) (gardens store))
    as Hall by compute_done.
  intros y1 y2 H1 H2. rewrite Forall_forall in Hall.
  specialize (Hall y1 H1). rewrite Forall_forall in Hall. by apply Hall.
Defined.

Lemma crops_of_a_garden_witness :
  (Crops.list_by_garden alice_lists_garden_a store).2 = store.
Proof.
  pose proof (crops_of_a_garden_are_the_requesters alice_lists_garden_a store
                store_crops_match store_gardens_one_owner) as [Hsame _].
  exact Hsame.
Defined.

Lemma registration_refused_witness :
  (Auth.register clock register_alice_again store).2 = store.
Proof.
  pose proof (registration_refused clock register_alice_again store) as Hrefused.
  cbv zeta in Hrefused. rewrite Hrefused; [reflexivity |].
  right. exists alice. compute_done.
Defined.




Lemma alice_logs_in_at_clock : login_success clock login_alice store alice "k3y".
Proof.
  split; [compute_done |]. split; [compute_done |]. split; [| compute_done].
  exists "tomato", "pepper-tomato". compute_done.
Defined.

Lemma login_opens_me_witness : status (Auth.me soon me_alice store).1 = 200.
Proof.
  pose proof (login_token_opens_me clock soon login_alice me_alice store alice
                "k3y" alice_logs_in_at_clock) as Hme.
  cbv zeta in Hme. rewrite Hme; [reflexivity | compute_done..].
Defined.

Lemma earlier_me_witness :
  status (Auth.me_earlier clock me_basic_garbage store).1 = 500.
Proof.
  pose proof (earlier_me_answers_500_to_a_bad_token clock me_basic_garbage store
                "Basic garbage" "garbage" (JsonWebTokenError "jwt malformed"))
    as Hbad.
  rewrite Hbad; [reflexivity | compute_done | compute_done | compute_done |].
  vm_compute. reflexivity.
Defined.

Lemma me_alice_parses_soon : parses soon me_alice alice_token "k3y".
Proof.
  exists "h.p.k3y". split; [| compute_done].
  exists "Bearer h.p.k3y". compute_done.
Defined.

Lemma alice_token_verifies_soon : verifies soon alice_token "k3y".
Proof.
  split; [compute_done |]. right. exists (1748779200 + 604800). compute_done.
Defined.

Lemma deleted_account_witness :
  status (Account.delete_account alice_progress_70 store).1 = 200.
Proof.
  pose proof (deleted_account_is_gone alice_progress_70 me_alice store soon
                alice_token "k3y" (VNum 1)) as Hgone.
  destruct Hgone as [Hst _];
    [compute_done | compute_done | exact me_alice_parses_soon
    | exact alice_token_verifies_soon | exact Hst].
Defined.

Lemma profile_update_frame_witness :
  ∃ u', users (Profile.update clock alice_edits_profile store).2 !! 0%nat = Some u'
    ∧ u' !! "email" = alice !! "email".
Proof.
  destruct (profile_update_writes_only_profile_fields clock alice_edits_profile
              store 0 alice) as (u' & Hu' & Hkeep & _); [compute_done |].
  exists u'. split; [exact Hu' |]. apply Hkeep. unfold profile_fields. not_listed.
Defined.

Lemma alice_is_the_row : 
  selected [Eq "id" (req_user alice_uploads !! "id")] (users store) = [alice].
Proof. compute_done. Defined.

Lemma image_witness :
  status (Profile.upload_image clock alice_uploads store).1 = 200.
Proof.
  destruct (image_upload_then_removal clock soon alice_uploads alice_uploads store
              alice (image_base ++ "/abc123.jpg"))
    as (u1 & u2 & _ & _ & Hup & _);
    [compute_done | compute_done | exact alice_is_the_row |].
  rewrite Hup. reflexivity.
Defined.

Lemma average_witness :
  ∃ a, Profile.avgProgress
         (project (Cols ["id"; "name"; "status"; "progress"; "is_shared"])
          <$> crops store) = VNum a ∧ (0 ≤ a ≤ 100)%Z.
Proof.
  apply (average_progress_in_range (crops store)).
  apply Forall_singleton. right. right. exists 50. split; [compute_done | lia].
Defined.

Lemma public_id_witness :
  Account.media_call alice_uploads store_with_image
  = Some "harvest-hub/profiles/abc123".
Proof.
  pose proof (public_id_of_an_image_url image_base "abc123" "jpg" alice_uploads
                store_with_image alice_with_image) as Hid.
  destruct Hid as [_ Hcall]; [compute_done.. | exact Hcall].
Defined.

Lemma profile_merge_witness :
  status (Profile.update clock alice_edits_profile store).1 = 200.
Proof.
  destruct (profile_update_merges clock alice_edits_profile store alice)
    as (w & Hup & _); [compute_done |].
  rewrite Hup. reflexivity.
Defined.

Lemma own_profile_witness :
  status (Profile.get_own clock alice_edits_profile store).1 = 200.
Proof.
  destruct (own_profile_shows_own_rows clock alice_edits_profile store alice)
    as (gs & cs & hs & Hown & _); [compute_done |].
  rewrite Hown. reflexivity.
Defined.

Lemma garden_defaults_witness :
  Gardens.create clock alice_nameless_garden store
  = (mkResponse 400 (fail_body "Garden name is required"), store)
  ∧ ∃ stored,
      gardens (Gardens.create clock alice_new_garden_falsy store).2
      = [garden_a; garden_b; stored]
      ∧ stored !! "location" = Some VNull
      ∧ stored !! "type" = Some (VStr "outdoor")
      ∧ stored !! "size" = Some (VStr "medium")
      ∧ stored !! "description" = Some VNull.
Proof.
  pose proof (garden_create_substitutes_defaults clock alice_nameless_garden
                store) as [Hrefused _].
  pose proof (garden_create_substitutes_defaults clock alice_new_garden_falsy
                store) as [_ Hstored].
  split; [apply Hrefused; compute_done |].
  destruct Hstored as (stored & Hout & _ & Hdef); [compute_done |].
  exists stored. split; [by rewrite Hout |].
  unfold garden_defaults in Hdef.
  split; [apply (Hdef "location" VNull); [by left | compute_done] |].
  split; [apply (Hdef "type" (VStr "outdoor")); [right; by left | compute_done] |].
  split; [apply (Hdef "size" (VStr "medium")); [do 2 right; by left | compute_done] |].
  apply (Hdef "description" VNull); [do 3 right; by left | compute_done].
Defined.
